(** * PhonePe statement analyzer: a shallow embedding of [app.py]

    The development follows the source file section by section:
    text primitives of Python's [str], the fragment of the [re] module
    the parser needs, [parse_phonepe_pdf], pandas data frames as
    ordered column tables, [categorize_transactions], and the learning
    loop of [main].

    Conventions of the embedding.
    - A Python [str] is a [string]: a sequence of code points below 256
      (the Latin-1 range).  [lower], [strip], [split] and the character
      classes of [re] are Python's own restricted to that range.
    - A [dict] whose iteration order matters ([keyword_dict]) is an
      association list in insertion order with unique keys; a [dict] that
      is only looked up and updated ([name_to_category]) is a [gmap].
    - Exceptions are values of [exn]; a computation that can raise
      returns a [result].
    - Objects that are mutated in place live in a [Store]; a function
      that writes one is a state transformer in the monad [M]. *)

From Stdlib Require Import ZArith NArith Ascii String List Bool Lia.
From Stdlib Require Import DecimalString DecimalPos.
From stdpp Require Import base option list gmap strings.

Local Open Scope N_scope.

(* ================================================================== *)
(** * Characters and Python's [str] methods                            *)
(* ================================================================== *)

Definition code (c : ascii) : N := N_of_ascii c.

Definition in_range (lo hi : N) (c : ascii) : bool :=
  (lo <=? code c) && (code c <=? hi).

(** [\d] of the [re] module on code points below 256. *)
Definition is_digit (c : ascii) : bool := in_range 48 57 c.

(** [[A-Za-z]]. *)
Definition is_letter (c : ascii) : bool := in_range 65 90 c || in_range 97 122 c.

(** [.] without [re.DOTALL]: everything but the line feed. *)
Definition not_newline (c : ascii) : bool := negb (code c =? 10).

(** [[\d,]]. *)
Definition is_digit_or_comma (c : ascii) : bool := is_digit c || (code c =? 44).

(** [str.isspace] on one code point below 256: TAB, LF, VT, FF, CR,
    FS, GS, RS, US, SPACE, NEL and NBSP. *)
Definition is_space (c : ascii) : bool :=
  in_range 9 13 c || in_range 28 32 c || (code c =? 133) || (code c =? 160).

(** [str.lower] on one code point below 256: A-Z and the accented
    capitals of Latin-1 (all of 192..222 but the multiplication sign). *)
Definition lower_char (c : ascii) : ascii :=
  if in_range 65 90 c || in_range 192 214 c || in_range 216 222 c
  then ascii_of_N (code c + 32)
  else c.

(** [s.lower()] *)
Fixpoint lower (s : string) : string :=
  match s with
  | EmptyString => EmptyString
  | String c s' => String (lower_char c) (lower s')
  end.

(** [s.lstrip()] *)
Fixpoint lstrip (s : string) : string :=
  match s with
  | EmptyString => EmptyString
  | String c s' => if is_space c then lstrip s' else s
  end.

(** [s.rstrip()] *)
Fixpoint rstrip (s : string) : string :=
  match s with
  | EmptyString => EmptyString
  | String c s' =>
      match rstrip s' with
      | EmptyString => if is_space c then EmptyString else String c EmptyString
      | r => String c r
      end
  end.

(** [s.strip()] *)
Definition strip (s : string) : string := rstrip (lstrip s).

(** [s.split()] with no separator: the maximal runs of non-space
    characters, in order.  [split_ws_go s] is the word that starts at the
    head of [s] (empty if [s] starts with a space) and the words after it. *)
Fixpoint split_ws_go (s : string) : string * list string :=
  match s with
  | EmptyString => (EmptyString, [])
  | String c s' =>
      let '(w, ws) := split_ws_go s' in
      if is_space c
      then (EmptyString, match w with EmptyString => ws | _ => w :: ws end)
      else (String c w, ws)
  end.

Definition split_ws (s : string) : list string :=
  let '(w, ws) := split_ws_go s in
  match w with EmptyString => ws | _ => w :: ws end.

(** [s.startswith(p)] *)
Fixpoint starts_with (p s : string) : bool :=
  match p, s with
  | EmptyString, _ => true
  | String a p', String b s' => Ascii.eqb a b && starts_with p' s'
  | String _ _, EmptyString => false
  end.

(** [p in s] for two strings. *)
Fixpoint contains (p s : string) : bool :=
  starts_with p s ||
  match s with
  | EmptyString => false
  | String _ s' => contains p s'
  end.

(** [s.split(sep)] for a non-empty [sep]: the pieces between the
    occurrences of [sep], found left to right without overlap.  [skip]
    counts the characters of a separator still to be passed over and
    [cur] is the current piece, reversed. *)
Fixpoint split_sep_go (sep : string) (skip : nat) (cur : string) (s : string)
  : list string :=
  match s with
  | EmptyString => [String.rev cur]
  | String c s' =>
      match skip with
      | S k => split_sep_go sep k cur s'
      | O =>
          if starts_with sep s
          then String.rev cur :: split_sep_go sep (String.length sep - 1) EmptyString s'
          else split_sep_go sep 0 (String c cur) s'
      end
  end.

Definition split_sep (sep s : string) : list string :=
  split_sep_go sep 0 EmptyString s.

(** [s.replace(",", "")]: the one use of [replace] in the source drops
    a single character. *)
Fixpoint remove_char (x : ascii) (s : string) : string :=
  match s with
  | EmptyString => EmptyString
  | String c s' => if Ascii.eqb c x then remove_char x s' else String c (remove_char x s')
  end.

(* ================================================================== *)
(** * Exceptions                                                       *)
(* ================================================================== *)

(** The exception classes the program meets; [OtherError] stands for
    any class a library call may raise besides. *)
Inductive exn : Type :=
  | KeyError | IndexError | AttributeError | ValueError | TypeError | OtherError.

Inductive result (A : Type) : Type :=
  | Ok (a : A)
  | Raise (e : exn).
Arguments Ok {A} a.
Arguments Raise {A} e.

Definition rbind {A B} (r : result A) (k : A -> result B) : result B :=
  match r with
  | Ok a => k a
  | Raise e => Raise e
  end.

Fixpoint rmap_list {A B} (f : A -> result B) (l : list A) : result (list B) :=
  match l with
  | [] => Ok []
  | x :: l' => rbind (f x) (fun y => rbind (rmap_list f l') (fun ys => Ok (y :: ys)))
  end.

(* ================================================================== *)
(** * The fragment of [re] used by the parser                          *)
(* ================================================================== *)

(** Patterns: the constructs that occur in the three patterns of
    [parse_phonepe_pdf].  Repetition is only ever applied to a character
    class there, so [Star] carries a class. *)
Inductive regex : Type :=
  | Bol                              (* ^ *)
  | Eps
  | Cls (p : ascii -> bool)          (* a character class, one character *)
  | Cat (r1 r2 : regex)
  | Alt (r1 r2 : regex)              (* r1|r2 *)
  | Star (p : ascii -> bool).        (* [class]*, greedy *)

(** A literal piece of pattern text. *)
Fixpoint Lit (s : string) : regex :=
  match s with
  | EmptyString => Eps
  | String c s' => Cat (Cls (Ascii.eqb c)) (Lit s')
  end.

(** [class{n}] *)
Fixpoint Rep (n : nat) (p : ascii -> bool) : regex :=
  match n with
  | O => Eps
  | S k => Cat (Cls p) (Rep k p)
  end.

(** [class+] *)
Definition Plus (p : ascii -> bool) : regex := Cat (Cls p) (Star p).

(** The greedy run of [Star p] over [s]: every way to stop, longest
    first.  Each entry is the text left after the run. *)
Fixpoint star_run (p : ascii -> bool) (s : string) : list string :=
  match s with
  | EmptyString => [EmptyString]
  | String c s' => if p c then star_run p s' ++ [s] else [s]
  end.

(** The backtracking matcher as a list of successes: [run n r s] lists,
    in the order the engine tries them, the texts that can be left after
    [r] has matched a prefix of [s].  [n] is the length of the whole
    subject, by which [Bol] recognises its start. *)
Fixpoint run (n : nat) (r : regex) (s : string) : list string :=
  match r with
  | Bol => if Nat.eqb (String.length s) n then [s] else []
  | Eps => [s]
  | Cls p =>
      match s with
      | String c s' => if p c then [s'] else []
      | EmptyString => []
      end
  | Cat r1 r2 => flat_map (run n r2) (run n r1 s)
  | Alt r1 r2 => run n r1 s ++ run n r2 s
  | Star p => star_run p s
  end.

(** The first success of [r] on the suffix [s] of a subject of length
    [n]: the matched text and the text after it. *)
Definition match_at (n : nat) (r : regex) (s : string) : option (string * string) :=
  match run n r s with
  | rest :: _ => Some (String.substring 0 (String.length s - String.length rest) s, rest)
  | [] => None
  end.

(** [re.match(r, s)]: match at the start of the subject only. *)
Definition re_match (r : regex) (s : string) : option (string * string) :=
  match_at (String.length s) r s.

(** [re.search(r, s)]: the leftmost position at which [r] matches. *)
Fixpoint search_from (n : nat) (r : regex) (s : string) : option (string * string) :=
  match match_at n r s with
  | Some m => Some m
  | None =>
      match s with
      | EmptyString => None
      | String _ s' => search_from n r s'
      end
  end.

Definition re_search (r : regex) (s : string) : option (string * string) :=
  search_from (String.length s) r s.

(* ================================================================== *)
(** * PhonePe parser                                                   *)
(* ================================================================== *)

(** [r'^[A-Za-z]{3} \d{2}, \d{4} .* (Debit|Credit) INR \d'] *)
Definition TXN_LINE : regex :=
  Cat Bol
 (Cat (Rep 3 is_letter)
 (Cat (Lit " ")
 (Cat (Rep 2 is_digit)
 (Cat (Lit ", ")
 (Cat (Rep 4 is_digit)
 (Cat (Lit " ")
 (Cat (Star not_newline)
 (Cat (Lit " ")
 (Cat (Alt (Lit "Debit") (Lit "Credit"))
 (Cat (Lit " INR ")
      (Cls is_digit))))))))))).

(** [is_transaction_line(line)], as the truth value the caller tests. *)
Definition is_transaction_line (line : string) : bool :=
  match re_match TXN_LINE line with
  | Some _ => true
  | None => false
  end.

(** [r'^([A-Za-z]{3} \d{2}, \d{4})']; group 1 is the whole match. *)
Definition DATE_RE : regex :=
  Cat Bol
 (Cat (Rep 3 is_letter)
 (Cat (Lit " ")
 (Cat (Rep 2 is_digit)
 (Cat (Lit ", ")
      (Rep 4 is_digit))))).

(** [r'INR ([\d,]+\.\d{2})']; group 1 is the match without its first
    four characters. *)
Definition AMOUNT_RE : regex :=
  Cat (Lit "INR ")
 (Cat (Plus is_digit_or_comma)
 (Cat (Lit ".")
      (Rep 2 is_digit))).

Fixpoint string_drop (n : nat) (s : string) : string :=
  match n, s with
  | S k, String _ s' => string_drop k s'
  | _, _ => s
  end.

Definition amount_group1 (m : string * string) : string := string_drop 4 (fst m).

Fixpoint all_chars (p : ascii -> bool) (s : string) : bool :=
  match s with
  | EmptyString => true
  | String c s' => p c && all_chars p s'
  end.

(** [int(s)] on a string of decimal digits, most significant first. *)
Fixpoint int_of_digits_go (acc : N) (s : string) : N :=
  match s with
  | EmptyString => acc
  | String c s' => int_of_digits_go (10 * acc + (code c - 48)) s'
  end.

Definition int_of_digits (s : string) : N := int_of_digits_go 0 s.

(** ** Calendar dates ([datetime.date]) *)

Record date : Type := mkdate { year : N; month : N; day : N }.

Definition is_leap (y : N) : bool :=
  (y mod 4 =? 0) && (negb (y mod 100 =? 0) || (y mod 400 =? 0)).

Definition days_in_month (y m : N) : N :=
  match m with
  | 2 => if is_leap y then 29 else 28
  | 4 | 6 | 9 | 11 => 30
  | _ => 31
  end.

(** The month abbreviations of [%b] (C and English locales), in
    calendar order, as [_strptime] compares them: lowercased. *)
Definition month_abbr : list string :=
  ["jan"; "feb"; "mar"; "apr"; "may"; "jun";
   "jul"; "aug"; "sep"; "oct"; "nov"; "dec"].

Fixpoint index_of (x : string) (l : list string) : option N :=
  match l with
  | [] => None
  | y :: l' => if String.eqb x y then Some 0 else N.succ <$> index_of x l'
  end.

(** [datetime.strptime(date_str, "%b %d, %Y").date()] on a text of the
    length [DATE_RE] captures: three characters for [%b], a space, two
    digits for [%d], a comma and a space, four digits for [%Y].  The
    month is looked up ignoring case; the day must be 01..31 and exist
    in that month; the year must be at least [datetime.MINYEAR].
    Anything else is a [ValueError]. *)
Definition strptime (date_str : string) : result date :=
  let b := String.substring 0 3 date_str in
  let d := String.substring 4 2 date_str in
  let Y := String.substring 8 4 date_str in
  if Nat.eqb (String.length date_str) 12
     && String.eqb (String.substring 3 1 date_str) " "
     && String.eqb (String.substring 6 2 date_str) ", "
     && Nat.eqb (String.length d) 2 && all_chars is_digit d
     && Nat.eqb (String.length Y) 4 && all_chars is_digit Y
  then
    match index_of (lower b) month_abbr with
    | None => Raise ValueError
    | Some i =>
        let month := i + 1 in
        let day := int_of_digits d in
        let year := int_of_digits Y in
        if (1 <=? year) && (1 <=? day) && (day <=? days_in_month year month)
        then Ok (mkdate year month day)
        else Raise ValueError
    end
  else Raise ValueError.

(** ** Amounts ([float])

    Every amount the parser produces is [float] of a decimal text with
    exactly two fractional digits.  Such a float is represented by its
    number of hundredths: [c] stands for the double nearest to [c/100],
    which is what [float] returns for the text, since it rounds to
    nearest.  Up to fifteen significant digits ([c < 10^15]) distinct
    such decimals are distinct doubles and [repr] prints them back; only
    there do the number [c], the equality of two amounts and
    [float_repr] below follow Python, and the properties that state an
    amount or its text carry that bound. *)
Definition amount : Type := N.

(** [float(s)] on a text made of digits, one point and two digits
    (the digits before the point may be missing). *)
Definition py_float (s : string) : result amount :=
  match split_sep "." s with
  | [ip; fp] =>
      if all_chars is_digit ip && all_chars is_digit fp
         && Nat.eqb (String.length fp) 2
      then Ok (100 * int_of_digits ip + int_of_digits fp)
      else Raise ValueError
  | _ => Raise ValueError
  end.

(** ** One statement line *)

Record parsed_row : Type := mkrow {
  row_Date : date;
  row_Name : string;
  row_DebitCredit : string;
  row_Amount : amount
}.

(** [l[i]] *)
Definition py_index {A} (l : list A) (i : nat) : result A :=
  match l !! i with
  | Some x => Ok x
  | None => Raise IndexError
  end.

Notation "'let?' x ':=' r 'in' k" := (rbind r (fun x => k))
  (at level 10, x name, r at level 100, k at level 200).

(** Lines 91-93: the date text and its parse.  [group] on a failed
    search is an [AttributeError]. *)
Definition extract_date (line : string) : result date :=
  let? date_str :=
    match re_search DATE_RE line with
    | Some date_match => Ok (fst date_match)
    | None => Raise AttributeError
    end in
  strptime date_str.

(** Lines 96-101. *)
Definition extract_name (line : string) : result string :=
  if contains "Paid to" line then
    let? after := py_index (split_sep "Paid to" line) 1 in
    let? before := py_index (split_sep "Debit" after) 0 in
    Ok (strip before)
  else if contains "Received from" line then
    let? after := py_index (split_sep "Received from" line) 1 in
    let? before := py_index (split_sep "Credit" after) 0 in
    Ok (strip before)
  else Ok "Unknown".

(** Line 104. *)
Definition extract_type (line : string) : string :=
  if contains "Debit" line then "Debit" else "Credit".

(** Lines 107-108. *)
Definition extract_amount (line : string) : result amount :=
  match re_search AMOUNT_RE line with
  | Some amount_match => py_float (remove_char "," (amount_group1 amount_match))
  | None => Ok 0
  end.

(** The body of the [try] block of [parse_phonepe_pdf], lines 90-115. *)
Definition parse_line (line : string) : result parsed_row :=
  let? date := extract_date line in
  let? name := extract_name line in
  let txn_type := extract_type line in
  let? amount := extract_amount line in
  Ok (mkrow date name txn_type amount).

Definition NL : string := String (ascii_of_N 10) EmptyString.

(** The lines the first loop of [parse_phonepe_pdf] collects.  A page
    is the text [extract_text] returned for it, [None] if it returned
    nothing. *)
Definition transaction_lines (pages : list (option string)) : list string :=
  flat_map (fun page =>
    match page with
    | None | Some EmptyString => []
    | Some text => filter (fun line => is_transaction_line line = true) (split_sep NL text)
    end) pages.

(** The second loop: a line whose [try] block raises is skipped. *)
Fixpoint parse_rows (lines : list string) : list parsed_row :=
  match lines with
  | [] => []
  | line :: rest =>
      match parse_line line with
      | Ok r => r :: parse_rows rest
      | Raise _ => parse_rows rest
      end
  end.

(* ================================================================== *)
(** * Data frames                                                      *)
(* ================================================================== *)

Inductive cell : Type :=
  | CDate (d : date)
  | CStr (s : string)
  | CFloat (x : amount).

(** A [pandas.DataFrame]: its columns in order, each a label and the
    values of the rows.  Labels are unique and all columns have the
    same length. *)
Definition DataFrame : Type := list (string * list cell).

(** [df[label]] *)
Fixpoint get_column (label : string) (df : DataFrame) : result (list cell) :=
  match df with
  | [] => Raise KeyError
  | (l, col) :: df' => if String.eqb l label then Ok col else get_column label df'
  end.

(** [df[label] = values]: an existing column is replaced where it
    stands, a new one is put last. *)
Fixpoint set_column (label : string) (values : list cell) (df : DataFrame) : DataFrame :=
  match df with
  | [] => [(label, values)]
  | (l, col) :: df' =>
      if String.eqb l label then (l, values) :: df'
      else (l, col) :: set_column label values df'
  end.

(** [len(df)] *)
Definition nrows (df : DataFrame) : nat :=
  match df with
  | [] => 0%nat
  | (_, col) :: _ => length col
  end.

(** Boolean indexing, [df[mask]]. *)
Fixpoint select {A} (mask : list bool) (l : list A) : list A :=
  match mask, l with
  | b :: mask', x :: l' => if b then x :: select mask' l' else select mask' l'
  | _, _ => []
  end.

Definition filter_rows (mask : list bool) (df : DataFrame) : DataFrame :=
  map (fun '(l, col) => (l, select mask col)) df.

(** [isinstance(c, str)] *)
Definition is_str (c : cell) : bool :=
  match c with
  | CStr _ => true
  | _ => false
  end.

(** [c == s] for a cell and a string. *)
Definition cell_is_str (s : string) (c : cell) : bool :=
  match c with
  | CStr t => String.eqb t s
  | _ => false
  end.

(** [df.iloc[i][label]] *)
Definition iloc (df : DataFrame) (i : nat) (label : string) : result cell :=
  if Nat.ltb i (nrows df)
  then rbind (get_column label df) (fun col => py_index col i)
  else Raise IndexError.

(** [pd.DataFrame(parsed_rows)] for the dictionaries built at lines
    110-115: the columns are the keys in the order the literal writes
    them; no rows, no columns. *)
Definition DataFrame_of_rows (parsed_rows : list parsed_row) : DataFrame :=
  match parsed_rows with
  | [] => []
  | _ =>
      [ ("Date", map (fun r => CDate (row_Date r)) parsed_rows);
        ("Name", map (fun r => CStr (row_Name r)) parsed_rows);
        ("Debit/Credit", map (fun r => CStr (row_DebitCredit r)) parsed_rows);
        ("Amount", map (fun r => CFloat (row_Amount r)) parsed_rows) ]
  end.

Definition parse_phonepe_pdf (pages : list (option string)) : DataFrame :=
  DataFrame_of_rows (parse_rows (transaction_lines pages)).

(** ** [DataFrame.to_csv(index=False)]

    The table is written as a header row and one row per record, each a
    list of field texts in column order.  (The csv writer then joins the
    fields with commas, quoting the ones that need it.) *)

Definition decimal (n : N) : string := NilEmpty.string_of_uint (N.to_uint n).

Fixpoint zeros (n : nat) : string :=
  match n with
  | O => EmptyString
  | S k => String "0" (zeros k)
  end.

(** ["%0wd" % n] *)
Definition zero_pad (w : nat) (n : N) : string :=
  let s := decimal n in
  zeros (w - String.length s) +:+ s.

(** [str(d)] for a [datetime.date]: [d.isoformat()]. *)
Definition isoformat (d : date) : string :=
  zero_pad 4 (year d) +:+ "-" +:+ zero_pad 2 (month d) +:+ "-" +:+ zero_pad 2 (day d).

(** [repr(x)] for the float of [c] hundredths, for [c < 10^15]: the
    shortest decimal that reads back as [x], which keeps one fractional
    digit at least and no trailing zero beyond it.  (From 10^16 on
    [repr] writes an exponent, and from 2^53 on the rounded double.) *)
Definition float_repr (c : amount) : string :=
  let q := c / 100 in
  let r := c mod 100 in
  decimal q +:+ "." +:+ (if r mod 10 =? 0 then decimal (r / 10) else zero_pad 2 r).

Definition cell_text (c : cell) : string :=
  match c with
  | CDate d => isoformat d
  | CStr s => s
  | CFloat x => float_repr x
  end.

Definition head_text (col : list string) : string :=
  match col with
  | [] => EmptyString
  | x :: _ => x
  end.

Fixpoint rows_of (n : nat) (cols : list (list string)) : list (list string) :=
  match n with
  | O => []
  | S k => map head_text cols :: rows_of k (map (@tail string) cols)
  end.

Definition to_csv (df : DataFrame) : list (list string) :=
  map fst df :: rows_of (nrows df) (map (fun '(_, col) => map cell_text col) df).

(* ================================================================== *)
(** * Category defaults                                                *)
(* ================================================================== *)

(** A [dict] from category to keyword list, in insertion order. *)
Definition kdict : Type := list (string * list string).

Definition default_keywords : kdict :=
  [ ("Food", ["zomato"; "swiggy"; "restaurant"; "pizza"]);
    ("Groceries", ["d-mart"; "big bazaar"; "grocery"]);
    ("Recharge/Bill", ["recharge"; "electricity"; "mobile"; "water"]);
    ("Shopping", ["amazon"; "flipkart"; "myntra"]);
    ("Entertainment", ["netflix"; "hotstar"; "spotify"]);
    ("Transport", ["uber"; "ola"; "fuel"; "metro"]);
    ("Education", ["institute"; "college"; "fees"]);
    ("Health", ["pharmacy"; "hospital"; "clinic"]);
    ("Other", []) ].

(** [k in d] *)
Fixpoint kd_mem (k : string) (d : kdict) : bool :=
  match d with
  | [] => false
  | (k', _) :: d' => String.eqb k' k || kd_mem k d'
  end.

(** [d[k]] *)
Fixpoint kd_get (k : string) (d : kdict) : result (list string) :=
  match d with
  | [] => Raise KeyError
  | (k', v) :: d' => if String.eqb k' k then Ok v else kd_get k d'
  end.

(** [d[k] = v]: a present key keeps its place, a new key goes last. *)
Fixpoint kd_set (k : string) (v : list string) (d : kdict) : kdict :=
  match d with
  | [] => [(k, v)]
  | (k', v') :: d' =>
      if String.eqb k' k then (k', v) :: d' else (k', v') :: kd_set k v d'
  end.

(** [x in l] for a list of strings. *)
Definition str_in (x : string) (l : list string) : bool :=
  existsb (String.eqb x) l.

(* ================================================================== *)
(** * The store and its monad                                          *)
(* ================================================================== *)

Record Store : Type := mkStore {
  frames : gmap nat DataFrame;             (* DataFrame objects by address *)
  next_addr : nat;                         (* first address not yet used *)
  keyword_dict : kdict;                    (* st.session_state.keyword_dict *)
  name_to_category : gmap string string;   (* st.session_state.name_to_category *)
  db : gmap string string                  (* table name_category_map *)
}.

(** A computation reads and writes the store and either returns or
    raises; what it wrote before raising stays written. *)
Definition M (A : Type) : Type := Store -> result A * Store.

Definition ret {A} (a : A) : M A := fun st => (Ok a, st).

Definition raise {A} (e : exn) : M A := fun st => (Raise e, st).

Definition bind {A B} (m : M A) (k : A -> M B) : M B := fun st =>
  match m st with
  | (Ok a, st') => k a st'
  | (Raise e, st') => (Raise e, st')
  end.

Definition lift {A} (r : result A) : M A := fun st => (r, st).

Notation "'let!' x ':=' m 'in' k" := (bind m (fun x => k))
  (at level 10, x name, m at level 100, k at level 200).
Notation "m ';;' k" := (bind m (fun _ => k))
  (at level 100, k at level 200, right associativity).

Definition get_keyword_dict : M kdict := fun st => (Ok (keyword_dict st), st).

Definition put_keyword_dict (d : kdict) : M unit := fun st =>
  (Ok tt, mkStore (frames st) (next_addr st) d (name_to_category st) (db st)).

Definition get_name_to_category : M (gmap string string) := fun st =>
  (Ok (name_to_category st), st).

Definition put_name_to_category (m : gmap string string) : M unit := fun st =>
  (Ok tt, mkStore (frames st) (next_addr st) (keyword_dict st) m (db st)).

Definition put_db (m : gmap string string) : M unit := fun st =>
  (Ok tt, mkStore (frames st) (next_addr st) (keyword_dict st) (name_to_category st) m).

(** A new DataFrame object holding [df]; the result is its address. *)
Definition new_frame (df : DataFrame) : M nat := fun st =>
  (Ok (next_addr st),
   mkStore (<[next_addr st := df]> (frames st)) (S (next_addr st))
           (keyword_dict st) (name_to_category st) (db st)).

Definition read_frame (a : nat) : M DataFrame := fun st =>
  match frames st !! a with
  | Some df => (Ok df, st)
  | None => (Raise KeyError, st)
  end.

Definition write_frame (a : nat) (df : DataFrame) : M unit := fun st =>
  (Ok tt, mkStore (<[a := df]> (frames st)) (next_addr st)
                  (keyword_dict st) (name_to_category st) (db st)).

Fixpoint for_each {A} (l : list A) (body : A -> M unit) : M unit :=
  match l with
  | [] => ret tt
  | x :: l' => body x ;; for_each l' body
  end.

(* ================================================================== *)
(** * Categorization                                                   *)
(* ================================================================== *)

(** [any(keyword.lower() in name_lower for keyword in keywords)] *)
Definition any_keyword_in (keywords : list string) (name_lower : string) : bool :=
  existsb (fun keyword => contains (lower keyword) name_lower) keywords.

(** The inner [for] of lines 150-154: the first category of
    [keyword_dict.items()] with a keyword in the name, if any. *)
Fixpoint first_matching_category (items : kdict) (name_lower : string) : option string :=
  match items with
  | [] => None
  | (category, keywords) :: rest =>
      if any_keyword_in keywords name_lower then Some category
      else first_matching_category rest name_lower
  end.

(** One turn of the outer loop, lines 144-156: the category appended
    for [name].  A name that is not a [str] has no [lower]. *)
Definition categorize_name (keyword_dict : kdict) (name_map : gmap string string)
    (name : cell) : result string :=
  match name with
  | CStr name =>
      let name_lower := strip (lower name) in
      match name_map !! name_lower with
      | Some category => Ok category
      | None =>
          match first_matching_category keyword_dict name_lower with
          | Some category => Ok category
          | None => Ok "Other"
          end
      end
  | _ => Raise AttributeError
  end.

(** [categorize_transactions(df, keyword_dict, name_map)].  [df] is the
    address of the frame: the [Category] column is assigned on that
    very object, and the address is what the function returns. *)
Definition categorize_transactions (df : nat) (keyword_dict : kdict)
    (name_map : gmap string string) : M nat :=
  let! frame := read_frame df in
  let! names := lift (get_column "Name" frame) in
  let! categories := lift (rmap_list (categorize_name keyword_dict name_map) names) in
  write_frame df (set_column "Category" (map CStr categories) frame) ;;
  ret df.

(* ================================================================== *)
(** * Learning from user edits, and the rest of [main]                 *)
(* ================================================================== *)

(** Lines 256-257: add new category to keyword dict if missing. *)
Definition add_category (new_cat : string) : M unit :=
  let! d := get_keyword_dict in
  if kd_mem new_cat d then ret tt else put_keyword_dict (kd_set new_cat [] d).

(** Lines 260-266, once [name.lower()] has been taken. *)
Definition learn_name (new_cat name : string) : M unit :=
  (* Learn from full name *)
  (let! m := get_name_to_category in
   put_name_to_category (<[lower name := new_cat]> m)) ;;
  (* Add name tokens to keyword dict *)
  for_each (split_ws (lower name)) (fun word =>
    let! d := get_keyword_dict in
    let! kws := lift (kd_get new_cat d) in
    if str_in word kws then ret tt
    else put_keyword_dict (kd_set new_cat (kws ++ [word]) d)).

(** Lines 255-266: what one changed row teaches, for a name that is a
    string. *)
Definition learn (new_cat name : string) : M unit :=
  add_category new_cat ;;
  learn_name new_cat name.

Definition cell_eqb (a b : cell) : bool :=
  match a, b with
  | CStr s, CStr t => String.eqb s t
  | CFloat x, CFloat y => N.eqb x y
  | CDate d, CDate e =>
      N.eqb (year d) (year e) && N.eqb (month d) (month e) && N.eqb (day d) (day e)
  | _, _ => false
  end.

(** [c.strip()], [c.lower()] on a cell. *)
Definition as_str (c : cell) : result string :=
  match c with
  | CStr s => Ok s
  | _ => Raise AttributeError
  end.

(** One turn of the loop of lines 247-266; the result tells whether the
    row counted as changed.  The category is added to the keyword dict
    (line 257) before [name.lower()] is taken (line 260), so a name that
    is no string raises with the category already there. *)
Definition learn_row (df edited_df : DataFrame) (i : nat) : M bool :=
  let! old_cat := lift (iloc df i "Category") in
  let! new_cat := lift (iloc edited_df i "Category") in
  let! name := lift (iloc edited_df i "Name") in
  if cell_eqb new_cat old_cat then ret false
  else
    let! new_cat := lift (as_str new_cat) in
    match strip new_cat with
    | EmptyString => ret false
    | _ =>
        add_category new_cat ;;
        let! name := lift (as_str name) in
        learn_name new_cat name ;;
        ret true
    end.

Fixpoint learn_rows (df edited_df : DataFrame) (rows : list nat) (changed : bool) : M bool :=
  match rows with
  | [] => ret changed
  | i :: rows' =>
      let! c := learn_row df edited_df i in
      learn_rows df edited_df rows' (changed || c)
  end.

(** [save_name_category_map]: every entry is upserted, the other rows
    of the table stay. *)
Definition save_name_category_map (name_category_dict : gmap string string) : M unit :=
  fun st => put_db (name_category_dict ∪ db st) st.

(** [df.empty] *)
Definition df_empty (df : DataFrame) : bool :=
  match df with
  | [] => true
  | _ => Nat.eqb (nrows df) 0
  end.

(** What a run shows for a loaded table: the addresses of [debits_df]
    (which [df] shares) and of the final [edited_df], the table that is
    summarised and downloaded, and the download. *)
Record Shown : Type := mkShown {
  debits_df : nat;
  edited_df : nat;
  summarised : DataFrame;
  download : list (list string)
}.

Section Main.

(** [st.data_editor]: what the user hands back for the table shown. *)
Variable data_editor : DataFrame -> DataFrame.

(** Lines 234-272 and 304-309 of [main], for a loaded [df]: the
    categorization, the editor, the learning loop with its save, and
    the download.  The expense summary and the charts in between, which
    write nothing, are [expense_summary] below. *)
Definition main_loaded (df : DataFrame) : M (option Shown) :=
  if df_empty df then ret None
  else
    let! direction := lift (get_column "Debit/Credit" df) in
    let! debits_df := new_frame (filter_rows (map (cell_is_str "Debit") direction) df) in
    (* Initial categorization *)
    let! d := get_keyword_dict in
    let! m := get_name_to_category in
    let! df := categorize_transactions debits_df d m in
    let! shown := read_frame df in
    let! edited_df := new_frame shown in
    let! edited_df := new_frame (data_editor shown) in
    (* Learn from user edits *)
    let! edited := read_frame edited_df in
    let! changed := learn_rows shown edited (seq 0 (nrows edited)) false in
    (* If any changes, save mapping and re-categorize all rows *)
    let! edited_df :=
      (if changed then
         let! m := get_name_to_category in
         save_name_category_map m ;;
         let! d := get_keyword_dict in
         let! df := categorize_transactions debits_df d m in
         let! again := read_frame df in
         new_frame again
       else ret edited_df) in
    let! final := read_frame edited_df in
    ret (Some (mkShown debits_df edited_df final (to_csv final))).

End Main.

Section Summary.

Variable data_editor : DataFrame -> DataFrame.

(** Lines 276-301 past the two column lookups: what pandas and plotly
    make of the categories and the amounts of the table (the sums per
    category, their order, the summary table and the two charts), as far
    as the run goes: they return or they raise. *)
Variable summary_and_charts : list cell -> list cell -> result unit.

(** Lines 276-301.  [groupby("Category")] and then [["Amount"]] raise
    [KeyError] on a table without the column. *)
Definition expense_summary (edited_df : DataFrame) : result unit :=
  let? categories := get_column "Category" edited_df in
  let? amounts := get_column "Amount" edited_df in
  summary_and_charts categories amounts.

(** Lines 234-309 of [main] for a loaded [df], the summary included:
    the download is offered once the summary and the charts are there. *)
Definition main_summarised (df : DataFrame) : M (option Shown) :=
  let! shown := main_loaded data_editor df in
  match shown with
  | None => ret None
  | Some out =>
      lift (expense_summary (summarised out)) ;;
      ret (Some out)
  end.

End Summary.

(** [load_name_category_map] *)
Definition load_name_category_map : M (gmap string string) := fun st => (Ok (db st), st).

(** The store when a session starts on a database holding [table]
    (lines 205-209): the name map is loaded from it and the keyword dict
    is a copy of the defaults. *)
Definition session_start (table : gmap string string) : Store :=
  mkStore ∅ 0 default_keywords table table.

(** A first session, on an empty database. *)
Definition empty_store : Store := session_start ∅.

(** ** The rest of the upload and of the database

    The extension [main] reads off the name of the upload, and the loop
    of [save_name_category_map] one row at a time. *)

(** [uploaded_file.name.split(".")[-1].lower()] (line 211).  [split]
    never returns an empty list, so the index cannot fail. *)
Definition file_ext (name : string) : string :=
  lower (List.last (split_sep "." name) "").

(** Lines 47-52: one upsert per item of the dict. *)
Definition upsert_rows (rows : list (string * string)) (table : gmap string string)
  : gmap string string :=
  fold_left (fun t row => <[row.1 := row.2]> t) rows table.

(* ================================================================== *)
(** * The vocabulary of the properties                                 *)
(* ================================================================== *)

(** ** Names and keywords *)

(** A character [lower] leaves as it is. *)
Definition is_lower_char (c : ascii) : bool := Ascii.eqb (lower_char c) c.

(** [keyword] occurs in [s] when case is ignored: some piece of [s]
    lowercases to what [keyword] lowercases to. *)
Definition case_insensitive_substring (keyword s : string) : Prop :=
  exists pre sub post, s = pre +:+ sub +:+ post /\ lower sub = lower keyword.

(** Some keyword of the category occurs in [s], ignoring case. *)
Definition category_matches (keywords : list string) (s : string) : Prop :=
  exists keyword, keyword ∈ keywords /\ case_insensitive_substring keyword s.

(** ** States the operations lead to *)

(** The store once [categorize_transactions] has written [categories]
    on the frame at [df]. *)
Definition with_category (df : nat) (categories : list string) (frame : DataFrame)
    (st : Store) : Store :=
  mkStore (<[df := set_column "Category" (map CStr categories) frame]> (frames st))
          (next_addr st) (keyword_dict st) (name_to_category st) (db st).

(** The keyword dict after line 257. *)
Definition ensure_category (new_cat : string) (d : kdict) : kdict :=
  if kd_mem new_cat d then d else kd_set new_cat [] d.

(** The keyword dict after one turn of the loop of lines 264-266. *)
Definition add_word (new_cat : string) (d : kdict) (word : string) : kdict :=
  match kd_get new_cat d with
  | Ok kws => if str_in word kws then d else kd_set new_cat (kws ++ [word]) d
  | Raise _ => d
  end.

(** [kws] after one turn of lines 264-266. *)
Definition add_token (kws : list string) (word : string) : list string :=
  if str_in word kws then kws else kws ++ [word].

(** The store once [learn] has run. *)
Definition learned (new_cat name : string) (st : Store) : Store :=
  mkStore (frames st) (next_addr st)
    (fold_left (add_word new_cat) (split_ws (lower name))
               (ensure_category new_cat (keyword_dict st)))
    (<[lower name := new_cat]> (name_to_category st))
    (db st).

(** Every category of [d] is in [d'] with its keywords and maybe more
    after them. *)
Definition kd_grows (d d' : kdict) : Prop :=
  forall category kws, kd_get category d = Ok kws ->
    exists added, kd_get category d' = Ok (kws ++ added).

(** A computation that leaves the DataFrame objects alone. *)
Definition keeps_frames {A} (m : M A) : Prop :=
  forall st, frames (m st).2 = frames st /\ next_addr (m st).2 = next_addr st.

(** ** Patterns and lines *)

(** What a pattern denotes: [den n r s rest] says that [r] can match a
    prefix of [s] and leave [rest], in a subject of length [n]. *)
Fixpoint den (n : nat) (r : regex) (s rest : string) : Prop :=
  match r with
  | Bol => rest = s /\ String.length s = n
  | Eps => rest = s
  | Cls p => exists c, s = String c rest /\ p c = true
  | Cat r1 r2 => exists mid, den n r1 s mid /\ den n r2 mid rest
  | Alt r1 r2 => den n r1 s rest \/ den n r2 s rest
  | Star p => exists pre, s = pre +:+ rest /\ all_chars p pre = true
  end.

(** [n] characters of the class [p]. *)
Definition word_of (n : nat) (p : ascii -> bool) (w : string) : Prop :=
  String.length w = n /\ all_chars p w = true.

(** The lines [TXN_LINE] accepts, spelled out. *)
Definition accepted_line (line : string) : Prop :=
  exists mon dd yyyy mid tok d rest,
    line = mon +:+ " " +:+ dd +:+ ", " +:+ yyyy +:+ " " +:+ mid +:+ " "
           +:+ tok +:+ " INR " +:+ String d rest /\
    word_of 3 is_letter mon /\ word_of 2 is_digit dd /\ word_of 4 is_digit yyyy /\
    all_chars not_newline mid = true /\
    (tok = "Debit" \/ tok = "Credit") /\
    is_digit d = true.

(** The lines the specification describes, read generously: a month
    abbreviation (in any case), a space, two digits, a comma and a
    space, four digits; later "Debit" or "Credit"; later "INR"; later a
    digit. *)
Definition described_line (line : string) : Prop :=
  exists mon dd yyyy t1 tok t2 t3 d rest,
    line = mon +:+ " " +:+ dd +:+ ", " +:+ yyyy +:+ t1 +:+ tok +:+ t2
           +:+ "INR" +:+ t3 +:+ String d rest /\
    In (lower mon) month_abbr /\ word_of 2 is_digit dd /\ word_of 4 is_digit yyyy /\
    (tok = "Debit" \/ tok = "Credit") /\
    is_digit d = true.

(** ** The editor and the tables of [main] *)

(** The correction contract of the presentation layer: the table comes
    back with nothing but its categories rewritten. *)
Definition only_edits_categories (data_editor : DataFrame -> DataFrame) : Prop :=
  forall shown, exists categories,
    data_editor shown = set_column "Category" (map CStr categories) shown.

(** The Debit rows of a loaded table. *)
Definition debit_rows (direction : list cell) (df : DataFrame) : DataFrame :=
  filter_rows (map (cell_is_str "Debit") direction) df.

(** ** Texts of the download *)

(** [YYYY-MM-DD] *)
Definition iso_date_text (t : string) : Prop :=
  exists y m d, t = y +:+ "-" +:+ m +:+ "-" +:+ d /\
    word_of 4 is_digit y /\ word_of 2 is_digit m /\ word_of 2 is_digit d.

(** Digits, a point, and exactly two digits. *)
Definition two_fraction_digits (t : string) : Prop :=
  exists ip fp, t = ip +:+ "." +:+ fp /\
    all_chars is_digit ip = true /\ word_of 2 is_digit fp.

(** Digits, a point, and one or two digits, the second never a zero. *)
Definition repr_amount_text (t : string) : Prop :=
  exists ip fp, t = ip +:+ "." +:+ fp /\
    ip <> "" /\ all_chars is_digit ip = true /\
    (word_of 1 is_digit fp \/
     exists a b, fp = String a (String b "") /\ is_digit a = true /\
                 is_digit b = true /\ b <> "0"%char).

(** The columns of the download. *)
Definition csv_header : list string :=
  ["Date"; "Name"; "Debit/Credit"; "Amount"; "Category"].

(** The download the specification describes. *)
Definition described_download (csv : list (list string)) : Prop :=
  exists rows, csv = csv_header :: rows /\
    Forall (fun row => exists date name direction amount category,
              row = [date; name; direction; amount; category] /\
              iso_date_text date /\ two_fraction_digits amount) rows.

(** The download [to_csv] writes. *)
Definition written_download (csv : list (list string)) : Prop :=
  exists rows, csv = csv_header :: rows /\
    Forall (fun row => exists date name direction amount category,
              row = [date; name; direction; amount; category] /\
              iso_date_text date /\ direction = "Debit" /\
              repr_amount_text amount) rows.

(** What [datetime.date] accepts as far as the text of a date goes. *)
Definition valid_date (d : date) : Prop :=
  1 <= year d < 10000 /\ 1 <= month d <= 12 /\ 1 <= day d <= 31.

(** [zero_pad w n] is [w] digits. *)
Definition pad_ok (w : nat) (n : N) : bool :=
  Nat.eqb (String.length (zero_pad w n)) w && all_chars is_digit (zero_pad w n).

(** The fractional digits [float_repr] writes for [r] hundredths. *)
Definition fraction_text (r : N) : string :=
  if r mod 10 =? 0 then decimal (r / 10) else zero_pad 2 r.

(** One digit, or two of which the last is not a zero. *)
Definition fraction_ok (t : string) : bool :=
  match t with
  | String a EmptyString => is_digit a
  | String a (String b EmptyString) => is_digit a && is_digit b && negb (Ascii.eqb b "0")
  | _ => false
  end.

(** ** Sample inputs *)

(** A statement of one page and one payment. *)
Definition example_statement : list (option string) :=
  [Some "Jul 04, 2023 Paid to Zomato Online Debit INR 450.00"].

(** The table parsed from it, and a store that holds it at address 0. *)
Definition example_frame : DataFrame := parse_phonepe_pdf example_statement.

Definition example_store : Store :=
  mkStore (<[0%nat := example_frame]> ∅) 1 default_keywords ∅ ∅.

(** A name map that knows the payee. *)
Definition example_name_map : gmap string string :=
  <["zomato online" := "Dining"]> ∅.

(** The user changes nothing. *)
Definition example_editor (shown : DataFrame) : DataFrame := shown.

(** The user retypes the category of the only row as Rent. *)
Definition rent_editor (shown : DataFrame) : DataFrame :=
  set_column "Category" (map CStr ["Rent"]) shown.

(** A table as [pd.read_csv] loads it: the name keeps the blank that
    follows the comma in the file. *)
Definition untrimmed_frame : DataFrame :=
  [ ("Date", [CDate (mkdate 2024 1 5)]);
    ("Name", [CStr " Zomato Guy"]);
    ("Debit/Credit", [CStr "Debit"]);
    ("Amount", [CFloat 120000]) ].

(** Another table with the same names, elsewhere in the store. *)
Definition other_frame : DataFrame :=
  [ ("Name", [CStr "Zomato Online"]);
    ("Debit/Credit", [CStr "Credit"]);
    ("Amount", [CFloat 999]) ].

Definition other_store : Store :=
  mkStore (<[7%nat := other_frame]> ∅) 8 default_keywords ∅ ∅.

(** ** More vocabulary: the shape of the state, and more editors *)

(** A keyword dict as Python keeps it: no category twice, and no
    keyword twice in a category. *)
Definition dict_ok (d : kdict) : Prop :=
  NoDup (map fst d) /\ Forall (fun item => NoDup item.2) d.

(** What categorization can answer: a value of the name map, a category
    of the keyword dict, or the fallback. *)
Definition known_category (ruleset : kdict) (name_map : gmap string string)
    (category : string) : Prop :=
  (exists name, name_map !! name = Some category) \/
  category ∈ map fst ruleset \/
  category = "Other".

(** The session state of two stores is the same. *)
Definition same_session (st st' : Store) : Prop :=
  keyword_dict st' = keyword_dict st /\
  name_to_category st' = name_to_category st /\
  db st' = db st.

(** A computation that leaves the session state alone. *)
Definition keeps_session {A} (m : M A) : Prop :=
  forall st, same_session st (m st).2.

(** Every name the session knows is in the database with its category. *)
Definition synced (st : Store) : Prop := name_to_category st = db st.

(** The editor hands the table back with a category, a string, for
    every row and nothing else rewritten. *)
Definition edits_every_category (data_editor : DataFrame -> DataFrame) : Prop :=
  forall shown, exists categories,
    data_editor shown = set_column "Category" (map CStr categories) shown /\
    length categories = nrows shown.

(** The Debit rows of a parsed statement. *)
Definition is_debit (r : parsed_row) : bool := String.eqb (row_DebitCredit r) "Debit".

(** The table of a parsed statement once it has categories. *)
Definition categorized_table (rows : list parsed_row) (categories : list string)
  : DataFrame :=
  [ ("Date", map (fun r => CDate (row_Date r)) rows);
    ("Name", map (fun r => CStr (row_Name r)) rows);
    ("Debit/Credit", map (fun r => CStr (row_DebitCredit r)) rows);
    ("Amount", map (fun r => CFloat (row_Amount r)) rows);
    ("Category", map CStr categories) ].

(** The user retypes every category as Rent. *)
Definition rent_all_editor (shown : DataFrame) : DataFrame :=
  set_column "Category" (map CStr (repeat "Rent" (nrows shown))) shown.

(** The user types a number in every category cell. *)
Definition number_editor (shown : DataFrame) : DataFrame :=
  set_column "Category" (map (fun _ => CFloat 0) (seq 0 (nrows shown))) shown.

(** ** The Debit rows, the records of the download, and the summary *)

(** The cells of [column] in the rows whose direction is "Debit". *)
Definition debit_cells (direction column : list cell) : list cell :=
  map snd (List.filter (fun row => cell_is_str "Debit" row.1) (combine direction column)).

(** A loaded table cut down to its Debit rows, column by column. *)
Definition debits_only (direction : list cell) (df : DataFrame) : DataFrame :=
  map (fun '(label, column) => (label, debit_cells direction column)) df.

(** The record of the download for a parsed row and its category. *)
Definition csv_record (r : parsed_row) (category : string) : list string :=
  [isoformat (row_Date r); row_Name r; row_DebitCredit r;
   float_repr (row_Amount r); category].

(** [isinstance(c, float)] *)
Definition is_float (c : cell) : bool :=
  match c with
  | CFloat _ => true
  | _ => false
  end.

(** The summary and the charts return on a table whose categories are
    strings and whose amounts are floats. *)
Definition summarises_amounts
    (summary_and_charts : list cell -> list cell -> result unit) : Prop :=
  forall categories amounts,
    length categories = length amounts ->
    Forall (fun c => is_str c = true) categories ->
    Forall (fun c => is_float c = true) amounts ->
    summary_and_charts categories amounts = Ok tt.

(** A summary that returns on float amounts and raises on others. *)
Definition plain_summary (categories amounts : list cell) : result unit :=
  if forallb is_float amounts then Ok tt else Raise TypeError.

(** A statement of two pages: a payment and a receipt. *)
Definition mixed_statement : list (option string) :=
  [Some "Jul 04, 2023 Paid to Zomato Online Debit INR 450.00";
   Some "Jul 05, 2023 Received from John Doe Credit INR 1,200.50"].

(** The user retypes every direction as Credit and leaves the
    categories alone. *)
Definition credit_editor (shown : DataFrame) : DataFrame :=
  set_column "Debit/Credit" (map (fun _ => CStr "Credit") (seq 0 (nrows shown))) shown.

(** A table as [pd.read_csv] loads it from a file without amounts. *)
Definition no_amount_frame : DataFrame :=
  [ ("Name", [CStr "Shop"]);
    ("Debit/Credit", [CStr "Debit"]) ].

(* ================================================================== *)
(** * Properties *)
(* ================================================================== *)

(** ** Strings *)

Lemma app_cons c (s t : string) : String c s +:+ t = String c (s +:+ t).
Proof. reflexivity. Qed.

Lemma app_empty_l (s : string) : "" +:+ s = s.
Proof. reflexivity. Qed.

Lemma app_empty_r (s : string) : s +:+ "" = s.
Proof. induction s as [|c s IH]; [reflexivity|]. rewrite app_cons, IH. reflexivity. Qed.

Lemma app_assoc_s (a b c : string) : (a +:+ b) +:+ c = a +:+ (b +:+ c).
Proof. induction a as [|x a IH]; [reflexivity|]. rewrite !app_cons, IH. reflexivity. Qed.

(** Appends brought to the right-nested form, literals unfolded. *)
Ltac norm_app :=
  repeat first [rewrite app_assoc_s | rewrite app_cons | rewrite app_empty_l].

Lemma app_eq_empty (a b : string) : a +:+ b = "" -> a = "" /\ b = "".
Proof. destruct a; [auto | rewrite app_cons; discriminate]. Qed.

Lemma length_app_s (a b : string) :
  String.length (a +:+ b) = (String.length a + String.length b)%nat.
Proof. induction a as [|x a IH]; [reflexivity|]. rewrite app_cons. simpl. rewrite IH. reflexivity. Qed.

Lemma substring_prefix (a b : string) :
  String.substring 0 (String.length (a +:+ b) - String.length b) (a +:+ b) = a.
Proof.
  rewrite length_app_s. replace (_ + _ - _)%nat with (String.length a) by lia.
  induction a as [|c a IH]; simpl.
  - destruct b; reflexivity.
  - f_equal. exact IH.
Qed.

Lemma starts_with_spec (p s : string) :
  starts_with p s = true <-> exists post, s = p +:+ post.
Proof.
  revert s. induction p as [|a p IH]; intros s; simpl.
  - split; [intros _; exists s; reflexivity | reflexivity].
  - destruct s as [|b s].
    + split; [discriminate | intros [post H]; rewrite app_cons in H; discriminate].
    + rewrite andb_true_iff, Ascii.eqb_eq, IH. split.
      * intros [-> [post ->]]. exists post. reflexivity.
      * intros [post H]. rewrite app_cons in H. injection H as -> ->. eauto.
Qed.

Lemma contains_spec (p s : string) :
  contains p s = true <-> exists pre post, s = pre +:+ p +:+ post.
Proof.
  induction s as [|c s IH].
  - simpl. rewrite orb_false_r, starts_with_spec. split.
    + intros [post H]. exists "", post. exact H.
    + intros [pre [post H]]. destruct pre; [exists post; exact H|].
      rewrite app_cons in H. discriminate.
  - cbn [contains]. rewrite orb_true_iff, starts_with_spec, IH. split.
    + intros [[post H] | [pre [post H]]].
      * exists "", post. exact H.
      * exists (String c pre), post. rewrite app_cons, H. reflexivity.
    + intros [pre [post H]]. destruct pre as [|c' pre].
      * left. exists post. exact H.
      * right. rewrite app_cons in H. injection H as -> ->. eauto.
Qed.

Lemma all_chars_app p (a b : string) :
  all_chars p (a +:+ b) = all_chars p a && all_chars p b.
Proof.
  induction a as [|c a IH]; [reflexivity|].
  rewrite app_cons. simpl. rewrite IH, andb_assoc. reflexivity.
Qed.

Lemma rev_app_rev_app (a b c : string) :
  String.rev_app (String.rev_app a b) c = String.rev_app b (a +:+ c).
Proof.
  revert b c. induction a as [|x a IH]; intros b c; [reflexivity|].
  simpl. rewrite IH. reflexivity.
Qed.

Lemma rev_rev_app (a : string) : String.rev (String.rev_app a "") = a.
Proof. unfold String.rev. rewrite rev_app_rev_app. simpl. apply app_empty_r. Qed.

Lemma remove_char_app x (a b : string) :
  remove_char x (a +:+ b) = remove_char x a +:+ remove_char x b.
Proof.
  induction a as [|c a IH]; [reflexivity|]. rewrite app_cons. simpl.
  destruct (Ascii.eqb c x); [exact IH | rewrite app_cons, IH; reflexivity].
Qed.

(** ** Lower case and normalized names *)

Lemma lower_char_idem c : lower_char (lower_char c) = lower_char c.
Proof. destruct c as [[] [] [] [] [] [] [] []]; reflexivity. Qed.

Lemma lower_app (a b : string) : lower (a +:+ b) = lower a +:+ lower b.
Proof. induction a as [|c a IH]; [reflexivity|]. rewrite app_cons. simpl. rewrite IH. reflexivity. Qed.

Lemma lower_length (s : string) : String.length (lower s) = String.length s.
Proof. induction s as [|c s IH]; simpl; congruence. Qed.

Lemma lower_is_lower (s : string) : all_chars is_lower_char (lower s) = true.
Proof.
  induction s as [|c s IH]; [reflexivity|]. simpl. rewrite IH, andb_true_r.
  unfold is_lower_char. rewrite lower_char_idem. apply Ascii.eqb_refl.
Qed.

Lemma is_lower_fixed (s : string) : all_chars is_lower_char s = true -> lower s = s.
Proof.
  induction s as [|c s IH]; [reflexivity|]. simpl. rewrite andb_true_iff.
  intros [Hc Hs]. apply Ascii.eqb_eq in Hc. rewrite Hc, IH by assumption. reflexivity.
Qed.

Lemma lower_idem (s : string) : lower (lower s) = lower s.
Proof. apply is_lower_fixed, lower_is_lower. Qed.

Lemma all_chars_lstrip p (s : string) : all_chars p s = true -> all_chars p (lstrip s) = true.
Proof.
  induction s as [|c s IH]; [reflexivity|]. simpl. rewrite andb_true_iff.
  intros [Hc Hs]. destruct (is_space c); [auto|]. simpl. rewrite Hc, Hs. reflexivity.
Qed.

Lemma all_chars_rstrip p (s : string) : all_chars p s = true -> all_chars p (rstrip s) = true.
Proof.
  induction s as [|c s IH]; [reflexivity|]. simpl. rewrite andb_true_iff.
  intros [Hc Hs]. specialize (IH Hs). destruct (rstrip s) as [|d r].
  - destruct (is_space c); [reflexivity|]. simpl. rewrite Hc. reflexivity.
  - change (all_chars p (String c (String d r))) with (p c && all_chars p (String d r)).
    rewrite Hc, IH. reflexivity.
Qed.

Lemma normalized_is_lower (name : string) :
  all_chars is_lower_char (strip (lower name)) = true.
Proof. apply all_chars_rstrip, all_chars_lstrip, lower_is_lower. Qed.

Lemma keyword_in_normalized (keyword name : string) :
  contains (lower keyword) (strip (lower name)) = true <->
  case_insensitive_substring keyword (strip (lower name)).
Proof.
  rewrite contains_spec. split.
  - intros (pre & post & H). exists pre, (lower keyword), post.
    split; [exact H | apply lower_idem].
  - intros (pre & sub & post & H & Hsub). exists pre, post.
    pose proof (normalized_is_lower name) as Hl. rewrite H in Hl.
    rewrite !all_chars_app, !andb_true_iff in Hl. destruct Hl as (_ & Hl & _).
    rewrite <- Hsub, (is_lower_fixed _ Hl). exact H.
Qed.

Lemma any_keyword_in_spec (keywords : list string) (name : string) :
  any_keyword_in keywords (strip (lower name)) = true <->
  category_matches keywords (strip (lower name)).
Proof.
  unfold any_keyword_in, category_matches. rewrite existsb_exists. split.
  - intros (kw & Hin & H). exists kw. split; [apply list_elem_of_In, Hin|].
    apply keyword_in_normalized, H.
  - intros (kw & Hin & H). exists kw. split; [apply list_elem_of_In, Hin|].
    apply keyword_in_normalized, H.
Qed.

(** ** The matcher *)

Lemma star_run_spec p (s rest : string) :
  In rest (star_run p s) <-> exists pre, s = pre +:+ rest /\ all_chars p pre = true.
Proof.
  induction s as [|c s IH].
  - simpl. split.
    + intros [<-|[]]. exists "". auto.
    + intros (pre & H & _). symmetry in H. apply app_eq_empty in H as [_ ->]. auto.
  - cbn [star_run]. destruct (p c) eqn:Hc.
    + rewrite in_app_iff, IH. simpl. split.
      * intros [(pre & -> & Hp) | [<-|[]]].
        -- exists (String c pre). simpl. rewrite Hc, Hp. auto.
        -- exists "". auto.
      * intros (pre & H & Hp). destruct pre as [|c' pre].
        -- right. left. exact H.
        -- rewrite app_cons in H. injection H as <- ->. simpl in Hp.
           apply andb_true_iff in Hp as [_ Hp]. left. eauto.
    + simpl. split.
      * intros [<-|[]]. exists "". auto.
      * intros (pre & H & Hp). destruct pre as [|c' pre]; [left; exact H|].
        rewrite app_cons in H. injection H as <- ->. simpl in Hp. rewrite Hc in Hp.
        discriminate.
Qed.

Lemma run_spec n r (s rest : string) : In rest (run n r s) <-> den n r s rest.
Proof.
  revert s rest. induction r as [| |p|r1 IH1 r2 IH2|r1 IH1 r2 IH2|p]; intros s rest; simpl.
  - destruct (Nat.eqb_spec (String.length s) n); simpl.
    + split; [intros [<-|[]]; auto | intros [-> _]; auto].
    + split; [intros [] | intros [_ H]; contradiction].
  - split; [intros [<-|[]]; auto | intros ->; auto].
  - destruct s as [|c s].
    + split; [intros [] | intros (c & H & _); discriminate].
    + destruct (p c) eqn:Hc; simpl.
      * split; [intros [<-|[]]; eauto | intros (c' & H & _); injection H as <- <-; auto].
      * split; [intros [] | intros (c' & H & Hp)]. injection H as <- <-. congruence.
  - rewrite in_flat_map. split.
    + intros (mid & H1 & H2). exists mid. split; [apply IH1, H1 | apply IH2, H2].
    + intros (mid & H1 & H2). exists mid. split; [apply IH1, H1 | apply IH2, H2].
  - rewrite in_app_iff, IH1, IH2. reflexivity.
  - apply star_run_spec.
Qed.

Lemma den_Lit n t (s rest : string) : den n (Lit t) s rest <-> s = t +:+ rest.
Proof.
  revert s. induction t as [|c t IH]; intros s; simpl.
  - split; intros H; symmetry; exact H.
  - split.
    + intros (mid & (c' & -> & Hc) & H). apply Ascii.eqb_eq in Hc as <-.
      apply IH in H as ->. reflexivity.
    + intros ->. exists (t +:+ rest). split; [|apply IH; reflexivity].
      exists c. split; [reflexivity | apply Ascii.eqb_refl].
Qed.

Lemma den_Rep n k p (s rest : string) :
  den n (Rep k p) s rest <-> exists w, s = w +:+ rest /\ word_of k p w.
Proof.
  revert s. induction k as [|k IH]; intros s; simpl.
  - split.
    + intros ->. exists "". repeat split.
    + intros (w & -> & Hl & _). destruct w; [reflexivity | discriminate].
  - split.
    + intros (mid & (c & -> & Hc) & H). apply IH in H as (w & -> & Hl & Hp).
      exists (String c w). split; [reflexivity|]. split; simpl; [congruence|].
      rewrite Hc, Hp. reflexivity.
    + intros (w & -> & Hl & Hp). destruct w as [|c w]; [discriminate|].
      simpl in Hl, Hp. apply andb_true_iff in Hp as [Hc Hp]. injection Hl as Hl.
      exists (w +:+ rest). split; [exists c; auto|]. apply IH. exists w. repeat split; auto.
Qed.

Lemma match_at_some n r (s : string) :
  (exists m, match_at n r s = Some m) <-> exists rest, den n r s rest.
Proof.
  unfold match_at. split.
  - intros [m H]. destruct (run n r s) as [|rest l] eqn:E; [discriminate|].
    exists rest. apply run_spec. rewrite E. left. reflexivity.
  - intros [rest H]. apply run_spec in H. destruct (run n r s); [destruct H | eauto].
Qed.

Lemma match_at_den n r (s : string) m :
  match_at n r s = Some m ->
  exists rest, den n r s rest /\
    m = (String.substring 0 (String.length s - String.length rest) s, rest).
Proof.
  unfold match_at. destruct (run n r s) as [|rest l] eqn:E; [discriminate|].
  intros [= <-]. exists rest. split; [|reflexivity].
  apply run_spec. rewrite E. left. reflexivity.
Qed.

Lemma search_from_some n r (s : string) m :
  search_from n r s = Some m -> exists s', match_at n r s' = Some m.
Proof.
  induction s as [|c s IH]; simpl.
  - destruct (match_at n r "") eqn:E; [intros [= <-]; eauto | discriminate].
  - destruct (match_at n r (String c s)) eqn:E; [intros [= <-]; eauto | exact IH].
Qed.

(* ================================================================== *)
(** * Line Classifier *)
(* ================================================================== *)

Lemma is_transaction_line_den (line : string) :
  is_transaction_line line = true <->
  exists rest, den (String.length line) TXN_LINE line rest.
Proof.
  unfold is_transaction_line, re_match. rewrite <- match_at_some.
  destruct (match_at _ _ _); split; eauto; try discriminate.
  intros [m H]. discriminate.
Qed.

(** C6, as amended.  [is_transaction_line] is true exactly for the lines
    that begin with three ASCII letters, a space, two digits, a comma
    and a space, four digits and a space, followed by any text without
    a line feed, a space, "Debit" or "Credit", " INR " and a digit.  The
    three letters need not name a month. *)
Theorem is_transaction_line_accepts (line : string) :
  is_transaction_line line = true <-> accepted_line line.
Proof.
  rewrite is_transaction_line_den. unfold TXN_LINE, accepted_line. split.
  - intros (rest & s1 & [-> _] & H). cbn [den] in H.
    destruct H as (s2 & Hmon & s3 & Hsp1 & s4 & Hdd & s5 & Hsp2 & s6 & Hyy & s7 & Hsp3
                   & s8 & (mid & Hmid & Hnl) & s9 & Hsp4 & s10 & Htok & s11 & Hinr
                   & d & Hd & Hdig).
    apply den_Rep in Hmon as (mon & -> & Hmon). apply den_Lit in Hsp1 as ->.
    apply den_Rep in Hdd as (dd & -> & Hdd). apply den_Lit in Hsp2 as ->.
    apply den_Rep in Hyy as (yyyy & -> & Hyy). apply den_Lit in Hsp3 as ->.
    apply den_Lit in Hsp4 as ->. apply den_Lit in Hinr as ->.
    exists mon, dd, yyyy, mid.
    destruct Htok as [Htok|Htok]; apply den_Lit in Htok as ->.
    + exists "Debit", d, rest. subst s7 s11.
      split; [reflexivity|]. do 4 (split; [assumption|]). split; [left; reflexivity | assumption].
    + exists "Credit", d, rest. subst s7 s11.
      split; [reflexivity|]. do 4 (split; [assumption|]). split; [right; reflexivity | assumption].
  - intros (mon & dd & yyyy & mid & tok & d & rest & -> & Hmon & Hdd & Hyy & Hnl & Htok & Hd).
    exists rest. eexists. split; [split; reflexivity|]. cbn [den].
    eexists. split; [apply den_Rep; exists mon; split; [reflexivity | exact Hmon]|].
    eexists. split; [apply den_Lit; reflexivity|].
    eexists. split; [apply den_Rep; exists dd; split; [reflexivity | exact Hdd]|].
    eexists. split; [apply den_Lit; reflexivity|].
    eexists. split; [apply den_Rep; exists yyyy; split; [reflexivity | exact Hyy]|].
    eexists. split; [apply den_Lit; reflexivity|].
    eexists. split; [exists mid; split; [reflexivity | exact Hnl]|].
    eexists. split; [apply den_Lit; reflexivity|].
    eexists. split.
    { destruct Htok as [->| ->]; [left | right]; apply den_Lit; reflexivity. }
    eexists. split; [apply den_Lit; reflexivity|].
    exists d. split; [reflexivity | exact Hd].
Qed.

Lemma month_abbr_length (s : string) : In s month_abbr -> String.length s = 3%nat.
Proof. simpl. intros H. repeat (destruct H as [<-|H]; [reflexivity|]). destruct H. Qed.

(** C6 fails as stated: a line that begins with three letters that are
    no month abbreviation is accepted. *)
Lemma three_letters_need_not_be_a_month :
  is_transaction_line "Xyz 04, 2023 Paid to Shop Debit INR 450.00" = true /\
  ~ described_line "Xyz 04, 2023 Paid to Shop Debit INR 450.00".
Proof.
  split; [vm_compute; reflexivity|].
  intros (mon & dd & yyyy & t1 & tok & t2 & t3 & d & rest & Heq & Hmon & _).
  pose proof (month_abbr_length _ Hmon) as Hlen. rewrite lower_length in Hlen.
  destruct mon as [|a [|b [|c [|? ?]]]]; try discriminate.
  rewrite !app_cons in Heq. injection Heq as <- <- <- _.
  vm_compute in Hmon. intuition discriminate.
Qed.

(* ================================================================== *)
(** * Field Extractor *)
(* ================================================================== *)

(** ** The name *)

Lemma split_sep_go_first sep skip cur (s : string) :
  exists x l, split_sep_go sep skip cur s = x :: l.
Proof.
  revert skip cur. induction s as [|c s IH]; intros skip cur; simpl; [eauto|].
  destruct skip; [|apply IH]. destruct (starts_with sep (String c s)); [eauto | apply IH].
Qed.

Lemma split_sep_go_second sep cur (s : string) :
  sep <> "" -> contains sep s = true ->
  exists x y l, split_sep_go sep 0 cur s = x :: y :: l.
Proof.
  intros Hsep. revert cur. induction s as [|c s IH]; intros cur H.
  - simpl in H. destruct sep; [contradiction | discriminate].
  - cbn [contains] in H. cbn [split_sep_go].
    destruct (starts_with sep (String c s)).
    + destruct (split_sep_go_first sep (String.length sep - 1) "" s) as (y & l & ->). eauto.
    + simpl in H. apply IH, H.
Qed.

Lemma extract_name_ok (line : string) : exists name, extract_name line = Ok name.
Proof.
  unfold extract_name, split_sep, py_index.
  destruct (contains "Paid to" line) eqn:E1.
  - destruct (split_sep_go_second "Paid to" "" line) as (x & y & l & ->); [discriminate | exact E1|].
    simpl. destruct (split_sep_go_first "Debit" 0 "" y) as (z & l' & ->). simpl. eauto.
  - destruct (contains "Received from" line) eqn:E2; [|eauto].
    destruct (split_sep_go_second "Received from" "" line) as (x & y & l & ->);
      [discriminate | exact E2|].
    simpl. destruct (split_sep_go_first "Credit" 0 "" y) as (z & l' & ->). simpl. eauto.
Qed.

(** ** The amount *)

Lemma is_digit_not_point c : is_digit c = true -> Ascii.eqb "." c = false.
Proof. destruct c as [[] [] [] [] [] [] [] []]; vm_compute; congruence. Qed.

Lemma is_digit_not_comma c : is_digit c = true -> Ascii.eqb c "," = false.
Proof. destruct c as [[] [] [] [] [] [] [] []]; vm_compute; congruence. Qed.

Lemma split_point_go_digits cur (a t : string) :
  all_chars is_digit a = true ->
  split_sep_go "." 0 cur (a +:+ t) = split_sep_go "." 0 (String.rev_app a cur) t.
Proof.
  revert cur. induction a as [|c a IH]; intros cur H; [reflexivity|].
  simpl in H. apply andb_true_iff in H as [Hc Ha].
  rewrite app_cons. cbn [split_sep_go starts_with].
  rewrite (is_digit_not_point _ Hc). simpl. apply IH, Ha.
Qed.

Lemma split_point_go_point cur (b : string) :
  split_sep_go "." 0 cur ("." +:+ b) = String.rev cur :: split_sep_go "." 0 "" b.
Proof. reflexivity. Qed.

Lemma split_point (a b : string) :
  all_chars is_digit a = true -> all_chars is_digit b = true ->
  split_sep "." (a +:+ "." +:+ b) = [a; b].
Proof.
  intros Ha Hb. unfold split_sep.
  rewrite split_point_go_digits, split_point_go_point by exact Ha.
  rewrite <- (app_empty_r b) at 1. rewrite split_point_go_digits by exact Hb.
  cbn [split_sep_go]. rewrite !rev_rev_app. reflexivity.
Qed.

Lemma remove_comma_digits (s : string) :
  all_chars is_digit s = true -> remove_char "," s = s.
Proof.
  induction s as [|c s IH]; [reflexivity|]. simpl. intros H.
  apply andb_true_iff in H as [Hc Hs]. rewrite (is_digit_not_comma _ Hc), IH by exact Hs.
  reflexivity.
Qed.

Lemma remove_comma_group (s : string) :
  all_chars is_digit_or_comma s = true -> all_chars is_digit (remove_char "," s) = true.
Proof.
  induction s as [|c s IH]; [reflexivity|]. simpl. intros H.
  apply andb_true_iff in H as [Hc Hs]. destruct (Ascii.eqb c ",") eqn:E; [apply IH, Hs|].
  simpl. rewrite IH by exact Hs. rewrite andb_true_r.
  unfold is_digit_or_comma in Hc. apply orb_true_iff in Hc as [Hc|Hc]; [exact Hc|].
  apply Ascii.eqb_neq in E. exfalso. apply E.
  apply N.eqb_eq in Hc. unfold code in Hc.
  rewrite <- (ascii_N_embedding c), Hc. reflexivity.
Qed.

(** What [AMOUNT_RE] captures: digits and commas, a point, two digits. *)
Lemma amount_group_shape (line : string) m :
  re_search AMOUNT_RE line = Some m ->
  exists group cents,
    amount_group1 m = group +:+ "." +:+ cents /\
    group <> "" /\ all_chars is_digit_or_comma group = true /\
    word_of 2 is_digit cents.
Proof.
  unfold re_search. intros H. apply search_from_some in H as [s H].
  apply match_at_den in H as (rest & H & ->). unfold AMOUNT_RE, Plus in H. cbn [den] in H.
  destruct H as (s1 & Hinr & s2 & (s3 & (c & Hc & Hpc) & (run & Hrun & Hprun))
                 & s4 & Hpt & Hdd).
  apply den_Lit in Hinr, Hpt. apply den_Rep in Hdd as (dd & Hdd & Hw).
  subst. exists (String c run), dd.
  split; [|split; [discriminate | split; [simpl; rewrite Hpc, Hprun; reflexivity | exact Hw]]].
  unfold amount_group1. cbn [fst].
  replace ("INR " +:+ String c (run +:+ "." +:+ dd +:+ rest))
    with (("INR " +:+ String c run +:+ "." +:+ dd) +:+ rest).
  - rewrite substring_prefix. reflexivity.
  - norm_app. reflexivity.
Qed.

Lemma py_float_group (group cents : string) :
  all_chars is_digit_or_comma group = true -> word_of 2 is_digit cents ->
  exists x, py_float (remove_char "," (group +:+ "." +:+ cents)) = Ok x.
Proof.
  intros Hg [Hl Hd]. rewrite !remove_char_app, (remove_comma_digits cents Hd).
  change (remove_char "," ".") with ".".
  unfold py_float. rewrite split_point by (auto using remove_comma_group).
  rewrite remove_comma_group by exact Hg. rewrite Hd, Hl. simpl. eauto.
Qed.

Lemma extract_amount_ok (line : string) : exists x, extract_amount line = Ok x.
Proof.
  unfold extract_amount. destruct (re_search AMOUNT_RE line) as [m|] eqn:E; [|eauto].
  destruct (amount_group_shape line m E) as (g & c & -> & _ & Hg & Hc).
  apply py_float_group; assumption.
Qed.

(** ** The date *)

Lemma digit_value c : is_digit c = true -> code c - 48 <= 9.
Proof.
  unfold is_digit, in_range. intros [H1 H2]%andb_true_iff.
  apply N.leb_le in H1, H2. lia.
Qed.

Lemma int_of_digits_4 (s : string) :
  String.length s = 4%nat -> all_chars is_digit s = true -> int_of_digits s < 10000.
Proof.
  destruct s as [|a [|b [|c [|d [|? ?]]]]]; try discriminate. intros _. simpl.
  rewrite !andb_true_iff. intros (Ha & Hb & Hc & Hd & _).
  apply digit_value in Ha, Hb, Hc, Hd. unfold int_of_digits. simpl. lia.
Qed.

Lemma index_of_bound x (l : list string) i :
  index_of x l = Some i -> i < N.of_nat (length l).
Proof.
  revert i. induction l as [|y l IH]; intros i; simpl; [discriminate|].
  destruct (String.eqb x y); [intros [= <-]; lia|].
  destruct (index_of x l) as [j|]; [|discriminate].
  intros [= <-]. specialize (IH j eq_refl). lia.
Qed.

Lemma days_in_month_le y m : days_in_month y m <= 31.
Proof.
  unfold days_in_month.
  repeat match goal with
         | |- context [match ?x with _ => _ end] => destruct x
         end; lia.
Qed.

Lemma strptime_valid (date_str : string) d : strptime date_str = Ok d -> valid_date d.
Proof.
  unfold strptime.
  destruct (_ && _) eqn:Hshape; [|discriminate].
  repeat (apply andb_true_iff in Hshape as [Hshape ?]).
  destruct (index_of _ month_abbr) as [i|] eqn:Hi; [|discriminate].
  destruct (_ && _) eqn:Hrange; [|discriminate].
  intros [= <-]. apply andb_true_iff in Hrange as [[Hy Hd1]%andb_true_iff Hd2].
  apply N.leb_le in Hy, Hd1, Hd2. apply index_of_bound in Hi. simpl in Hi.
  unfold valid_date. simpl.
  pose proof (days_in_month_le (int_of_digits (substring 8 4 date_str)) (i + 1)).
  pose proof (int_of_digits_4 (substring 8 4 date_str)) as Hlt.
  rewrite Nat.eqb_eq in *. specialize (Hlt ltac:(assumption) ltac:(assumption)).
  lia.
Qed.

Lemma parse_rows_elem (lines : list string) r :
  r ∈ parse_rows lines -> exists line, parse_line line = Ok r.
Proof.
  induction lines as [|line lines IH]; simpl; [intros H; inversion H|].
  destruct (parse_line line) as [r'|e] eqn:E; [|exact IH].
  intros [->|H]%elem_of_cons; [eauto | apply IH, H].
Qed.

Lemma parse_line_date (line : string) r : parse_line line = Ok r -> valid_date (row_Date r).
Proof.
  unfold parse_line, extract_date.
  destruct (re_search DATE_RE line) as [m|]; simpl; [|discriminate].
  destruct (strptime (fst m)) as [d|] eqn:Hd; simpl; [|discriminate].
  destruct (extract_name line); simpl; [|discriminate].
  destruct (extract_amount line); simpl; [|discriminate].
  intros [= <-]. simpl. eapply strptime_valid, Hd.
Qed.

(** ** A line with no amount *)

(** C7.  The amount rule never drops a line.  A line accepted by
    [is_transaction_line] that has passed the date rule of the same
    [try] block is kept: [parse_line] returns a row for it.  When the
    amount pattern has no match in the line the amount of the row is
    0.00; when it has one, the amount is [float] of the first match's
    group with its commas removed, and [float] cannot fail on it. *)
Theorem missing_amount_defaults_to_zero (line : string) (d : date) :
  is_transaction_line line = true ->
  extract_date line = Ok d ->
  exists row,
    parse_line line = Ok row /\
    parse_rows [line] = [row] /\
    match re_search AMOUNT_RE line with
    | None => row_Amount row = 0
    | Some amount_match =>
        py_float (remove_char "," (amount_group1 amount_match)) = Ok (row_Amount row)
    end.
Proof.
  intros _ Hd.
  destruct (extract_name_ok line) as [name Hn].
  destruct (extract_amount_ok line) as [x Hx].
  exists (mkrow d name (extract_type line) x).
  assert (Hp : parse_line line = Ok (mkrow d name (extract_type line) x)).
  { unfold parse_line. rewrite Hd, Hn, Hx. reflexivity. }
  split; [exact Hp|]. split; [simpl; rewrite Hp; reflexivity|].
  unfold extract_amount in Hx. simpl.
  destruct (re_search AMOUNT_RE line); [exact Hx | congruence].
Qed.

Lemma missing_amount_witness :
  exists row,
    parse_line "Jul 04, 2023 Paid to Shop Debit INR 450" = Ok row /\
    parse_rows ["Jul 04, 2023 Paid to Shop Debit INR 450"] = [row] /\
    row_Amount row = 0.
Proof.
  destruct (missing_amount_defaults_to_zero "Jul 04, 2023 Paid to Shop Debit INR 450"
              (mkdate 2023 7 4)) as (row & H1 & H2 & H3);
    [vm_compute; reflexivity | vm_compute; reflexivity |].
  exists row. auto.
Defined.

(* ================================================================== *)
(** * Keyword Ruleset and learning *)
(* ================================================================== *)

(** ** The keyword dict *)

Lemma kd_mem_get k (d : kdict) : kd_mem k d = true <-> exists v, kd_get k d = Ok v.
Proof.
  induction d as [|[k' v'] d IH]; simpl.
  - split; [discriminate | intros [v H]; discriminate].
  - destruct (String.eqb k' k); simpl; [split; eauto | exact IH].
Qed.

Lemma kd_get_set_eq k v (d : kdict) : kd_get k (kd_set k v d) = Ok v.
Proof.
  induction d as [|[k' v'] d IH]; simpl.
  - rewrite String.eqb_refl. reflexivity.
  - destruct (String.eqb k' k) eqn:E; simpl; rewrite E; [reflexivity | exact IH].
Qed.

Lemma kd_get_set_ne k k' v (d : kdict) :
  k <> k' -> kd_get k' (kd_set k v d) = kd_get k' d.
Proof.
  intros Hne. induction d as [|[k0 v0] d IH]; simpl.
  - destruct (String.eqb_spec k k'); [contradiction | reflexivity].
  - destruct (String.eqb_spec k0 k) as [->|H0]; simpl.
    + destruct (String.eqb_spec k k'); [contradiction | reflexivity].
    + destruct (String.eqb k0 k'); [reflexivity | exact IH].
Qed.

Lemma kd_keys_set k v (d : kdict) :
  map fst (kd_set k v d) = if kd_mem k d then map fst d else map fst d ++ [k].
Proof.
  induction d as [|[k' v'] d IH]; simpl; [reflexivity|].
  destruct (String.eqb k' k); simpl; [reflexivity|].
  rewrite IH. destruct (kd_mem k d); reflexivity.
Qed.

Lemma str_in_spec x (l : list string) : str_in x l = true <-> x ∈ l.
Proof.
  unfold str_in. rewrite existsb_exists, list_elem_of_In. split.
  - intros (y & Hy & ->%String.eqb_eq). exact Hy.
  - intros H. exists x. split; [exact H | apply String.eqb_refl].
Qed.

Lemma kd_grows_refl d : kd_grows d d.
Proof. intros c kws H. exists []. rewrite app_nil_r. exact H. Qed.

Lemma kd_grows_trans d1 d2 d3 : kd_grows d1 d2 -> kd_grows d2 d3 -> kd_grows d1 d3.
Proof.
  intros H12 H23 c kws H. destruct (H12 c kws H) as [a1 H1].
  destruct (H23 c _ H1) as [a2 H2]. exists (a1 ++ a2). rewrite app_assoc. exact H2.
Qed.

Lemma kd_mem_grows k d d' : kd_grows d d' -> kd_mem k d = true -> kd_mem k d' = true.
Proof.
  intros Hg Hm. apply kd_mem_get in Hm as [v Hv]. destruct (Hg _ _ Hv) as [a Ha].
  apply kd_mem_get. eauto.
Qed.

Lemma ensure_category_grows new_cat d : kd_grows d (ensure_category new_cat d).
Proof.
  unfold ensure_category. destruct (kd_mem new_cat d) eqn:E; [apply kd_grows_refl|].
  intros c kws H. exists []. rewrite app_nil_r.
  destruct (String.eqb_spec new_cat c) as [->|Hne].
  - assert (kd_mem c d = true) by (apply kd_mem_get; eauto). congruence.
  - rewrite kd_get_set_ne by exact Hne. exact H.
Qed.

Lemma ensure_category_mem new_cat d : kd_mem new_cat (ensure_category new_cat d) = true.
Proof.
  unfold ensure_category. destruct (kd_mem new_cat d) eqn:E; [exact E|].
  apply kd_mem_get. exists []. apply kd_get_set_eq.
Qed.

Lemma add_word_grows new_cat d word : kd_grows d (add_word new_cat d word).
Proof.
  unfold add_word. destruct (kd_get new_cat d) as [kws0|e] eqn:E; [|apply kd_grows_refl].
  destruct (str_in word kws0); [apply kd_grows_refl|].
  intros c kws H. destruct (String.eqb_spec new_cat c) as [->|Hne].
  - rewrite kd_get_set_eq. exists [word]. congruence.
  - exists []. rewrite app_nil_r, kd_get_set_ne by exact Hne. exact H.
Qed.

Lemma add_words_grow new_cat words d :
  kd_grows d (fold_left (add_word new_cat) words d).
Proof.
  revert d. induction words as [|w words IH]; intros d; simpl; [apply kd_grows_refl|].
  eapply kd_grows_trans; [apply add_word_grows | apply IH].
Qed.

Lemma add_word_keys new_cat d word : map fst (add_word new_cat d word) = map fst d.
Proof.
  unfold add_word. destruct (kd_get new_cat d) as [kws|e] eqn:E; [|reflexivity].
  destruct (str_in word kws); [reflexivity|].
  rewrite kd_keys_set. replace (kd_mem new_cat d) with true; [reflexivity|].
  symmetry. apply kd_mem_get. eauto.
Qed.

Lemma add_words_keys new_cat words d :
  map fst (fold_left (add_word new_cat) words d) = map fst d.
Proof.
  revert d. induction words as [|w words IH]; intros d; simpl; [reflexivity|].
  rewrite IH. apply add_word_keys.
Qed.

Lemma add_words_tokens new_cat words (d : kdict) kws :
  kd_get new_cat d = Ok kws ->
  kd_get new_cat (fold_left (add_word new_cat) words d)
  = Ok (fold_left add_token words kws).
Proof.
  revert d kws. induction words as [|w words IH]; intros d kws H; [exact H|].
  simpl. apply IH. unfold add_word, add_token. rewrite H.
  destruct (str_in w kws); [exact H | apply kd_get_set_eq].
Qed.

Lemma add_tokens_keep words kws x : x ∈ kws -> x ∈ fold_left add_token words kws.
Proof.
  revert kws. induction words as [|w words IH]; intros kws H; [exact H|].
  simpl. apply IH. unfold add_token. destruct (str_in w kws); [exact H|].
  apply elem_of_app. left. exact H.
Qed.

Lemma add_tokens_all words kws x : x ∈ words -> x ∈ fold_left add_token words kws.
Proof.
  revert kws. induction words as [|w words IH]; intros kws H; [inversion H|].
  simpl. apply elem_of_cons in H as [->|H]; [|apply IH, H].
  apply add_tokens_keep. unfold add_token. destruct (str_in w kws) eqn:E.
  - apply str_in_spec, E.
  - apply elem_of_app. right. left.
Qed.

Lemma add_words_known new_cat words (d : kdict) kws :
  kd_get new_cat d = Ok kws -> (forall w, w ∈ words -> w ∈ kws) ->
  fold_left (add_word new_cat) words d = d.
Proof.
  intros Hk. induction words as [|w words IH]; intros Hall; [reflexivity|].
  simpl. unfold add_word at 2. rewrite Hk.
  replace (str_in w kws) with true.
  - apply IH. intros x Hx. apply Hall. right. exact Hx.
  - symmetry. apply str_in_spec, Hall. left.
Qed.

(** ** Running [learn] *)

Lemma for_each_words new_cat words st :
  kd_mem new_cat (keyword_dict st) = true ->
  for_each words (fun word =>
    let! d := get_keyword_dict in
    let! kws := lift (kd_get new_cat d) in
    if str_in word kws then ret tt
    else put_keyword_dict (kd_set new_cat (kws ++ [word]) d)) st
  = (Ok tt, mkStore (frames st) (next_addr st)
              (fold_left (add_word new_cat) words (keyword_dict st))
              (name_to_category st) (db st)).
Proof.
  revert st. induction words as [|w words IH]; intros st Hm.
  - destruct st; reflexivity.
  - cbn [for_each fold_left]. unfold bind at 1.
    unfold bind at 1, get_keyword_dict, lift. unfold bind at 1.
    pose proof Hm as Hm'. apply kd_mem_get in Hm' as [kws Hk]. rewrite Hk.
    assert (Hadd : add_word new_cat (keyword_dict st) w
                   = if str_in w kws then keyword_dict st
                     else kd_set new_cat (kws ++ [w]) (keyword_dict st)).
    { unfold add_word. rewrite Hk. reflexivity. }
    destruct (str_in w kws) eqn:Ein.
    + unfold ret. rewrite IH by exact Hm. rewrite Hadd. reflexivity.
    + unfold put_keyword_dict. rewrite IH.
      * simpl. rewrite Hadd. reflexivity.
      * simpl. apply kd_mem_get. eexists. apply kd_get_set_eq.
Qed.

Lemma add_category_run new_cat st :
  add_category new_cat st
  = (Ok tt, mkStore (frames st) (next_addr st)
              (ensure_category new_cat (keyword_dict st))
              (name_to_category st) (db st)).
Proof.
  unfold add_category, bind, get_keyword_dict, ensure_category.
  destruct (kd_mem new_cat (keyword_dict st)); [destruct st|]; reflexivity.
Qed.

Lemma learn_name_run new_cat name st :
  kd_mem new_cat (keyword_dict st) = true ->
  learn_name new_cat name st
  = (Ok tt, mkStore (frames st) (next_addr st)
              (fold_left (add_word new_cat) (split_ws (lower name)) (keyword_dict st))
              (<[lower name := new_cat]> (name_to_category st)) (db st)).
Proof.
  intros Hm. unfold learn_name. unfold bind at 1.
  unfold bind at 1, get_name_to_category, put_name_to_category.
  rewrite for_each_words by exact Hm. reflexivity.
Qed.

Lemma learn_run new_cat name st :
  learn new_cat name st = (Ok tt, learned new_cat name st).
Proof.
  unfold learn. unfold bind at 1. rewrite add_category_run.
  rewrite learn_name_run by apply ensure_category_mem. reflexivity.
Qed.

(** What a row that passed the guard of line 252 does: for a name that
    is a string it runs [learn]; for any other name it raises at
    [name.lower()], with the category already added. *)
Lemma learn_row_changed new_cat (name : cell) st :
  (add_category new_cat ;;
   let! name := lift (as_str name) in
   learn_name new_cat name ;;
   ret true) st
  = match name with
    | CStr name => (Ok true, learned new_cat name st)
    | _ => (Raise AttributeError, (add_category new_cat st).2)
    end.
Proof.
  unfold bind at 1. rewrite add_category_run. cbn [snd].
  destruct name as [d|name|x]; try reflexivity.
  unfold bind at 1, lift. cbn [as_str].
  unfold bind at 1. rewrite learn_name_run by apply ensure_category_mem. reflexivity.
Qed.

(** One turn of the loop, case by case. *)
Lemma learn_row_run df edited i st :
  learn_row df edited i st
  = match iloc df i "Category", iloc edited i "Category", iloc edited i "Name" with
    | Ok old_cat, Ok new_cat, Ok name =>
        if cell_eqb new_cat old_cat then (Ok false, st)
        else match new_cat with
             | CStr new_cat =>
                 match strip new_cat with
                 | EmptyString => (Ok false, st)
                 | _ =>
                     match name with
                     | CStr name => (Ok true, learned new_cat name st)
                     | _ => (Raise AttributeError, (add_category new_cat st).2)
                     end
                 end
             | _ => (Raise AttributeError, st)
             end
    | Ok _, Ok _, Raise e => (Raise e, st)
    | Ok _, Raise e, _ => (Raise e, st)
    | Raise e, _, _ => (Raise e, st)
    end.
Proof.
  unfold learn_row. unfold bind at 1, lift.
  destruct (iloc df i "Category") as [old_cat|]; [|reflexivity].
  unfold bind at 1. destruct (iloc edited i "Category") as [new_cat|]; [|reflexivity].
  unfold bind at 1. destruct (iloc edited i "Name") as [name|]; [|reflexivity].
  destruct (cell_eqb new_cat old_cat); [reflexivity|].
  unfold bind at 1. destruct new_cat as [d|new_cat|x]; try reflexivity.
  cbn [as_str]. destruct (strip new_cat) eqn:E; [reflexivity|].
  apply learn_row_changed.
Qed.

Lemma learn_grows new_cat name st :
  kd_grows (keyword_dict st) (keyword_dict (learn new_cat name st).2).
Proof.
  rewrite learn_run. simpl.
  eapply kd_grows_trans; [apply ensure_category_grows | apply add_words_grow].
Qed.

(** Learning never reorders the categories: a new one goes last. *)
Lemma learn_keeps_category_order new_cat name st :
  exists extra,
    map fst (keyword_dict (learn new_cat name st).2)
    = map fst (keyword_dict st) ++ extra.
Proof.
  rewrite learn_run. simpl. rewrite add_words_keys. unfold ensure_category.
  destruct (kd_mem new_cat (keyword_dict st)) eqn:E.
  - exists []. rewrite app_nil_r. reflexivity.
  - exists [new_cat]. rewrite kd_keys_set, E. reflexivity.
Qed.

(** The three effects of one correction, with the key the code uses. *)
Lemma learn_effects new_cat name st :
  let st' := (learn new_cat name st).2 in
  let before := match kd_get new_cat (keyword_dict st) with
                | Ok kws => kws
                | Raise _ => []
                end in
  kd_get new_cat (keyword_dict st')
  = Ok (fold_left add_token (split_ws (lower name)) before) /\
  name_to_category st' !! lower name = Some new_cat /\
  (forall other, other <> lower name ->
     name_to_category st' !! other = name_to_category st !! other).
Proof.
  rewrite learn_run. cbn [snd learned keyword_dict name_to_category].
  split; [|split].
  - apply add_words_tokens. unfold ensure_category.
    destruct (kd_mem new_cat (keyword_dict st)) eqn:E.
    + apply kd_mem_get in E as [kws E]. rewrite E. reflexivity.
    + rewrite kd_get_set_eq. destruct (kd_get new_cat (keyword_dict st)) eqn:E'; [|reflexivity].
      assert (kd_mem new_cat (keyword_dict st) = true) by (apply kd_mem_get; eauto).
      congruence.
  - apply lookup_insert_eq.
  - intros other Hne. apply lookup_insert_ne. congruence.
Qed.

(** X14.  A second identical correction changes nothing: learning the
    same category for the same name again returns with the store as
    the first correction left it, adding no keyword a second time. *)
Lemma learn_idempotent new_cat name st :
  learn new_cat name (learn new_cat name st).2
  = (Ok tt, (learn new_cat name st).2).
Proof.
  rewrite !learn_run. cbn [snd]. f_equal. unfold learned at 1.
  cbn [learned frames next_addr keyword_dict name_to_category db].
  set (d0 := ensure_category new_cat (keyword_dict st)).
  set (words := split_ws (lower name)).
  set (d1 := fold_left (add_word new_cat) words d0).
  assert (Hmem : kd_mem new_cat d1 = true).
  { eapply kd_mem_grows; [apply add_words_grow | apply ensure_category_mem]. }
  assert (He : ensure_category new_cat d1 = d1).
  { unfold ensure_category. rewrite Hmem. reflexivity. }
  rewrite He, insert_insert_eq.
  destruct (proj1 (kd_mem_get _ _) (ensure_category_mem new_cat (keyword_dict st)))
    as [kws0 Hk0].
  pose proof (add_words_tokens new_cat words d0 kws0 Hk0) as Hk1. fold d1 in Hk1.
  rewrite (add_words_known new_cat words d1 _ Hk1); [reflexivity|].
  intros w Hw. apply add_tokens_all, Hw.
Qed.

(** ** Monotonicity *)

(** C4.  Learning monotonicity: over any sequence of [learn] calls, a
    category that is in the keyword dict before the calls is still
    there after them, and its keyword list before is a prefix, hence a
    subset, of its keyword list after.  Nothing is removed or replaced. *)
Theorem keyword_sets_only_grow
    (calls : list (string * string)) (st : Store) (category : string)
    (kws : list string) :
  kd_get category (keyword_dict st) = Ok kws ->
  exists kws',
    kd_get category
      (keyword_dict (for_each calls (fun call => learn call.1 call.2) st).2) = Ok kws' /\
    kws `prefix_of` kws' /\ kws ⊆ kws'.
Proof.
  revert st kws. induction calls as [|[new_cat name] calls IH]; intros st kws H.
  - exists kws. simpl. split; [exact H|]. split; reflexivity.
  - cbn [for_each]. unfold bind. rewrite learn_run. cbn [fst snd].
    destruct (learn_grows new_cat name st _ _ H) as [a Ha].
    rewrite learn_run in Ha. cbn [snd] in Ha.
    destruct (IH _ _ Ha) as (kws' & Hk & Hp & Hs).
    exists kws'. split; [exact Hk|]. split.
    + etrans; [|exact Hp]. apply prefix_app_r. reflexivity.
    + etrans; [|exact Hs]. intros x Hx. apply elem_of_app. left. exact Hx.
Qed.

Lemma keyword_sets_only_grow_witness :
  exists kws',
    kd_get "Food"
      (keyword_dict
         (for_each [("Rent", "John Doe"); ("Food", "Pizza Hut")]
                   (fun call => learn call.1 call.2) empty_store).2) = Ok kws' /\
    ["zomato"; "swiggy"; "restaurant"; "pizza"] `prefix_of` kws' /\
    ["zomato"; "swiggy"; "restaurant"; "pizza"] ⊆ kws'.
Proof.
  apply (keyword_sets_only_grow [("Rent", "John Doe"); ("Food", "Pizza Hut")]
           empty_store "Food" ["zomato"; "swiggy"; "restaurant"; "pizza"]).
  reflexivity.
Defined.

(** ** The key of a learned name *)

(** C3 at a name with a leading blank.  [learn] stores the category
    under the lowercased name, blank included, where the claim says the
    trimmed name; [categorize_transactions] looks the trimmed name up,
    finds nothing, and the row the user corrected to "Rent" is shown and
    downloaded as "Food" again. *)
Theorem learned_name_is_not_trimmed :
  let st := (learn "Rent" " Zomato Guy" empty_store).2 in
  name_to_category st !! " zomato guy" = Some "Rent" /\
  name_to_category st !! strip (lower " Zomato Guy") = None /\
  kd_get "Rent" (keyword_dict st) = Ok ["zomato"; "guy"] /\
  categorize_name (keyword_dict st) (name_to_category st) (CStr " Zomato Guy") = Ok "Food" /\
  exists out st',
    main_loaded rent_editor untrimmed_frame empty_store = (Ok (Some out), st') /\
    download out
    = [csv_header; ["2024-01-05"; " Zomato Guy"; "Debit"; "1200.0"; "Food"]].
Proof.
  cbv zeta. repeat split; try (vm_compute; reflexivity).
  eexists _, _. split; vm_compute; reflexivity.
Qed.

(* ================================================================== *)
(** * Data frames *)
(* ================================================================== *)

Lemma get_column_set_column_eq label values (df : DataFrame) :
  get_column label (set_column label values df) = Ok values.
Proof.
  induction df as [|[l col] df IH]; simpl.
  - rewrite String.eqb_refl. reflexivity.
  - destruct (String.eqb l label) eqn:E; simpl; rewrite E; [reflexivity | exact IH].
Qed.

Lemma get_column_set_column_ne label label' values (df : DataFrame) :
  label <> label' ->
  get_column label' (set_column label values df) = get_column label' df.
Proof.
  intros Hne. induction df as [|[l col] df IH]; simpl.
  - destruct (String.eqb_spec label label'); [contradiction | reflexivity].
  - destruct (String.eqb_spec l label) as [->|Hl]; simpl.
    + destruct (String.eqb_spec label label'); [contradiction | reflexivity].
    + destruct (String.eqb l label'); [reflexivity | exact IH].
Qed.

Lemma set_column_twice label v w (df : DataFrame) :
  set_column label v (set_column label w df) = set_column label v df.
Proof.
  induction df as [|[l col] df IH]; simpl.
  - rewrite String.eqb_refl. reflexivity.
  - destruct (String.eqb l label) eqn:E; simpl; rewrite E; [reflexivity|].
    rewrite IH. reflexivity.
Qed.

Lemma get_column_filter_rows label mask (df : DataFrame) col :
  get_column label df = Ok col ->
  get_column label (filter_rows mask df) = Ok (select mask col).
Proof.
  induction df as [|[l c] df IH]; simpl; [discriminate|].
  destruct (String.eqb l label); [intros [= <-]; reflexivity | exact IH].
Qed.

Lemma select_map {A B} (f : A -> B) mask (l : list A) :
  select mask (map f l) = map f (select mask l).
Proof.
  revert l. induction mask as [|b mask IH]; intros [|x l]; simpl; try reflexivity.
  destruct b; simpl; rewrite IH; reflexivity.
Qed.

Lemma select_own_mask {A} (f : A -> bool) (l : list A) :
  Forall (fun x => f x = true) (select (map f l) l).
Proof.
  induction l as [|x l IH]; simpl; [constructor|].
  destruct (f x) eqn:E; [constructor; assumption | exact IH].
Qed.

Lemma select_sublist {A} mask (l : list A) x : x ∈ select mask l -> x ∈ l.
Proof.
  revert l. induction mask as [|b mask IH]; intros [|y l]; simpl; try (intros H; inversion H; fail).
  destruct b.
  - intros [->|H]%elem_of_cons; [left | right; apply IH, H].
  - intros H. right. apply IH, H.
Qed.

Lemma cell_is_str_eq s c : cell_is_str s c = true -> c = CStr s.
Proof. destruct c; simpl; try discriminate. intros H%String.eqb_eq. congruence. Qed.

Lemma rows_of_records {A} (f1 f2 f3 f4 : A -> string) (l : list A) (cs : list string) :
  Forall (fun row => exists r c, r ∈ l /\ row = [f1 r; f2 r; f3 r; f4 r; c])
         (rows_of (length l) [map f1 l; map f2 l; map f3 l; map f4 l; cs]).
Proof.
  revert cs. induction l as [|r l IH]; intros cs; simpl; [constructor|].
  constructor.
  - exists r, (head_text cs). split; [left | reflexivity].
  - eapply Forall_impl; [apply IH|]. intros row (r' & c & Hin & ->).
    exists r', c. split; [right; exact Hin | reflexivity].
Qed.

Lemma rmap_list_ok {A B} (f : A -> result B) (l : list A) :
  Forall (fun x => exists y, f x = Ok y) l ->
  exists ys, rmap_list f l = Ok ys /\ length ys = length l /\
    forall i x, l !! i = Some x -> exists y, ys !! i = Some y /\ f x = Ok y.
Proof.
  induction 1 as [|x l [y Hy] _ (ys & Hys & Hlen & Hi)].
  - exists []. split; [reflexivity|]. split; [reflexivity|]. intros i x H. discriminate.
  - exists (y :: ys). simpl. rewrite Hy, Hys. simpl.
    split; [reflexivity|]. split; [congruence|].
    intros [|i] x' H; simpl in *.
    + injection H as <-. eauto.
    + apply Hi, H.
Qed.

(* ================================================================== *)
(** * Categorization Engine *)
(* ================================================================== *)

Lemma first_matching_category_skip (pre post : kdict) (s : string) :
  Forall (fun item => any_keyword_in item.2 s = false) pre ->
  first_matching_category (pre ++ post) s = first_matching_category post s.
Proof.
  induction 1 as [|[c k] pre Hk _ IH]; [reflexivity|].
  simpl in *. rewrite Hk. exact IH.
Qed.

Lemma first_matching_category_none (items : kdict) (s : string) :
  Forall (fun item => any_keyword_in item.2 s = false) items ->
  first_matching_category items s = None.
Proof.
  intros H. rewrite <- (app_nil_r items). rewrite first_matching_category_skip by exact H.
  reflexivity.
Qed.

Lemma with_category_frame df categories frame st :
  frames (with_category df categories frame st) !! df
  = Some (set_column "Category" (map CStr categories) frame).
Proof. unfold with_category. simpl. apply lookup_insert_eq. Qed.

Section Categorize.

Variable ruleset : kdict.
Variable name_map : gmap string string.

Lemma categorize_name_str (c : cell) :
  is_str c = true -> exists category, categorize_name ruleset name_map c = Ok category.
Proof.
  destruct c as [d|s|x]; try discriminate. intros _. simpl.
  destruct (name_map !! _); [eauto|].
  destruct (first_matching_category _ _); eauto.
Qed.

Lemma categorize_transactions_ok df st frame names categories :
  frames st !! df = Some frame ->
  get_column "Name" frame = Ok names ->
  rmap_list (categorize_name ruleset name_map) names = Ok categories ->
  categorize_transactions df ruleset name_map st
  = (Ok df, with_category df categories frame st).
Proof.
  intros Hf Hn Hc. unfold categorize_transactions, bind, read_frame, lift.
  rewrite Hf, Hn, Hc. reflexivity.
Qed.

(** What a run on a frame whose names are all strings does: it returns,
    the frame has a [Category] column of the same length, and row [i]
    holds what [categorize_name] gives for the name of row [i]. *)
Lemma categorize_transactions_rows df st frame names :
  frames st !! df = Some frame ->
  get_column "Name" frame = Ok names ->
  Forall (fun c => is_str c = true) names ->
  exists categories,
    categorize_transactions df ruleset name_map st
    = (Ok df, with_category df categories frame st) /\
    length categories = length names /\
    forall i name, names !! i = Some name ->
      exists category, categories !! i = Some category /\
        categorize_name ruleset name_map name = Ok category.
Proof.
  intros Hf Hn Hs.
  destruct (rmap_list_ok (categorize_name ruleset name_map) names) as (cs & Hcs & Hlen & Hi).
  { eapply Forall_impl; [exact Hs|]. intros c Hc. apply categorize_name_str, Hc. }
  exists cs. split; [|split; [exact Hlen | exact Hi]].
  eapply categorize_transactions_ok; eassumption.
Qed.

Lemma categorize_transactions_cases df st :
  (exists e, categorize_transactions df ruleset name_map st = (Raise e, st)) \/
  (exists frame names categories,
      frames st !! df = Some frame /\
      get_column "Name" frame = Ok names /\
      rmap_list (categorize_name ruleset name_map) names = Ok categories /\
      categorize_transactions df ruleset name_map st
      = (Ok df, with_category df categories frame st)).
Proof.
  unfold categorize_transactions, bind, read_frame, lift.
  destruct (frames st !! df) as [frame|] eqn:Hf; [|left; eauto].
  destruct (get_column "Name" frame) as [names|e] eqn:Hn; [|left; eauto].
  destruct (rmap_list _ names) as [cs|e] eqn:Hc; [|left; eauto].
  right. exists frame, names, cs. auto.
Qed.

Lemma categorize_transactions_inv df st a st' :
  categorize_transactions df ruleset name_map st = (Ok a, st') ->
  exists frame categories,
    frames st !! df = Some frame /\ a = df /\
    st' = with_category df categories frame st.
Proof.
  intros H.
  destruct (categorize_transactions_cases df st)
    as [[e He] | (frame & names & cs & Hf & _ & _ & He)]; rewrite He in H.
  - discriminate.
  - injection H as <- <-. eauto.
Qed.

(** C1.  Exact-match precedence: when the normalized name of a row (its
    name lowercased, then trimmed) is a key of the name map,
    [categorize_transactions] returns and the category it writes for
    that row is the one the map holds for that key, whatever the
    keyword dict contains.  (The names of the frame are strings.) *)
Theorem exact_match_precedence
    (st : Store) (df : nat) (frame : DataFrame) (names : list cell)
    (i : nat) (name category : string) :
  frames st !! df = Some frame ->
  get_column "Name" frame = Ok names ->
  Forall (fun c => is_str c = true) names ->
  names !! i = Some (CStr name) ->
  name_map !! strip (lower name) = Some category ->
  exists st' frame' categories,
    categorize_transactions df ruleset name_map st = (Ok df, st') /\
    frames st' !! df = Some frame' /\
    get_column "Category" frame' = Ok categories /\
    categories !! i = Some (CStr category).
Proof.
  intros Hf Hn Hs Hi Hm.
  destruct (categorize_transactions_rows df st frame names Hf Hn Hs)
    as (cs & Hrun & _ & Hrow).
  destruct (Hrow i _ Hi) as (c & Hc & Hcat).
  simpl in Hcat. rewrite Hm in Hcat. injection Hcat as <-.
  eexists _, _, _. split; [exact Hrun|]. split; [apply with_category_frame|].
  split; [apply get_column_set_column_eq|].
  rewrite list_lookup_fmap, Hc. reflexivity.
Qed.

(** C2.  Keyword scan: when the normalized name of a row is not a key of
    the name map, [categorize_transactions] returns and writes for that
    row the first category, in the order of the keyword dict, one of
    whose keywords occurs in the normalized name ignoring case, and
    "Other" when no category has such a keyword.  The order of the dict
    is the order of creation: [learn] leaves the categories it finds in
    their places and puts a new one last, so the defaults stay first. *)
Theorem keyword_scan_first_match
    (st : Store) (df : nat) (frame : DataFrame) (names : list cell)
    (i : nat) (name : string) :
  frames st !! df = Some frame ->
  get_column "Name" frame = Ok names ->
  Forall (fun c => is_str c = true) names ->
  names !! i = Some (CStr name) ->
  name_map !! strip (lower name) = None ->
  exists st' frame' categories category,
    categorize_transactions df ruleset name_map st = (Ok df, st') /\
    frames st' !! df = Some frame' /\
    get_column "Category" frame' = Ok categories /\
    categories !! i = Some (CStr category) /\
    (forall before cat keywords after,
        ruleset = before ++ (cat, keywords) :: after ->
        Forall (fun item => ~ category_matches item.2 (strip (lower name))) before ->
        category_matches keywords (strip (lower name)) ->
        category = cat) /\
    (Forall (fun item => ~ category_matches item.2 (strip (lower name))) ruleset ->
     category = "Other") /\
    (forall new_cat learnt s, exists extra,
        map fst (keyword_dict (learn new_cat learnt s).2)
        = map fst (keyword_dict s) ++ extra).
Proof.
  intros Hf Hn Hs Hi Hm.
  destruct (categorize_transactions_rows df st frame names Hf Hn Hs)
    as (cs & Hrun & _ & Hrow).
  destruct (Hrow i _ Hi) as (c & Hc & Hcat).
  simpl in Hcat. rewrite Hm in Hcat.
  assert (Hno : forall items : kdict,
             Forall (fun item => ~ category_matches item.2 (strip (lower name))) items ->
             Forall (fun item => any_keyword_in item.2 (strip (lower name)) = false) items).
  { intros items Hitems. eapply Forall_impl; [exact Hitems|]. intros [c0 k0] Hk. simpl in *.
    destruct (any_keyword_in k0 _) eqn:E; [|reflexivity].
    exfalso. apply Hk, any_keyword_in_spec, E. }
  exists (with_category df cs frame st), (set_column "Category" (map CStr cs) frame),
         (map CStr cs), c.
  split; [exact Hrun|]. split; [apply with_category_frame|].
  split; [apply get_column_set_column_eq|].
  split; [rewrite list_lookup_fmap, Hc; reflexivity|].
  split; [|split].
  - intros before cat keywords after -> Hbefore Hmatch.
    rewrite first_matching_category_skip in Hcat by (apply Hno, Hbefore).
    simpl in Hcat. apply any_keyword_in_spec in Hmatch. rewrite Hmatch in Hcat.
    congruence.
  - intros Hnone. rewrite first_matching_category_none in Hcat by (apply Hno, Hnone).
    congruence.
  - intros new_cat learnt s. apply learn_keeps_category_order.
Qed.

(** C10.  The categories depend on the names only: two frames with the
    same [Name] column, categorized with the same keyword dict and name
    map, get the same [Category] column, whatever their other columns
    and wherever they are stored. *)
Theorem category_depends_on_name_only
    (st1 st2 : Store) (df1 df2 : nat) (frame1 frame2 : DataFrame)
    (names : list cell) :
  frames st1 !! df1 = Some frame1 ->
  frames st2 !! df2 = Some frame2 ->
  get_column "Name" frame1 = Ok names ->
  get_column "Name" frame2 = Ok names ->
  Forall (fun c => is_str c = true) names ->
  exists st1' st2' frame1' frame2' categories,
    categorize_transactions df1 ruleset name_map st1 = (Ok df1, st1') /\
    categorize_transactions df2 ruleset name_map st2 = (Ok df2, st2') /\
    frames st1' !! df1 = Some frame1' /\
    frames st2' !! df2 = Some frame2' /\
    get_column "Category" frame1' = Ok categories /\
    get_column "Category" frame2' = Ok categories /\
    length categories = length names.
Proof.
  intros Hf1 Hf2 Hn1 Hn2 Hs.
  destruct (rmap_list_ok (categorize_name ruleset name_map) names) as (cs & Hcs & Hlen & _).
  { eapply Forall_impl; [exact Hs|]. intros c Hc. apply categorize_name_str, Hc. }
  exists (with_category df1 cs frame1 st1), (with_category df2 cs frame2 st2).
  exists (set_column "Category" (map CStr cs) frame1), (set_column "Category" (map CStr cs) frame2).
  exists (map CStr cs).
  split; [eapply categorize_transactions_ok; eassumption|].
  split; [eapply categorize_transactions_ok; eassumption|].
  split; [apply with_category_frame|]. split; [apply with_category_frame|].
  split; [apply get_column_set_column_eq|]. split; [apply get_column_set_column_eq|].
  rewrite length_map. exact Hlen.
Qed.

(** C5, as amended.  [categorize_transactions] reads the keyword dict
    and the name map and leaves them, the database and every other
    frame as they are; the frame it is given is written in place, and
    only in its [Category] column; run again on the result it returns
    the same and changes nothing. *)
Theorem categorize_writes_only_category
    (st : Store) (df : nat) :
  let out := categorize_transactions df ruleset name_map st in
  keyword_dict out.2 = keyword_dict st /\
  name_to_category out.2 = name_to_category st /\
  db out.2 = db st /\
  (forall a, a <> df -> frames out.2 !! a = frames st !! a) /\
  (forall frame, frames st !! df = Some frame ->
     exists frame', frames out.2 !! df = Some frame' /\
       forall label, label <> "Category" ->
         get_column label frame' = get_column label frame) /\
  categorize_transactions df ruleset name_map out.2 = out.
Proof.
  intros out. subst out.
  destruct (categorize_transactions_cases df st)
    as [[e He] | (frame & names & cs & Hf & Hn & Hc & He)]; rewrite He; cbn [fst snd].
  - repeat split; try reflexivity.
    + intros frame Hf. exists frame. split; [exact Hf | reflexivity].
    + exact He.
  - repeat split; try reflexivity.
    + intros a Ha. unfold with_category. simpl. apply lookup_insert_ne. congruence.
    + intros frame0 Hf0. rewrite Hf in Hf0. injection Hf0 as <-.
      eexists. split; [apply with_category_frame|].
      intros label Hl. apply get_column_set_column_ne. congruence.
    + erewrite categorize_transactions_ok;
        [ | apply with_category_frame
          | rewrite get_column_set_column_ne by discriminate; exact Hn
          | exact Hc ].
      f_equal. unfold with_category. simpl.
      rewrite set_column_twice, insert_insert_eq. reflexivity.
Qed.

End Categorize.

Lemma exact_match_precedence_witness :
  exists st' frame' categories,
    categorize_transactions 0 default_keywords example_name_map example_store
    = (Ok 0%nat, st') /\
    frames st' !! 0%nat = Some frame' /\
    get_column "Category" frame' = Ok categories /\
    categories !! 0%nat = Some (CStr "Dining").
Proof.
  apply (exact_match_precedence default_keywords example_name_map example_store 0
           example_frame [CStr "Zomato Online"] 0 "Zomato Online" "Dining").
  - vm_compute. reflexivity.
  - vm_compute. reflexivity.
  - repeat constructor.
  - reflexivity.
  - vm_compute. reflexivity.
Defined.

Lemma keyword_scan_first_match_witness :
  exists st' frame' categories,
    categorize_transactions 0 default_keywords ∅ example_store = (Ok 0%nat, st') /\
    frames st' !! 0%nat = Some frame' /\
    get_column "Category" frame' = Ok categories /\
    categories !! 0%nat = Some (CStr "Food").
Proof.
  destruct (keyword_scan_first_match default_keywords ∅ example_store 0 example_frame
              [CStr "Zomato Online"] 0 "Zomato Online")
    as (st' & frame' & cs & c & Hrun & Hf & Hc & Hi & Hfirst & _).
  - vm_compute. reflexivity.
  - vm_compute. reflexivity.
  - repeat constructor.
  - reflexivity.
  - vm_compute. reflexivity.
  - exists st', frame', cs. repeat (split; [assumption|]).
    rewrite Hi. do 2 f_equal.
    apply (Hfirst [] "Food" ["zomato"; "swiggy"; "restaurant"; "pizza"]
             (tail default_keywords)); [reflexivity | constructor |].
    exists "zomato". split; [left|]. exists "", "zomato", " online". split; reflexivity.
Defined.

Lemma category_depends_on_name_only_witness :
  exists st1' st2' frame1' frame2' categories,
    categorize_transactions 0 default_keywords ∅ example_store = (Ok 0%nat, st1') /\
    categorize_transactions 7 default_keywords ∅ other_store = (Ok 7%nat, st2') /\
    frames st1' !! 0%nat = Some frame1' /\
    frames st2' !! 7%nat = Some frame2' /\
    get_column "Category" frame1' = Ok categories /\
    get_column "Category" frame2' = Ok categories /\
    length categories = 1%nat.
Proof.
  apply (category_depends_on_name_only default_keywords ∅ example_store other_store 0 7
           example_frame other_frame [CStr "Zomato Online"]).
  - vm_compute. reflexivity.
  - vm_compute. reflexivity.
  - vm_compute. reflexivity.
  - reflexivity.
  - repeat constructor.
Defined.

(** C5 fails as stated: the frame passed in has no [Category] column
    before the call and has one after it. *)
Lemma categorize_writes_its_input :
  let st' := (categorize_transactions 0 default_keywords ∅ example_store).2 in
  (exists frame, frames example_store !! 0%nat = Some frame /\
                 get_column "Category" frame = Raise KeyError) /\
  (exists frame', frames st' !! 0%nat = Some frame' /\
                  get_column "Category" frame' = Ok [CStr "Food"]) /\
  st' <> example_store.
Proof.
  cbv zeta. split; [|split].
  - eexists. split; vm_compute; reflexivity.
  - eexists. split; vm_compute; reflexivity.
  - intros H. apply (f_equal (fun s => frames s !! 0%nat)) in H.
    vm_compute in H. discriminate.
Qed.

(* ================================================================== *)
(** * One run of [main] *)
(* ================================================================== *)

Lemma bind_ok {A B} (m : M A) (k : A -> M B) st b st' :
  bind m k st = (Ok b, st') ->
  exists a st1, m st = (Ok a, st1) /\ k a st1 = (Ok b, st').
Proof.
  unfold bind. destruct (m st) as [[a|e] st1]; [eauto | discriminate].
Qed.

(** One step through a run that returned: the first computation of a
    [bind] returned [a] in store [s], by [E]. *)
Ltac bind_step H a s E := apply bind_ok in H as (a & s & E & H).

Lemma keeps_frames_ret {A} (a : A) : keeps_frames (ret a).
Proof. intros st. split; reflexivity. Qed.

Lemma keeps_frames_lift {A} (r : result A) : keeps_frames (lift r).
Proof. intros st. split; reflexivity. Qed.

Lemma keeps_frames_bind {A B} (m : M A) (k : A -> M B) :
  keeps_frames m -> (forall a, keeps_frames (k a)) -> keeps_frames (bind m k).
Proof.
  intros Hm Hk st. unfold bind. destruct (Hm st) as [H1 H2].
  destruct (m st) as [[a|e] st1]; simpl in *; [|auto].
  destruct (Hk a st1) as [H3 H4]. split; congruence.
Qed.

Lemma keeps_frames_learn new_cat name : keeps_frames (learn new_cat name).
Proof. intros st. rewrite learn_run. split; reflexivity. Qed.

Lemma keeps_frames_add_category new_cat : keeps_frames (add_category new_cat).
Proof. intros st. rewrite add_category_run. split; reflexivity. Qed.

Lemma keeps_frames_for_each {A} (l : list A) (body : A -> M unit) :
  (forall x, keeps_frames (body x)) -> keeps_frames (for_each l body).
Proof.
  intros Hb. induction l as [|x l IH]; simpl.
  - apply keeps_frames_ret.
  - apply keeps_frames_bind; [apply Hb | intros _; exact IH].
Qed.

Lemma keeps_frames_learn_name new_cat name : keeps_frames (learn_name new_cat name).
Proof.
  unfold learn_name. apply keeps_frames_bind; [intros st; split; reflexivity | intros _].
  apply keeps_frames_for_each. intros word st.
  unfold bind, get_keyword_dict, lift.
  destruct (kd_get new_cat (keyword_dict st)) as [kws|]; [|split; reflexivity].
  destruct (str_in word kws); split; reflexivity.
Qed.

Create HintDb frames.
#[local] Hint Resolve keeps_frames_ret keeps_frames_lift keeps_frames_learn
  keeps_frames_add_category keeps_frames_learn_name : frames.

Lemma keeps_frames_learn_row df edited i : keeps_frames (learn_row df edited i).
Proof.
  unfold learn_row.
  repeat (apply keeps_frames_bind; [auto with frames | intros ?]).
  destruct (cell_eqb _ _); [auto with frames|].
  apply keeps_frames_bind; [auto with frames | intros s].
  destruct (strip s); [auto with frames|].
  repeat (apply keeps_frames_bind; [auto with frames | intros ?]).
  auto with frames.
Qed.

Lemma keeps_frames_learn_rows df edited rows changed :
  keeps_frames (learn_rows df edited rows changed).
Proof.
  revert changed. induction rows as [|i rows IH]; intros changed; simpl.
  - apply keeps_frames_ret.
  - apply keeps_frames_bind; [apply keeps_frames_learn_row | intros c; apply IH].
Qed.

(** What one run of [main] on a loaded table shows. *)
Lemma main_loaded_shows data_editor df st out st' :
  main_loaded data_editor df st = (Ok (Some out), st') ->
  exists direction categories,
    get_column "Debit/Credit" df = Ok direction /\
    frames st' !! debits_df out
    = Some (set_column "Category" (map CStr categories) (debit_rows direction df)) /\
    (summarised out
     = data_editor (set_column "Category" (map CStr categories) (debit_rows direction df)) \/
     summarised out
     = set_column "Category" (map CStr categories) (debit_rows direction df)) /\
    download out = to_csv (summarised out).
Proof.
  unfold main_loaded. destruct (df_empty df); [discriminate|]. intros H.
  bind_step H direction s1 H1. unfold lift in H1. injection H1 as Hdir <-.
  bind_step H a0 s2 H2. unfold new_frame in H2. injection H2 as <- <-.
  bind_step H d s3 H3. injection H3 as <- <-.
  bind_step H m s4 H4. injection H4 as <- <-.
  bind_step H a s5 H5.
  apply categorize_transactions_inv in H5 as (F0 & cs1 & HF0 & -> & ->).
  cbn [frames] in HF0. rewrite lookup_insert_eq in HF0. injection HF0 as <-.
  fold (debit_rows direction df) in *.
  set (F0 := debit_rows direction df) in *.
  set (F1 := set_column "Category" (map CStr cs1) F0) in *.
  bind_step H shown s6 H6. unfold read_frame in H6.
  rewrite with_category_frame in H6. injection H6 as <- <-.
  bind_step H e0 s7 H7. unfold new_frame in H7. injection H7 as <- <-.
  bind_step H e1 s8 H8. unfold new_frame in H8. injection H8 as <- <-.
  bind_step H edited s9 H9. unfold read_frame in H9.
  cbn [frames next_addr with_category] in H9. rewrite lookup_insert_eq in H9.
  injection H9 as <- <-.
  bind_step H changed s10 H10.
  lazymatch type of H10 with learn_rows ?a ?b ?c ?d ?s = _ =>
    pose proof (keeps_frames_learn_rows a b c d s) as Hk end.
  rewrite H10 in Hk. destruct Hk as [Hfr Hna]. cbn [snd frames next_addr with_category] in Hfr, Hna.
  assert (Ha0 : frames s10 !! next_addr st = Some F1).
  { rewrite Hfr. rewrite !lookup_insert_ne by lia. apply lookup_insert_eq. }
  bind_step H efinal s11 H11.
  destruct changed.
  - bind_step H11 m' s12 H12. injection H12 as <- <-.
    bind_step H11 u s13 H13.
    unfold save_name_category_map, put_db in H13. injection H13 as <- <-.
    bind_step H11 d' s14 H14. injection H14 as <- <-.
    bind_step H11 a' s15 H15.
    apply categorize_transactions_inv in H15 as (F1' & cs2 & HF1 & -> & ->).
    cbn [frames] in HF1. rewrite Ha0 in HF1. injection HF1 as <-.
    bind_step H11 again s16 H16. unfold read_frame in H16.
    rewrite with_category_frame in H16. injection H16 as <- <-.
    unfold new_frame in H11. injection H11 as <- <-.
    bind_step H final s17 H17. unfold read_frame in H17.
    cbn [frames next_addr with_category] in H17. rewrite lookup_insert_eq in H17.
    injection H17 as <- <-. injection H as <- <-.
    exists direction, cs2. cbn [debits_df summarised download frames].
    unfold F1. rewrite set_column_twice. split; [exact Hdir|]. split; [|split; [right|]; reflexivity].
    cbn [next_addr with_category]. rewrite Hna. cbn [with_category frames].
    rewrite lookup_insert_ne by lia. apply lookup_insert_eq.
  - injection H11 as <- <-.
    bind_step H final s17 H17. unfold read_frame in H17.
    rewrite Hfr in H17. rewrite lookup_insert_eq in H17. injection H17 as <- <-.
    injection H as <- <-.
    exists direction, cs1. cbn [debits_df summarised download].
    split; [exact Hdir|]. split; [exact Ha0|]. split; [left|]; reflexivity.
Qed.

(** ** Only debits *)

Lemma select_debit_cells (direction column : list cell) :
  select (map (cell_is_str "Debit") direction) column = debit_cells direction column.
Proof.
  unfold debit_cells. revert column.
  induction direction as [|d direction IH]; intros [|x column]; try reflexivity.
  cbn [map select combine List.filter fst]. destruct (cell_is_str "Debit" d); simpl; rewrite IH; reflexivity.
Qed.

Lemma debit_rows_debits_only direction (df : DataFrame) :
  debit_rows direction df = debits_only direction df.
Proof.
  unfold debit_rows, filter_rows, debits_only. apply map_ext. intros [label column].
  rewrite select_debit_cells. reflexivity.
Qed.

Lemma debit_cells_direction direction :
  Forall (fun c => c = CStr "Debit") (debit_cells direction direction).
Proof.
  rewrite <- select_debit_cells.
  eapply Forall_impl; [apply select_own_mask|]. intros c. apply cell_is_str_eq.
Qed.

Lemma get_column_debits_only label direction (df : DataFrame) column :
  get_column label df = Ok column ->
  get_column label (debits_only direction df) = Ok (debit_cells direction column).
Proof.
  induction df as [|[l col] df IH]; simpl; [discriminate|].
  destruct (String.eqb l label); [intros [= <-]; reflexivity | exact IH].
Qed.

(** C9, as amended.  Before the initial categorization the loaded table
    is cut down to the rows whose [Debit/Credit] is "Debit": the table
    that is categorized, and categorized again after learning, holds of
    every column exactly the cells of those rows, in order, so every
    direction in it is "Debit".  The summary and the download are made
    from the table the editor hands back: they hold those rows when the
    editor rewrites nothing but categories. *)
Theorem only_debits_are_shown
    (data_editor : DataFrame -> DataFrame) (df : DataFrame)
    (st st' : Store) (out : Shown) :
  main_loaded data_editor df st = (Ok (Some out), st') ->
  exists direction categorised,
    get_column "Debit/Credit" df = Ok direction /\
    frames st' !! debits_df out
    = Some (set_column "Category" (map CStr categorised) (debits_only direction df)) /\
    get_column "Debit/Credit"
      (set_column "Category" (map CStr categorised) (debits_only direction df))
    = Ok (debit_cells direction direction) /\
    Forall (fun c => c = CStr "Debit") (debit_cells direction direction) /\
    download out = to_csv (summarised out) /\
    (only_edits_categories data_editor ->
     exists shown,
       summarised out
       = set_column "Category" (map CStr shown) (debits_only direction df)).
Proof.
  intros H. pose proof H as H'.
  apply main_loaded_shows in H as (direction & cs & Hdir & Hf & Hs & Hd).
  rewrite debit_rows_debits_only in *.
  exists direction, cs. split; [exact Hdir|]. split; [exact Hf|].
  split; [|split; [apply debit_cells_direction|split; [exact Hd|]]].
  - rewrite get_column_set_column_ne by discriminate.
    apply get_column_debits_only, Hdir.
  - intros Hed. destruct Hs as [Hs|Hs]; [|eauto].
    destruct (Hed (set_column "Category" (map CStr cs) (debits_only direction df)))
      as [cs' Hcs'].
    rewrite Hcs', set_column_twice in Hs. eauto.
Qed.

Lemma only_debits_are_shown_witness :
  exists out st',
    main_loaded rent_all_editor (parse_phonepe_pdf mixed_statement) empty_store
    = (Ok (Some out), st') /\
    get_column "Name" (parse_phonepe_pdf mixed_statement)
    = Ok [CStr "Zomato Online"; CStr "John Doe"] /\
    get_column "Name" (summarised out) = Ok [CStr "Zomato Online"] /\
    get_column "Debit/Credit" (summarised out) = Ok [CStr "Debit"].
Proof.
  destruct (main_loaded rent_all_editor (parse_phonepe_pdf mixed_statement) empty_store)
    as [[[out|]|e] st'] eqn:E; try (vm_compute in E; discriminate).
  destruct (only_debits_are_shown rent_all_editor (parse_phonepe_pdf mixed_statement)
              empty_store st' out E)
    as (direction & cs & Hdir & _ & _ & _ & _ & Hs).
  destruct Hs as [shown Hs].
  { intros table. exists (repeat "Rent" (nrows table)). reflexivity. }
  assert (Hd : direction = [CStr "Debit"; CStr "Credit"]).
  { vm_compute in Hdir. injection Hdir as <-. reflexivity. }
  subst direction. exists out, st'. split; [reflexivity|].
  split; [vm_compute; reflexivity|]. rewrite Hs.
  rewrite !get_column_set_column_ne by discriminate.
  split; vm_compute; reflexivity.
Defined.

(** C9 fails as stated: the editor lets the user retype any column, and
    when no category was changed the table that is summarised and
    downloaded is the one the editor handed back.  A direction retyped
    as Credit is exported. *)
Lemma retyped_direction_is_exported :
  exists out st',
    main_loaded credit_editor (parse_phonepe_pdf example_statement) empty_store
    = (Ok (Some out), st') /\
    get_column "Debit/Credit" (summarised out) = Ok [CStr "Credit"] /\
    download out
    = [csv_header; ["2023-07-04"; "Zomato Online"; "Credit"; "450.0"; "Food"]].
Proof. eexists _, _. split; [vm_compute; reflexivity|]. split; reflexivity. Qed.

(* ================================================================== *)
(** * The download *)
(* ================================================================== *)

(** ** Number texts *)

Lemma below_all (f : N -> bool) (k : N) :
  forallb f (map N.of_nat (seq 0 (N.to_nat k))) = true ->
  forall n, n < k -> f n = true.
Proof.
  intros H n Hn. rewrite forallb_forall in H. apply H.
  apply in_map_iff. exists (N.to_nat n). split; [apply N2Nat.id|].
  apply in_seq. lia.
Qed.

Lemma pad4_ok n : n < 10000 -> pad_ok 4 n = true.
Proof. apply (below_all (pad_ok 4) 10000). vm_compute. reflexivity. Qed.

Lemma pad2_ok n : n < 100 -> pad_ok 2 n = true.
Proof. apply (below_all (pad_ok 2) 100). vm_compute. reflexivity. Qed.

Lemma pad_ok_word w n : pad_ok w n = true -> word_of w is_digit (zero_pad w n).
Proof.
  unfold pad_ok. intros [H1 H2]%andb_true_iff. split; [apply Nat.eqb_eq, H1 | exact H2].
Qed.

Lemma isoformat_shape (d : date) : valid_date d -> iso_date_text (isoformat d).
Proof.
  intros (Hy & Hm & Hd). unfold isoformat.
  exists (zero_pad 4 (year d)), (zero_pad 2 (month d)), (zero_pad 2 (day d)).
  split; [reflexivity|].
  split; [apply pad_ok_word, pad4_ok; lia|].
  split; apply pad_ok_word, pad2_ok; lia.
Qed.

Lemma string_of_uint_digits (u : Decimal.uint) :
  all_chars is_digit (NilEmpty.string_of_uint u) = true.
Proof. induction u; simpl; auto. Qed.

Lemma decimal_digits n : all_chars is_digit (decimal n) = true.
Proof. apply string_of_uint_digits. Qed.

Lemma decimal_nonempty n : decimal n <> "".
Proof.
  unfold decimal. destruct n as [|p]; [discriminate|]. simpl.
  pose proof (DecimalPos.Unsigned.to_uint_nonnil p) as H.
  destruct (Pos.to_uint p); [contradiction | discriminate..].
Qed.

Lemma fraction_text_ok r : r < 100 -> fraction_ok (fraction_text r) = true.
Proof.
  apply (below_all (fun r => fraction_ok (fraction_text r)) 100). vm_compute. reflexivity.
Qed.

Lemma float_repr_shape (c : amount) : repr_amount_text (float_repr c).
Proof.
  unfold float_repr. fold (fraction_text (c mod 100)).
  exists (decimal (c / 100)), (fraction_text (c mod 100)).
  split; [reflexivity|]. split; [apply decimal_nonempty|]. split; [apply decimal_digits|].
  assert (H : fraction_ok (fraction_text (c mod 100)) = true).
  { apply fraction_text_ok. apply N.mod_lt. discriminate. }
  destruct (fraction_text (c mod 100)) as [|a [|b [|? ?]]]; simpl in H; try discriminate.
  - left. split; [reflexivity|]. simpl. rewrite H. reflexivity.
  - right. apply andb_true_iff in H as [[Ha Hb]%andb_true_iff Hz].
    exists a, b. repeat split; try assumption.
    intros ->. discriminate.
Qed.

(** ** The amount text *)

(** C8 fails as stated: the amount 450.00 is downloaded as 450.0, with
    one fractional digit. *)
Lemma amount_is_written_with_one_digit :
  exists out st',
    main_loaded example_editor (parse_phonepe_pdf example_statement) empty_store
    = (Ok (Some out), st') /\
    download out = [csv_header; ["2023-07-04"; "Zomato Online"; "Debit"; "450.0"; "Food"]] /\
    ~ described_download (download out).
Proof.
  eexists _, _. split; [vm_compute; reflexivity|]. split; [reflexivity|].
  cbn [download].
  intros (rows & Hrows & HF). injection Hrows as <-.
  apply Forall_cons in HF as [(dt & nm & dir & am & cat & Hrow & _ & Ham) _].
  injection Hrow as _ _ _ <- _.
  destruct Ham as (ip & fp & Heq & Hip & Hlen & _).
  do 3 (destruct ip as [|? ip];
        [ rewrite app_empty_l, app_cons in Heq; discriminate
        | rewrite app_cons in Heq; injection Heq as <- Heq ]).
  destruct ip as [|a ip].
  - rewrite app_empty_l, app_cons, app_empty_l in Heq. injection Heq as <-. discriminate.
  - rewrite app_cons in Heq. injection Heq as <- _. discriminate.
Qed.

(* ================================================================== *)
(** * The parser, continued *)
(* ================================================================== *)

(** ** [strip] *)

Lemma is_space_lower c : is_space (lower_char c) = is_space c.
Proof. destruct c as [[] [] [] [] [] [] [] []]; reflexivity. Qed.

Lemma lstrip_lower (s : string) : lstrip (lower s) = lower (lstrip s).
Proof.
  induction s as [|c s IH]; [reflexivity|]. simpl. rewrite is_space_lower.
  destruct (is_space c); [exact IH | reflexivity].
Qed.

Lemma rstrip_lower (s : string) : rstrip (lower s) = lower (rstrip s).
Proof.
  induction s as [|c s IH]; [reflexivity|]. simpl. rewrite IH, is_space_lower.
  destruct (rstrip s); simpl; [destruct (is_space c)|]; reflexivity.
Qed.

Lemma strip_lower (s : string) : strip (lower s) = lower (strip s).
Proof. unfold strip. rewrite lstrip_lower, rstrip_lower. reflexivity. Qed.

Lemma lstrip_head (s : string) :
  lstrip s = "" \/ exists c r, lstrip s = String c r /\ is_space c = false.
Proof.
  induction s as [|c s IH]; [left; reflexivity|]. simpl.
  destruct (is_space c) eqn:E; [exact IH | right; eauto].
Qed.

Lemma rstrip_cons c (s : string) :
  is_space c = false -> rstrip (String c s) = String c (rstrip s).
Proof. intros H. simpl. rewrite H. destruct (rstrip s); reflexivity. Qed.

Lemma rstrip_idem (s : string) : rstrip (rstrip s) = rstrip s.
Proof.
  induction s as [|c s IH]; [reflexivity|]. simpl.
  destruct (rstrip s) as [|d r] eqn:E.
  - destruct (is_space c) eqn:Ec; [reflexivity|]. simpl. rewrite Ec. reflexivity.
  - change (rstrip (String c (String d r)))
      with (match rstrip (String d r) with
            | "" => if is_space c then "" else String c ""
            | r0 => String c r0
            end).
    rewrite IH. reflexivity.
Qed.

Lemma strip_idem (s : string) : strip (strip s) = strip s.
Proof.
  unfold strip. destruct (lstrip_head s) as [-> | (c & r & -> & Hc)]; [reflexivity|].
  rewrite (rstrip_cons c r Hc). simpl. rewrite Hc.
  rewrite <- (rstrip_cons c r Hc). apply rstrip_idem.
Qed.

Lemma extract_name_trimmed (line name : string) :
  extract_name line = Ok name -> strip name = name.
Proof.
  unfold extract_name.
  destruct (contains "Paid to" line).
  - destruct (py_index _ 1) as [a|]; simpl; [|discriminate].
    destruct (py_index _ 0) as [b|]; simpl; [|discriminate].
    intros [= <-]. apply strip_idem.
  - destruct (contains "Received from" line).
    + destruct (py_index _ 1) as [a|]; simpl; [|discriminate].
      destruct (py_index _ 0) as [b|]; simpl; [|discriminate].
      intros [= <-]. apply strip_idem.
    + intros [= <-]. reflexivity.
Qed.

Lemma parse_line_name (line : string) row :
  parse_line line = Ok row -> extract_name line = Ok (row_Name row).
Proof.
  unfold parse_line.
  destruct (extract_date line); simpl; [|discriminate].
  destruct (extract_name line); simpl; [|discriminate].
  destruct (extract_amount line); simpl; [|discriminate].
  intros [= <-]. reflexivity.
Qed.

(** X1.  The name of every parsed row is trimmed: it has no white
    space at either end, and so has its lower-case form.  (Lines 96-101
    end in [.strip()], and the else branch gives "Unknown".)  The key
    [name.lower()] that [learn] stores for a parsed name is therefore
    the key [name.lower().strip()] that categorization looks up. *)
Theorem parsed_name_is_normal (line : string) (row : parsed_row) :
  parse_line line = Ok row ->
  strip (row_Name row) = row_Name row /\
  strip (lower (row_Name row)) = lower (row_Name row).
Proof.
  intros H%parse_line_name%extract_name_trimmed. split; [exact H|].
  rewrite strip_lower, H. reflexivity.
Qed.

Lemma parsed_name_is_normal_witness :
  strip "Zomato Online" = "Zomato Online" /\
  strip (lower "Zomato Online") = lower "Zomato Online".
Proof.
  apply (parsed_name_is_normal "Jul 04, 2023 Paid to   Zomato Online  Debit INR 450.00"
           (mkrow (mkdate 2023 7 4) "Zomato Online" "Debit" 45000)).
  vm_compute. reflexivity.
Defined.

(** ** The date of an accepted line *)

Lemma substring_app_length (a b : string) :
  String.substring 0 (String.length a) (a +:+ b) = a.
Proof.
  induction a as [|c a IH]; simpl; [destruct b; reflexivity|]. f_equal. exact IH.
Qed.

Lemma den_DATE n (s r : string) :
  den n DATE_RE s r -> exists w, s = w +:+ r /\ String.length w = 12%nat.
Proof.
  unfold DATE_RE. cbn [den].
  intros (s1 & [-> _] & s2 & Hmon & s3 & Hsp1 & s4 & Hdd & s5 & Hsp2 & Hyy).
  apply den_Rep in Hmon as (mon & -> & Hmon & _). apply den_Lit in Hsp1 as ->.
  apply den_Rep in Hdd as (dd & -> & Hdd & _). apply den_Lit in Hsp2 as ->.
  apply den_Rep in Hyy as (yy & -> & Hyy & _).
  exists (mon +:+ " " +:+ dd +:+ ", " +:+ yy). split.
  - norm_app. reflexivity.
  - rewrite !length_app_s, Hmon, Hdd, Hyy. reflexivity.
Qed.

Lemma search_from_head n r (s : string) m :
  match_at n r s = Some m -> search_from n r s = Some m.
Proof. intros H. destruct s; simpl; rewrite H; reflexivity. Qed.

Lemma accepted_line_date_match (line : string) :
  is_transaction_line line = true ->
  exists rest, re_search DATE_RE line = Some (String.substring 0 12 line, rest).
Proof.
  intros (mon & dd & yyyy & mid & tok & d & rest & -> & Hmon & Hdd & Hyy & _)%is_transaction_line_accepts.
  set (line := mon +:+ _).
  assert (Hden : exists r, den (String.length line) DATE_RE line r).
  { eexists. unfold DATE_RE. cbn [den].
    eexists. split; [split; reflexivity|].
    eexists. split; [apply den_Rep; exists mon; split; [reflexivity | exact Hmon]|].
    eexists. split; [apply den_Lit; reflexivity|].
    eexists. split; [apply den_Rep; exists dd; split; [reflexivity | exact Hdd]|].
    eexists. split; [apply den_Lit; reflexivity|].
    apply den_Rep. exists yyyy. split; [reflexivity | exact Hyy]. }
  apply match_at_some in Hden as [m Hm].
  pose proof Hm as Hm'. apply match_at_den in Hm' as (r & Hr & ->).
  apply den_DATE in Hr as (w & Hw & Hlen).
  exists r. unfold re_search. apply search_from_head. rewrite Hm. f_equal. f_equal.
  rewrite Hw. rewrite substring_prefix. rewrite <- Hlen. symmetry. apply substring_app_length.
Qed.

Lemma strptime_raises (s : string) e : strptime s = Raise e -> e = ValueError.
Proof.
  unfold strptime. destruct (_ && _); [|congruence].
  destruct (index_of _ _); [|congruence]. destruct (_ && _); congruence.
Qed.

(** X2.  On a line that [is_transaction_line] accepts, the date text
    is the first twelve characters of the line, and the only thing that
    can drop the line is [strptime] on that text: when it returns a date
    the line gives a row with that date, and when it raises, the [try]
    block raises [ValueError] and the line is skipped.  The name, the
    type and the amount never fail. *)
Theorem accepted_line_is_kept_iff_date (line : string) :
  is_transaction_line line = true ->
  extract_date line = strptime (String.substring 0 12 line) /\
  (forall d, strptime (String.substring 0 12 line) = Ok d ->
     exists row, parse_line line = Ok row /\ row_Date row = d) /\
  (forall e, strptime (String.substring 0 12 line) = Raise e ->
     parse_line line = Raise ValueError).
Proof.
  intros [rest Hm]%accepted_line_date_match.
  assert (Hd : extract_date line = strptime (String.substring 0 12 line)).
  { unfold extract_date. rewrite Hm. reflexivity. }
  split; [exact Hd|]. unfold parse_line. rewrite Hd. split.
  - intros d ->. destruct (extract_name_ok line) as [name ->].
    destruct (extract_amount_ok line) as [x ->]. simpl. eauto.
  - intros e He. rewrite He. simpl. f_equal. eapply strptime_raises, He.
Qed.

Lemma accepted_line_is_kept_iff_date_witness :
  extract_date "Feb 30, 2023 Paid to Shop Debit INR 450"
  = strptime (String.substring 0 12 "Feb 30, 2023 Paid to Shop Debit INR 450") /\
  parse_line "Feb 30, 2023 Paid to Shop Debit INR 450" = Raise ValueError.
Proof.
  destruct (accepted_line_is_kept_iff_date "Feb 30, 2023 Paid to Shop Debit INR 450")
    as (H1 & _ & H3); [vm_compute; reflexivity|].
  split; [exact H1|]. apply (H3 ValueError). vm_compute. reflexivity.
Defined.

(** ** The rows of the parsed table *)

Lemma parse_rows_elem_iff (lines : list string) r :
  r ∈ parse_rows lines <-> exists line, line ∈ lines /\ parse_line line = Ok r.
Proof.
  induction lines as [|line lines IH]; simpl.
  - split; [intros H; inversion H | intros (l & H & _); inversion H].
  - destruct (parse_line line) as [r'|e] eqn:E.
    + rewrite elem_of_cons, IH. split.
      * intros [-> | (l & Hl & Hp)]; [exists line | exists l]; split; auto; [left | right; auto].
      * intros (l & [-> | Hl]%elem_of_cons & Hp); [left; congruence | right; eauto].
    + rewrite IH. split.
      * intros (l & Hl & Hp). exists l. split; [right; exact Hl | exact Hp].
      * intros (l & [-> | Hl]%elem_of_cons & Hp); [congruence | eauto].
Qed.

Lemma transaction_lines_elem (pages : list (option string)) line :
  line ∈ transaction_lines pages <->
  exists text, Some text ∈ pages /\ line ∈ split_sep NL text /\
               is_transaction_line line = true.
Proof.
  unfold transaction_lines. rewrite list_elem_of_In, in_flat_map. split.
  - intros ([text|] & Hp & Hl); [|inversion Hl].
    apply list_elem_of_In in Hp. exists text. split; [exact Hp|].
    destruct text as [|c text]; [inversion Hl|].
    apply list_elem_of_In, list_elem_of_filter in Hl as [H1 H2]. auto.
  - intros (text & Hp & Hl & Ht). exists (Some text).
    split; [apply list_elem_of_In, Hp|].
    destruct text as [|c text].
    + apply list_elem_of_singleton in Hl as ->. discriminate.
    + apply list_elem_of_In, list_elem_of_filter. auto.
Qed.

(** X3.  The rows of the parsed table are exactly the rows of the lines
    that pass both loops of [parse_phonepe_pdf]: a row is in the table
    if and only if some page has a text, one of the lines of that text
    is accepted by [is_transaction_line], and the [try] block returns
    that row for it.  A page without text gives nothing. *)
Theorem parsed_rows_are_the_accepted_lines (pages : list (option string)) (r : parsed_row) :
  r ∈ parse_rows (transaction_lines pages) <->
  exists text line,
    Some text ∈ pages /\ line ∈ split_sep NL text /\
    is_transaction_line line = true /\ parse_line line = Ok r.
Proof.
  rewrite parse_rows_elem_iff. split.
  - intros (line & (text & Hp & Hl & Ht)%transaction_lines_elem & Hr). eauto 10.
  - intros (text & line & Hp & Hl & Ht & Hr). exists line. split; [|exact Hr].
    apply transaction_lines_elem. eauto.
Qed.

(** ** The date of a row *)

Lemma strptime_calendar (date_str : string) d :
  strptime date_str = Ok d ->
  1 <= year d < 10000 /\ 1 <= month d <= 12 /\
  1 <= day d <= days_in_month (year d) (month d).
Proof.
  unfold strptime.
  destruct (_ && _) eqn:Hshape; [|discriminate].
  repeat (apply andb_true_iff in Hshape as [Hshape ?]).
  destruct (index_of _ month_abbr) as [i|] eqn:Hi; [|discriminate].
  destruct (_ && _) eqn:Hrange; [|discriminate].
  intros [= <-]. apply andb_true_iff in Hrange as [[Hy Hd1]%andb_true_iff Hd2].
  apply N.leb_le in Hy, Hd1, Hd2. apply index_of_bound in Hi. simpl in Hi.
  simpl.
  pose proof (int_of_digits_4 (substring 8 4 date_str)) as Hlt.
  rewrite Nat.eqb_eq in *. specialize (Hlt ltac:(assumption) ltac:(assumption)).
  lia.
Qed.

(** X4.  The date of a parsed row exists in the calendar: the year is
    1..9999, the month 1..12 and the day is at most the number of days
    of that month in that year (29 for February only in a leap year). *)
Theorem parsed_date_is_in_the_calendar (line : string) (r : parsed_row) :
  parse_line line = Ok r ->
  1 <= year (row_Date r) < 10000 /\
  1 <= month (row_Date r) <= 12 /\
  1 <= day (row_Date r) <= days_in_month (year (row_Date r)) (month (row_Date r)).
Proof.
  unfold parse_line, extract_date.
  destruct (re_search DATE_RE line) as [m|]; simpl; [|discriminate].
  destruct (strptime (fst m)) as [d|] eqn:Hd; simpl; [|discriminate].
  destruct (extract_name line); simpl; [|discriminate].
  destruct (extract_amount line); simpl; [|discriminate].
  intros [= <-]. simpl. eapply strptime_calendar, Hd.
Qed.

Lemma parsed_date_is_in_the_calendar_witness :
  1 <= 2024 < 10000 /\ 1 <= 2 <= 12 /\ 1 <= 29 <= days_in_month 2024 2.
Proof.
  apply (parsed_date_is_in_the_calendar
           "Feb 29, 2024 Paid to Shop Debit INR 450.00"
           (mkrow (mkdate 2024 2 29) "Shop" "Debit" 45000)).
  vm_compute. reflexivity.
Defined.

(** ** The amount *)

Lemma py_float_group_value (group cents : string) :
  all_chars is_digit_or_comma group = true -> word_of 2 is_digit cents ->
  py_float (remove_char "," (group +:+ "." +:+ cents))
  = Ok (100 * int_of_digits (remove_char "," group) + int_of_digits cents).
Proof.
  intros Hg [Hl Hd]. rewrite !remove_char_app, (remove_comma_digits cents Hd).
  change (remove_char "," ".") with ".".
  unfold py_float. rewrite split_point by (auto using remove_comma_group).
  rewrite remove_comma_group by exact Hg. rewrite Hd, Hl. reflexivity.
Qed.

Lemma int_of_digits_go_bound acc (s : string) :
  all_chars is_digit s = true ->
  int_of_digits_go acc s < (acc + 1) * 10 ^ N.of_nat (String.length s).
Proof.
  revert acc. induction s as [|c s IH]; intros acc H.
  - simpl. lia.
  - simpl in H. apply andb_true_iff in H as [Hc Hs].
    cbn [int_of_digits_go String.length]. specialize (IH (10 * acc + (code c - 48)) Hs).
    pose proof (digit_value c Hc) as Hd.
    rewrite Nat2N.inj_succ, N.pow_succ_r'. nia.
Qed.

Lemma int_of_digits_bound (s : string) :
  all_chars is_digit s = true -> int_of_digits s < 10 ^ N.of_nat (String.length s).
Proof. intros H. pose proof (int_of_digits_go_bound 0 s H). unfold int_of_digits. lia. Qed.

Lemma remove_char_length x (s : string) :
  (String.length (remove_char x s) <= String.length s)%nat.
Proof. induction s as [|c s IH]; simpl; [lia|]. destruct (Ascii.eqb c x); simpl; lia. Qed.

(** X5.  When the amount pattern [INR ([\d,]+\.\d{2})] matches a line,
    the group is a non-empty run of digits and commas, a point and two
    digits, and [float] never raises on it.  For a group of at most
    sixteen characters the amount is the number read from the group with
    every comma removed, wherever the commas stand, and it lies in the
    range in which a float is exactly its number of hundredths. *)
Theorem amount_ignores_commas (line : string) (m : string * string) :
  re_search AMOUNT_RE line = Some m ->
  exists group cents,
    amount_group1 m = group +:+ "." +:+ cents /\
    group <> "" /\ all_chars is_digit_or_comma group = true /\
    word_of 2 is_digit cents /\
    (exists x, extract_amount line = Ok x) /\
    ((String.length (amount_group1 m) <= 16)%nat ->
     extract_amount line
     = Ok (100 * int_of_digits (remove_char "," group) + int_of_digits cents) /\
     100 * int_of_digits (remove_char "," group) + int_of_digits cents < 10 ^ 15).
Proof.
  intros H. destruct (amount_group_shape line m H) as (g & c & Hg & Hne & Hgc & Hc).
  exists g, c. repeat (split; [assumption|]).
  assert (Hx : extract_amount line
               = Ok (100 * int_of_digits (remove_char "," g) + int_of_digits c)).
  { unfold extract_amount. rewrite H, Hg. apply py_float_group_value; assumption. }
  split; [eauto|]. intros Hlen. split; [exact Hx|].
  rewrite Hg, !length_app_s in Hlen. destruct Hc as [Hcl Hcd].
  cbn [String.length] in Hlen.
  pose proof (int_of_digits_bound _ (remove_comma_group g Hgc)) as Hi.
  pose proof (int_of_digits_bound c Hcd) as Hf. rewrite Hcl in Hf.
  pose proof (remove_char_length "," g) as Hl.
  assert (Hp : 10 ^ N.of_nat (String.length (remove_char "," g)) <= 10 ^ 13).
  { apply N.pow_le_mono_r; lia. }
  change (10 ^ N.of_nat 2) with 100 in Hf. change (10 ^ 15) with (100 * 10 ^ 13). lia.
Qed.

Lemma amount_ignores_commas_witness :
  extract_amount "Jan 15, 2024 Received from John Doe Credit INR 1,2,00.50 paid"
  = Ok 120050 /\ 120050 < 10 ^ 15.
Proof.
  destruct (amount_ignores_commas
              "Jan 15, 2024 Received from John Doe Credit INR 1,2,00.50 paid"
              ("INR 1,2,00.50", " paid"))
    as (g & c & Hg & _ & _ & _ & _ & Hx); [vm_compute; reflexivity|].
  destruct Hx as [Hx Hb]; [vm_compute; lia|].
  assert (E : extract_amount "Jan 15, 2024 Received from John Doe Credit INR 1,2,00.50 paid"
              = Ok 120050) by (vm_compute; reflexivity).
  rewrite E in Hx. injection Hx as Hx. split; [exact E | rewrite Hx; exact Hb].
Defined.

(** ** The extension of the uploaded file *)

Lemma split_dot_go_plain cur (s : string) :
  contains "." s = false ->
  split_sep_go "." 0 cur s = [String.rev (String.rev_app s cur)].
Proof.
  revert cur. induction s as [|c s IH]; intros cur H; [reflexivity|].
  cbn [contains] in H. apply orb_false_iff in H as [H1 H2].
  cbn [split_sep_go]. rewrite H1. cbn [String.rev_app]. apply IH, H2.
Qed.

Lemma last_split_dot cur (base ext : string) :
  contains "." ext = false ->
  List.last (split_sep_go "." 0 cur (base +:+ "." +:+ ext)) "" = ext.
Proof.
  intros Hext. revert cur. induction base as [|c base IH]; intros cur.
  - rewrite app_empty_l, split_point_go_point, split_dot_go_plain by exact Hext.
    cbn [List.last]. apply rev_rev_app.
  - rewrite app_cons. cbn [split_sep_go].
    destruct (starts_with "." _); [|apply IH].
    specialize (IH ""). cbn [String.length Nat.sub].
    destruct (split_sep_go_first "." 0 "" (base +:+ "." +:+ ext)) as (x & l & Hx).
    rewrite Hx in *. exact IH.
Qed.

(** X6.  The extension [main] branches on (line 211) is the text after
    the last dot of the file name, lowercased; a name without a dot is
    its own extension, so an upload called PDF is read as a pdf. *)
Theorem file_ext_is_after_the_last_dot (ext : string) :
  contains "." ext = false ->
  file_ext ext = lower ext /\
  forall base, file_ext (base +:+ "." +:+ ext) = lower ext.
Proof.
  intros Hext. unfold file_ext, split_sep. split.
  - rewrite split_dot_go_plain by exact Hext. cbn [List.last]. rewrite rev_rev_app. reflexivity.
  - intros base. rewrite last_split_dot by exact Hext. reflexivity.
Qed.

Lemma file_ext_is_after_the_last_dot_witness :
  file_ext "PDF" = "pdf" /\ file_ext "statement.2023.PDF" = "pdf".
Proof.
  destruct (file_ext_is_after_the_last_dot "PDF") as [H1 H2]; [reflexivity|].
  split; [exact H1 | exact (H2 "statement.2023")].
Defined.

(* ================================================================== *)
(** * Learning and the database, continued *)
(* ================================================================== *)

(** ** The shape of the keyword dict *)

Lemma kd_mem_keys k (d : kdict) : kd_mem k d = true <-> k ∈ map fst d.
Proof.
  induction d as [|[k' v] d IH]; simpl.
  - split; [discriminate | intros H; inversion H].
  - rewrite orb_true_iff, IH, elem_of_cons. split.
    + intros [H%String.eqb_eq | H]; [left; congruence | right; exact H].
    + intros [-> | H]; [left; apply String.eqb_refl | right; exact H].
Qed.

Lemma kd_set_ok k v (d : kdict) : NoDup v -> dict_ok d -> dict_ok (kd_set k v d).
Proof.
  intros Hv [Hk Hd]. split.
  - rewrite kd_keys_set. destruct (kd_mem k d) eqn:E; [exact Hk|].
    apply NoDup_app. split; [exact Hk|]. split; [|apply NoDup_singleton].
    intros x Hx ->%list_elem_of_singleton. apply kd_mem_keys in Hx. congruence.
  - clear Hk. induction d as [|[k' v'] d IH]; simpl.
    + repeat constructor. exact Hv.
    + apply Forall_cons in Hd as [H1 H2].
      destruct (String.eqb k' k); constructor; auto.
Qed.

Lemma kd_get_ok k (d : kdict) kws : dict_ok d -> kd_get k d = Ok kws -> NoDup kws.
Proof.
  intros [_ Hd]. induction d as [|[k' v] d IH]; simpl; [discriminate|].
  apply Forall_cons in Hd as [H1 H2].
  destruct (String.eqb k' k); [intros [= <-]; exact H1 | auto].
Qed.

Lemma add_word_ok new_cat (d : kdict) word : dict_ok d -> dict_ok (add_word new_cat d word).
Proof.
  intros Hd. unfold add_word. destruct (kd_get new_cat d) as [kws|] eqn:E; [|exact Hd].
  destruct (str_in word kws) eqn:Ein; [exact Hd|].
  apply kd_set_ok; [|exact Hd]. apply NoDup_app.
  split; [eapply kd_get_ok; eassumption|]. split; [|apply NoDup_singleton].
  intros x Hx ->%list_elem_of_singleton. apply str_in_spec in Hx. congruence.
Qed.

Lemma learn_ok new_cat name st :
  dict_ok (keyword_dict st) -> dict_ok (keyword_dict (learn new_cat name st).2).
Proof.
  intros Hd. rewrite learn_run. cbn [snd learned keyword_dict].
  assert (H0 : dict_ok (ensure_category new_cat (keyword_dict st))).
  { unfold ensure_category. destruct (kd_mem _ _); [exact Hd|].
    apply kd_set_ok; [constructor | exact Hd]. }
  revert H0. generalize (ensure_category new_cat (keyword_dict st)).
  induction (split_ws (lower name)) as [|w ws IH]; intros d0 H0; simpl; [exact H0|].
  apply IH, add_word_ok, H0.
Qed.

Lemma default_keywords_ok : dict_ok default_keywords.
Proof.
  split.
  - apply (bool_decide_unpack _). vm_compute. exact I.
  - repeat constructor; apply (bool_decide_unpack _); vm_compute; exact I.
Qed.

(** X7.  Whatever corrections a session learns, starting from the
    default keywords, the keyword dict stays a dict of lists without
    repeats: no category occurs twice and no keyword occurs twice in
    the list of a category (lines 256-257 test [not in] before adding a
    category, lines 265-266 before appending a word). *)
Theorem keyword_dict_stays_well_formed
    (calls : list (string * string)) (table : gmap string string) :
  dict_ok
    (keyword_dict
       (for_each calls (fun call => learn call.1 call.2) (session_start table)).2).
Proof.
  assert (H : dict_ok (keyword_dict (session_start table))) by apply default_keywords_ok.
  revert H. generalize (session_start table).
  induction calls as [|[c n] calls IH]; intros st H; [exact H|].
  cbn [for_each]. unfold bind. rewrite learn_run. cbn [fst snd].
  apply IH. pose proof (learn_ok c n st H) as H'. rewrite learn_run in H'. exact H'.
Qed.

(** ** What [learn] leaves alone *)

Lemma add_words_other new_cat words (d : kdict) c :
  c <> new_cat ->
  kd_get c (fold_left (add_word new_cat) words d) = kd_get c d.
Proof.
  intros Hne. revert d. induction words as [|w ws IH]; intros d; simpl; [reflexivity|].
  rewrite IH. unfold add_word. destruct (kd_get new_cat d) as [kws|]; [|reflexivity].
  destruct (str_in w kws); [reflexivity|]. apply kd_get_set_ne. congruence.
Qed.

(** X8.  One correction touches one category and one name: the keyword
    list of every other category, and the entry of every other key of
    the name map, are what they were; the tables and the database are
    not written. *)
Theorem learn_touches_one_category (new_cat name : string) (st : Store) :
  let st' := (learn new_cat name st).2 in
  (forall c, c <> new_cat ->
     kd_get c (keyword_dict st') = kd_get c (keyword_dict st)) /\
  (forall other, other <> lower name ->
     name_to_category st' !! other = name_to_category st !! other) /\
  frames st' = frames st /\ db st' = db st.
Proof.
  rewrite learn_run. cbn [snd learned keyword_dict name_to_category frames db].
  split; [|split; [|split; reflexivity]].
  - intros c Hne. rewrite add_words_other by exact Hne.
    unfold ensure_category. destruct (kd_mem _ _); [reflexivity|].
    apply kd_get_set_ne. congruence.
  - intros other Hne. apply lookup_insert_ne. congruence.
Qed.

(** X9.  A correction of a parsed name sticks: after the loop body has
    learned category [new_cat] for the name of a parsed row, every name
    that differs from it only in case and in white space at the ends is
    categorized as [new_cat], whatever the keywords say. *)
Theorem correction_of_parsed_name_sticks
    (line : string) (row : parsed_row) (new_cat other : string) (st : Store) :
  parse_line line = Ok row ->
  strip (lower other) = strip (lower (row_Name row)) ->
  let st' := (learn new_cat (row_Name row) st).2 in
  categorize_name (keyword_dict st') (name_to_category st') (CStr other) = Ok new_cat.
Proof.
  intros Hp Ho st'.
  assert (Hn : strip (lower (row_Name row)) = lower (row_Name row)).
  { rewrite strip_lower. f_equal. eapply extract_name_trimmed, parse_line_name, Hp. }
  destruct (learn_effects new_cat (row_Name row) st) as (_ & Hm & _).
  fold st' in Hm. simpl. rewrite Ho, Hn, Hm. reflexivity.
Qed.

Lemma correction_of_parsed_name_sticks_witness :
  let st' := (learn "Rent" "Zomato Online" empty_store).2 in
  categorize_name (keyword_dict st') (name_to_category st') (CStr "  ZOMATO online ")
  = Ok "Rent".
Proof.
  apply (correction_of_parsed_name_sticks
           "Jul 04, 2023 Paid to Zomato Online Debit INR 450.00"
           (mkrow (mkdate 2023 7 4) "Zomato Online" "Debit" 45000)
           "Rent" "  ZOMATO online " empty_store).
  - vm_compute. reflexivity.
  - vm_compute. reflexivity.
Defined.

(** ** The guard of the learning loop *)

Lemma cell_eqb_refl c : cell_eqb c c = true.
Proof.
  destruct c as [d|s|x]; simpl.
  - rewrite !N.eqb_refl. reflexivity.
  - apply String.eqb_refl.
  - apply N.eqb_refl.
Qed.

(** X10.  The guard of line 252: a row whose category is unchanged, or
    was edited to a blank text, teaches nothing.  The loop body returns
    without a change to the store and does not mark the run changed. *)
Theorem same_or_blank_category_is_ignored
    (df edited : DataFrame) (i : nat) (old new name : cell) (st : Store) :
  iloc df i "Category" = Ok old ->
  iloc edited i "Category" = Ok new ->
  iloc edited i "Name" = Ok name ->
  new = old \/ (exists s, new = CStr s /\ strip s = "") ->
  learn_row df edited i st = (Ok false, st).
Proof.
  intros Ho Hn Hname Hcase. unfold learn_row, bind, lift. rewrite Ho, Hn, Hname.
  destruct Hcase as [-> | (s & -> & Hs)].
  - rewrite cell_eqb_refl. reflexivity.
  - destruct (cell_eqb (CStr s) old); [reflexivity|]. simpl. rewrite Hs. reflexivity.
Qed.

Lemma same_or_blank_category_is_ignored_witness :
  learn_row [("Name", [CStr "Shop"]); ("Category", [CStr "Other"])]
            [("Name", [CStr "Shop"]); ("Category", [CStr "   "])] 0 empty_store
  = (Ok false, empty_store).
Proof.
  apply (same_or_blank_category_is_ignored _ _ 0 (CStr "Other") (CStr "   ") (CStr "Shop")).
  - reflexivity.
  - reflexivity.
  - reflexivity.
  - right. exists "   ". split; reflexivity.
Defined.

(** X11.  A changed category that is not a string stops the loop: the
    guard of line 252 raises [AttributeError] at [new_cat.strip()],
    before anything has been learned, so the store is as it was. *)
Theorem non_string_edit_raises
    (df edited : DataFrame) (i : nat) (old new name : cell) (st : Store) :
  iloc df i "Category" = Ok old ->
  iloc edited i "Category" = Ok new ->
  iloc edited i "Name" = Ok name ->
  cell_eqb new old = false ->
  is_str new = false ->
  learn_row df edited i st = (Raise AttributeError, st).
Proof.
  intros Ho Hn Hname Hne Hs. unfold learn_row, bind, lift. rewrite Ho, Hn, Hname, Hne.
  destruct new; try discriminate; reflexivity.
Qed.

Lemma non_string_edit_raises_witness :
  learn_row [("Name", [CStr "Shop"]); ("Category", [CStr "Other"])]
            [("Name", [CStr "Shop"]); ("Category", [CFloat 0])] 0 empty_store
  = (Raise AttributeError, empty_store).
Proof.
  apply (non_string_edit_raises _ _ 0 (CStr "Other") (CFloat 0) (CStr "Shop")).
  - reflexivity.
  - reflexivity.
  - reflexivity.
  - reflexivity.
  - reflexivity.
Defined.

(** X23.  A changed row whose name is not a string raises
    [AttributeError] at [name.lower()] (line 260), after line 257 has
    run: the new category is in the keyword dict, with no keyword when
    it was not there before, and nothing else has changed.  No name is
    learned and the row's words are not added. *)
Theorem non_string_name_raises_after_the_category
    (df edited : DataFrame) (i : nat) (old name : cell) (new_cat : string) (st : Store) :
  iloc df i "Category" = Ok old ->
  iloc edited i "Category" = Ok (CStr new_cat) ->
  iloc edited i "Name" = Ok name ->
  cell_eqb (CStr new_cat) old = false ->
  strip new_cat <> "" ->
  is_str name = false ->
  exists st',
    learn_row df edited i st = (Raise AttributeError, st') /\
    kd_mem new_cat (keyword_dict st') = true /\
    (kd_mem new_cat (keyword_dict st) = false ->
     kd_get new_cat (keyword_dict st') = Ok []) /\
    (kd_mem new_cat (keyword_dict st) = true -> keyword_dict st' = keyword_dict st) /\
    (forall c, c <> new_cat ->
       kd_get c (keyword_dict st') = kd_get c (keyword_dict st)) /\
    name_to_category st' = name_to_category st /\
    frames st' = frames st /\ db st' = db st.
Proof.
  intros Ho Hn Hname Hne Hs Hnm. rewrite learn_row_run, Ho, Hn, Hname, Hne.
  destruct (strip new_cat) eqn:E; [contradiction|].
  rewrite add_category_run. cbn [snd].
  destruct name as [d|n|x]; try discriminate;
    (eexists; split; [reflexivity|]; cbn [keyword_dict name_to_category frames db];
     split; [apply ensure_category_mem|];
     unfold ensure_category;
     split; [intros ->; apply kd_get_set_eq|];
     split; [intros ->; reflexivity|];
     split; [|auto];
     intros c Hc; destruct (kd_mem new_cat (keyword_dict st)); [reflexivity|];
     apply kd_get_set_ne; congruence).
Qed.

Lemma non_string_name_raises_after_the_category_witness :
  exists st',
    learn_row [("Name", [CFloat 12]); ("Category", [CStr "Other"])]
              [("Name", [CFloat 12]); ("Category", [CStr "Rent"])] 0 empty_store
    = (Raise AttributeError, st') /\
    kd_get "Rent" (keyword_dict st') = Ok [] /\
    name_to_category st' = name_to_category empty_store.
Proof.
  destruct (non_string_name_raises_after_the_category
              [("Name", [CFloat 12]); ("Category", [CStr "Other"])]
              [("Name", [CFloat 12]); ("Category", [CStr "Rent"])]
              0 (CStr "Other") (CFloat 12) "Rent" empty_store)
    as (st' & Hrun & _ & Hnew & _ & _ & Hmap & _).
  - reflexivity.
  - reflexivity.
  - reflexivity.
  - reflexivity.
  - discriminate.
  - reflexivity.
  - exists st'. split; [exact Hrun|]. split; [apply Hnew; reflexivity | exact Hmap].
Defined.

(** ** The table of the database *)

Lemma upsert_rows_union (rows : list (string * string)) (table : gmap string string) :
  NoDup (map fst rows) ->
  upsert_rows rows table = list_to_map rows ∪ table.
Proof.
  unfold upsert_rows. revert table.
  induction rows as [|[k v] rows IH]; intros table Hnd; simpl.
  - rewrite (left_id_L ∅ (∪)). reflexivity.
  - apply NoDup_cons in Hnd as [Hk Hnd]. rewrite IH by exact Hnd.
    rewrite <- insert_union_l. symmetry. apply insert_union_r.
    apply not_elem_of_list_to_map_1. exact Hk.
Qed.

(** X12.  [save_name_category_map] is the row-by-row upsert of lines
    47-52, in whatever order [items()] lists the entries: afterwards
    the table holds every entry of the dict with the dict's category,
    every other name of the table keeps its category (no row is ever
    deleted), and the session state is not touched. *)
Theorem save_upserts_every_entry
    (name_category_dict : gmap string string) (rows : list (string * string))
    (st : Store) :
  NoDup (map fst rows) ->
  list_to_map rows = name_category_dict ->
  let st' := (save_name_category_map name_category_dict st).2 in
  db st' = upsert_rows rows (db st) /\
  (forall name category,
      name_category_dict !! name = Some category -> db st' !! name = Some category) /\
  (forall name, name_category_dict !! name = None -> db st' !! name = db st !! name) /\
  keyword_dict st' = keyword_dict st /\
  name_to_category st' = name_to_category st /\
  frames st' = frames st.
Proof.
  intros Hnd Hm. cbn. rewrite upsert_rows_union, Hm by exact Hnd.
  split; [reflexivity|]. split; [|split; [|auto]].
  - intros name category H. apply lookup_union_Some_l, H.
  - intros name H. apply lookup_union_r, H.
Qed.

Lemma save_upserts_every_entry_witness :
  let st := session_start (<["shop" := "Other"]> (<["john doe" := "Other"]> ∅)) in
  let st' := (save_name_category_map (<["john doe" := "Rent"]> ∅) st).2 in
  db st' !! "john doe" = Some "Rent" /\ db st' !! "shop" = Some "Other".
Proof.
  cbv zeta.
  destruct (save_upserts_every_entry (<["john doe" := "Rent"]> ∅) [("john doe", "Rent")]
              (session_start (<["shop" := "Other"]> (<["john doe" := "Other"]> ∅))))
    as (_ & H1 & H2 & _).
  - repeat constructor. set_solver.
  - vm_compute. reflexivity.
  - split.
    + apply H1. vm_compute. reflexivity.
    + rewrite H2 by (vm_compute; reflexivity). vm_compute. reflexivity.
Defined.

(** ** The words of a corrected name *)

(** X13.  Every white-space separated word of the lower-cased name of
    a correction is a keyword of the corrected category afterwards. *)
Theorem learn_adds_every_word (new_cat name word : string) (st : Store) :
  word ∈ split_ws (lower name) ->
  exists kws,
    kd_get new_cat (keyword_dict (learn new_cat name st).2) = Ok kws /\
    word ∈ kws.
Proof.
  intros Hw. destruct (learn_effects new_cat name st) as (Hk & _).
  eexists. split; [exact Hk|]. apply add_tokens_all, Hw.
Qed.

Lemma learn_adds_every_word_witness :
  exists kws,
    kd_get "Rent" (keyword_dict (learn "Rent" "John  DOE" empty_store).2) = Ok kws /\
    "doe" ∈ kws.
Proof.
  apply (learn_adds_every_word "Rent" "John  DOE" "doe" empty_store).
  vm_compute. right. left.
Defined.

(* ================================================================== *)
(** * Categorization and the download, continued *)
(* ================================================================== *)

(** ** More on [categorize_transactions] *)

Lemma rmap_list_inv {A B} (f : A -> result B) (l : list A) ys :
  rmap_list f l = Ok ys -> Forall2 (fun x y => f x = Ok y) l ys.
Proof.
  revert ys. induction l as [|x l IH]; intros ys; simpl.
  - intros [= <-]. constructor.
  - destruct (f x) as [y|] eqn:E; simpl; [|discriminate].
    destruct (rmap_list f l) as [ys'|]; simpl; [|discriminate].
    intros [= <-]. constructor; auto.
Qed.

Lemma first_matching_category_key (items : kdict) (s c : string) :
  first_matching_category items s = Some c -> c ∈ map fst items.
Proof.
  induction items as [|[k v] items IH]; simpl; [discriminate|].
  destruct (any_keyword_in v s); [intros [= <-]; left | intros H; right; auto].
Qed.

Lemma categorize_name_known ruleset name_map name c :
  categorize_name ruleset name_map name = Ok c -> known_category ruleset name_map c.
Proof.
  destruct name as [d|s|x]; simpl; try discriminate.
  destruct (name_map !! _) as [c'|] eqn:E.
  - intros [= <-]. left. eauto.
  - destruct (first_matching_category _ _) as [c'|] eqn:E'; intros [= <-].
    + right. left. eapply first_matching_category_key, E'.
    + right. right. reflexivity.
Qed.

(** X15.  When [categorize_transactions] returns, the table has a
    Category column with one string per name, and every category in it
    is a value of the name map, a category of the keyword dict, or
    "Other": categorization never invents a category. *)
Theorem written_categories_are_known
    (df : nat) (ruleset : kdict) (name_map : gmap string string)
    (st st' : Store) (a : nat) :
  categorize_transactions df ruleset name_map st = (Ok a, st') ->
  exists frame names categories,
    frames st' !! df = Some frame /\
    get_column "Name" frame = Ok names /\
    get_column "Category" frame = Ok (map CStr categories) /\
    length categories = length names /\
    Forall (known_category ruleset name_map) categories.
Proof.
  intros H.
  destruct (categorize_transactions_cases ruleset name_map df st)
    as [[e He] | (frame & names & cs & Hf & Hn & Hc & He)]; rewrite He in H; [discriminate|].
  injection H as <- <-. exists (set_column "Category" (map CStr cs) frame), names, cs.
  split; [apply with_category_frame|].
  split; [rewrite get_column_set_column_ne by discriminate; exact Hn|].
  split; [apply get_column_set_column_eq|].
  apply rmap_list_inv in Hc. split.
  - symmetry. eapply Forall2_length, Hc.
  - clear -Hc. induction Hc as [|x y l l' Hxy _ IH]; constructor; [|exact IH].
    eapply categorize_name_known, Hxy.
Qed.

Lemma written_categories_are_known_witness :
  exists frame names categories,
    frames (with_category 0 ["Food"] example_frame example_store) !! 0%nat = Some frame /\
    get_column "Name" frame = Ok names /\
    get_column "Category" frame = Ok (map CStr categories) /\
    length categories = length names /\
    Forall (known_category default_keywords ∅) categories.
Proof.
  apply (written_categories_are_known 0 default_keywords ∅ example_store _ 0).
  vm_compute. reflexivity.
Defined.

Lemma set_column_labels label values (df : DataFrame) :
  (label ∈ map fst df -> map fst (set_column label values df) = map fst df) /\
  (label ∉ map fst df -> map fst (set_column label values df) = map fst df ++ [label]).
Proof.
  induction df as [|[l col] df [IH1 IH2]]; simpl.
  - split; [intros H; inversion H | reflexivity].
  - destruct (String.eqb_spec l label) as [->|Hne]; simpl.
    + split; [reflexivity | intros H; exfalso; apply H; left].
    + split.
      * intros [->|H]%elem_of_cons; [contradiction|]. rewrite IH1 by exact H. reflexivity.
      * intros H. rewrite IH2; [reflexivity|]. intros H'. apply H. right. exact H'.
Qed.

(** X16.  [categorize_transactions] returns the table it was given
    (the same object), with the same columns in the same order: a
    Category column that was there stays in its place, and one that was
    not is added as the last column. *)
Theorem categorize_keeps_the_columns
    (df : nat) (ruleset : kdict) (name_map : gmap string string)
    (st st' : Store) (a : nat) (frame : DataFrame) :
  frames st !! df = Some frame ->
  categorize_transactions df ruleset name_map st = (Ok a, st') ->
  a = df /\
  exists frame',
    frames st' !! df = Some frame' /\
    ("Category" ∈ map fst frame -> map fst frame' = map fst frame) /\
    ("Category" ∉ map fst frame -> map fst frame' = map fst frame ++ ["Category"]).
Proof.
  intros Hf H.
  destruct (categorize_transactions_cases ruleset name_map df st)
    as [[e He] | (frame0 & names & cs & Hf0 & Hn & Hc & He)]; rewrite He in H; [discriminate|].
  injection H as <- <-. rewrite Hf in Hf0. injection Hf0 as <-.
  split; [reflexivity|]. eexists. split; [apply with_category_frame|].
  apply set_column_labels.
Qed.

Lemma categorize_keeps_the_columns_witness :
  exists frame',
    frames (with_category 0 ["Food"] example_frame example_store) !! 0%nat = Some frame' /\
    map fst frame' = map fst example_frame ++ ["Category"].
Proof.
  destruct (categorize_keeps_the_columns 0 default_keywords ∅ example_store
              (with_category 0 ["Food"] example_frame example_store) 0 example_frame)
    as (_ & frame' & Hf & _ & Hlast).
  - vm_compute. reflexivity.
  - vm_compute. reflexivity.
  - exists frame'. split; [exact Hf|]. apply Hlast.
    vm_compute. intros H. repeat (apply elem_of_cons in H as [H|H]; [discriminate|]).
    inversion H.
Defined.

Lemma get_column_raises label (df : DataFrame) e :
  get_column label df = Raise e -> e = KeyError.
Proof.
  induction df as [|[l col] df IH]; simpl; [congruence|].
  destruct (String.eqb l label); [discriminate | exact IH].
Qed.

Lemma rmap_list_non_str ruleset name_map (names : list cell) :
  Exists (fun c => is_str c = false) names ->
  rmap_list (categorize_name ruleset name_map) names = Raise AttributeError.
Proof.
  induction 1 as [c l Hc | c l _ IH]; simpl.
  - destruct c; try discriminate; reflexivity.
  - destruct c as [d|s|x]; try reflexivity.
    destruct (categorize_name_str ruleset name_map (CStr s) eq_refl) as [y ->].
    simpl. rewrite IH. reflexivity.
Qed.

(** X17.  How [categorize_transactions] fails on a table: with
    [KeyError] when there is no Name column, with [AttributeError] when
    some name is not a string (at [name.lower()]), and in no other way;
    when it raises, no table was written. *)
Theorem categorize_raises_and_writes_nothing
    (df : nat) (ruleset : kdict) (name_map : gmap string string)
    (st : Store) (frame : DataFrame) :
  frames st !! df = Some frame ->
  (forall e, get_column "Name" frame = Raise e ->
     categorize_transactions df ruleset name_map st = (Raise KeyError, st)) /\
  (forall names, get_column "Name" frame = Ok names ->
     Exists (fun c => is_str c = false) names ->
     categorize_transactions df ruleset name_map st = (Raise AttributeError, st)) /\
  (forall e st', categorize_transactions df ruleset name_map st = (Raise e, st') ->
     st' = st /\ (e = KeyError \/ e = AttributeError)).
Proof.
  intros Hf. unfold categorize_transactions, bind, read_frame, lift. rewrite Hf.
  split; [|split].
  - intros e He. rewrite He. f_equal. f_equal. eapply get_column_raises, He.
  - intros names Hn Hex. rewrite Hn, rmap_list_non_str by exact Hex. reflexivity.
  - intros e st'. destruct (get_column "Name" frame) as [names|e0] eqn:Hn.
    + destruct (rmap_list _ names) as [cs|e1] eqn:Hc; [discriminate|].
      intros [= <- <-]. split; [reflexivity|].
      assert (Hex : Exists (fun c => is_str c = false) names).
      { clear -Hc. revert e1 Hc. induction names as [|c names IH]; intros e1; simpl; [discriminate|].
        destruct c as [d|s|x]; try (intros _; left; reflexivity).
        destruct (categorize_name ruleset name_map (CStr s)) as [y|] eqn:E; simpl.
        - destruct (rmap_list _ names) as [ys|e2] eqn:E2; simpl; [discriminate|].
          intros _. right. eapply IH. reflexivity.
        - simpl in E. destruct (name_map !! _); [discriminate|].
          destruct (first_matching_category _ _); discriminate. }
      rewrite rmap_list_non_str in Hc by exact Hex. injection Hc as <-. right. reflexivity.
    + intros [= <- <-]. split; [reflexivity|]. left. eapply get_column_raises, Hn.
Qed.

Lemma categorize_raises_and_writes_nothing_witness :
  let st := mkStore (<[0%nat := [("Name", [CStr "Shop"; CFloat 12])]]> ∅) 1
                    default_keywords ∅ ∅ in
  categorize_transactions 0 default_keywords ∅ st = (Raise AttributeError, st).
Proof.
  cbv zeta.
  destruct (categorize_raises_and_writes_nothing 0 default_keywords ∅
              (mkStore (<[0%nat := [("Name", [CStr "Shop"; CFloat 12])]]> ∅) 1
                       default_keywords ∅ ∅)
              [("Name", [CStr "Shop"; CFloat 12])])
    as (_ & H & _); [vm_compute; reflexivity|].
  apply (H [CStr "Shop"; CFloat 12]); [reflexivity|]. right. left. reflexivity.
Defined.

(** ** The shape of the download *)

Lemma rows_of_width n (cols : list (list string)) :
  length (rows_of n cols) = n /\
  Forall (fun row => length row = length cols) (rows_of n cols).
Proof.
  revert cols. induction n as [|n IH]; intros cols; simpl; [split; [reflexivity | constructor]|].
  destruct (IH (map (@tail string) cols)) as [H1 H2]. split; [congruence|].
  constructor; [apply length_map|]. rewrite length_map in H2. exact H2.
Qed.

(** X18.  The download of any table has one line for the header and
    one per row, and every line has exactly one field per column. *)
Theorem to_csv_shape (df : DataFrame) :
  length (to_csv df) = S (nrows df) /\
  Forall (fun row => length row = length df) (to_csv df).
Proof.
  unfold to_csv.
  destruct (rows_of_width (nrows df) (map (fun '(_, col) => map cell_text col) df)) as [H1 H2].
  split; [simpl; congruence|]. constructor; [apply length_map|].
  rewrite length_map in H2. exact H2.
Qed.

(* ================================================================== *)
(** * Runs of [main], continued *)
(* ================================================================== *)

(** ** The session state through a run *)

Lemma same_session_refl st : same_session st st.
Proof. repeat split. Qed.

Lemma same_session_trans s1 s2 s3 :
  same_session s1 s2 -> same_session s2 s3 -> same_session s1 s3.
Proof. intros (A1 & A2 & A3) (B1 & B2 & B3). repeat split; congruence. Qed.

Lemma keeps_session_ret {A} (a : A) : keeps_session (ret a).
Proof. intros st. apply same_session_refl. Qed.

Lemma keeps_session_lift {A} (r : result A) : keeps_session (lift r).
Proof. intros st. apply same_session_refl. Qed.

Lemma keeps_session_new_frame df : keeps_session (new_frame df).
Proof. intros st. repeat split. Qed.

Lemma keeps_session_read_frame a : keeps_session (read_frame a).
Proof. intros st. unfold read_frame. destruct (frames st !! a); apply same_session_refl. Qed.

Lemma keeps_session_get_keyword_dict : keeps_session get_keyword_dict.
Proof. intros st. apply same_session_refl. Qed.

Lemma keeps_session_get_name_to_category : keeps_session get_name_to_category.
Proof. intros st. apply same_session_refl. Qed.

Lemma keeps_session_categorize df ruleset name_map :
  keeps_session (categorize_transactions df ruleset name_map).
Proof.
  intros st.
  destruct (categorize_transactions_cases ruleset name_map df st)
    as [[e He] | (frame & names & cs & _ & _ & _ & He)]; rewrite He.
  - apply same_session_refl.
  - repeat split.
Qed.

(** A [bind] keeps the session when its first computation does and the
    rest does for every value the first can return. *)
Lemma keeps_session_bind_when {A B} (P : A -> Prop) (m : M A) (k : A -> M B) :
  (forall st r s, m st = (r, s) -> same_session st s /\ forall a, r = Ok a -> P a) ->
  (forall a, P a -> keeps_session (k a)) ->
  keeps_session (bind m k).
Proof.
  intros Hm Hk st. unfold bind. destruct (m st) as [[a|e] s] eqn:E.
  - destruct (Hm st _ _ E) as [Hs Hp].
    eapply same_session_trans; [exact Hs | apply Hk, Hp; reflexivity].
  - apply (Hm st _ _ E).
Qed.

Lemma keeps_session_bind {A B} (m : M A) (k : A -> M B) :
  keeps_session m -> (forall a, keeps_session (k a)) -> keeps_session (bind m k).
Proof.
  intros Hm Hk. apply (keeps_session_bind_when (fun _ => True)); [|auto].
  intros st r s E. split; [|auto]. specialize (Hm st). rewrite E in Hm. exact Hm.
Qed.

Create HintDb session.
#[local] Hint Resolve keeps_session_ret keeps_session_lift keeps_session_new_frame
  keeps_session_read_frame keeps_session_get_keyword_dict
  keeps_session_get_name_to_category keeps_session_categorize : session.

(** ** A run in which no category is edited *)

Lemma learn_row_unedited df edited i st r st' :
  iloc edited i "Category" = iloc df i "Category" ->
  learn_row df edited i st = (r, st') ->
  st' = st /\ forall b, r = Ok b -> b = false.
Proof.
  intros Hsame. unfold learn_row, bind, lift. rewrite Hsame.
  destruct (iloc df i "Category") as [old|]; [|intros [= <- <-]; split; [auto | discriminate]].
  destruct (iloc edited i "Name") as [name|]; [|intros [= <- <-]; split; [auto | discriminate]].
  rewrite cell_eqb_refl. intros [= <- <-]. split; [reflexivity|]. intros b [= <-]. reflexivity.
Qed.

Lemma learn_rows_unedited df edited rows st r st' :
  (forall i, iloc edited i "Category" = iloc df i "Category") ->
  learn_rows df edited rows false st = (r, st') ->
  st' = st /\ forall b, r = Ok b -> b = false.
Proof.
  intros Hsame. revert st. induction rows as [|i rows IH]; intros st; simpl.
  - intros [= <- <-]. split; [reflexivity|]. intros b [= <-]. reflexivity.
  - unfold bind. destruct (learn_row df edited i st) as [[b|e] s] eqn:E.
    + destruct (learn_row_unedited _ _ _ _ _ _ (Hsame i) E) as [-> Hb].
      rewrite (Hb b eq_refl). apply IH.
    + destruct (learn_row_unedited _ _ _ _ _ _ (Hsame i) E) as [-> _].
      intros [= <- <-]. split; [reflexivity | discriminate].
Qed.

Lemma bind_cases {A B} (m : M A) (k : A -> M B) st r st' :
  bind m k st = (r, st') ->
  (exists e, m st = (Raise e, st') /\ r = Raise e) \/
  (exists a s, m st = (Ok a, s) /\ k a s = (r, st')).
Proof.
  unfold bind. destruct (m st) as [[a|e] s]; [eauto|].
  intros [= <- <-]. left. eauto.
Qed.

Lemma run_session {A} (m : M A) st s r s' :
  keeps_session m -> same_session st s -> m s = (r, s') -> same_session st s'.
Proof.
  intros Hm Hs E. eapply same_session_trans; [exact Hs|].
  specialize (Hm s). rewrite E in Hm. exact Hm.
Qed.

(** One step through a run, whatever it returned: either the first
    computation of the [bind] raised, and the goal is closed by the
    session it kept, or it returned [a] in store [s]. *)
Ltac session_step H Hacc a s E :=
  apply bind_cases in H as [(? & E & ->) | (a & s & E & H)];
  [ refine (run_session _ _ _ _ _ _ Hacc E); solve [auto with session]
  | let Hnew := fresh "Hs" in
    assert (Hnew := fun K => run_session _ _ _ _ _ K Hacc E);
    specialize (Hnew ltac:(solve [auto with session]));
    clear Hacc; rename Hnew into Hacc ].

(** X19.  A run in which the editor hands back every category as it
    was shown learns nothing and saves nothing, whether it completes or
    raises: the keyword dict, the name map and the database are as
    before the run. *)
Theorem unedited_categories_teach_nothing
    (data_editor : DataFrame -> DataFrame) (df : DataFrame) (st : Store) :
  (forall shown i, iloc (data_editor shown) i "Category" = iloc shown i "Category") ->
  same_session st (main_loaded data_editor df st).2.
Proof.
  intros Hed. destruct (main_loaded data_editor df st) as [r st'] eqn:H. cbn [snd].
  pose proof (same_session_refl st) as Hacc.
  unfold main_loaded in H. destruct (df_empty df).
  { refine (run_session _ _ _ _ _ _ Hacc H). auto with session. }
  session_step H Hacc direction s1 E1.
  session_step H Hacc debits s2 E2.
  session_step H Hacc d s3 E3.
  session_step H Hacc m s4 E4.
  session_step H Hacc a s5 E5.
  session_step H Hacc shown s6 E6.
  session_step H Hacc e0 s7 E7.
  session_step H Hacc e1 s8 E8.
  session_step H Hacc edited s9 E9.
  assert (Hedited : edited = data_editor shown).
  { unfold new_frame in E8. injection E8 as <- <-. unfold read_frame in E9.
    cbn [frames] in E9. rewrite lookup_insert_eq in E9. injection E9 as <- _. reflexivity. }
  subst edited.
  apply bind_cases in H as [(e & E & ->) | (changed & s10 & E & H)].
  { apply learn_rows_unedited in E as [-> _]; [exact Hacc | apply Hed]. }
  apply learn_rows_unedited in E as [-> Hb]; [|apply Hed].
  rewrite (Hb changed eq_refl) in H.
  session_step H Hacc e2 s11 E11.
  session_step H Hacc final s12 E12.
  refine (run_session _ _ _ _ _ _ Hacc H). auto with session.
Qed.

Lemma unedited_categories_teach_nothing_witness :
  same_session empty_store
    (main_loaded example_editor (parse_phonepe_pdf example_statement) empty_store).2.
Proof.
  apply (unedited_categories_teach_nothing example_editor
           (parse_phonepe_pdf example_statement) empty_store).
  intros shown i. reflexivity.
Defined.

(** ** What a completed run leaves in the database *)

Lemma learn_row_false df edited i st s :
  learn_row df edited i st = (Ok false, s) -> s = st.
Proof.
  rewrite learn_row_run.
  destruct (iloc df i "Category") as [old|]; [|discriminate].
  destruct (iloc edited i "Category") as [new|]; [|discriminate].
  destruct (iloc edited i "Name") as [name|]; [|discriminate].
  destruct (cell_eqb new old); [intros [= <-]; reflexivity|].
  destruct new as [d|c|x]; try discriminate.
  destruct (strip c); [intros [= <-]; reflexivity|].
  destruct name; discriminate.
Qed.

Lemma learn_rows_true df edited rows st b st' :
  learn_rows df edited rows true st = (Ok b, st') -> b = true.
Proof.
  revert st. induction rows as [|i rows IH]; intros st; simpl.
  - intros [= <- _]. reflexivity.
  - unfold bind. destruct (learn_row df edited i st) as [[c|e] s]; [|discriminate].
    apply IH.
Qed.

Lemma learn_rows_false df edited rows changed st st' :
  learn_rows df edited rows changed st = (Ok false, st') -> st' = st.
Proof.
  revert changed st. induction rows as [|i rows IH]; intros changed st; simpl.
  - intros [= _ <-]. reflexivity.
  - unfold bind. destruct (learn_row df edited i st) as [[b|e] s] eqn:E; [|discriminate].
    intros H. destruct b.
    + rewrite orb_true_r in H. apply learn_rows_true in H. discriminate.
    + apply IH in H as ->. apply learn_row_false in E. exact E.
Qed.

Lemma learn_row_names df edited i st r st' :
  learn_row df edited i st = (r, st') ->
  db st' = db st /\ dom (name_to_category st) ⊆ dom (name_to_category st').
Proof.
  rewrite learn_row_run.
  destruct (iloc df i "Category") as [old|]; [|intros [= <- <-]; auto].
  destruct (iloc edited i "Category") as [new|]; [|intros [= <- <-]; auto].
  destruct (iloc edited i "Name") as [name|]; [|intros [= <- <-]; auto].
  destruct (cell_eqb new old); [intros [= <- <-]; auto|].
  destruct new as [d|c|x]; try (intros [= <- <-]; auto).
  destruct (strip c); [intros [= <- <-]; auto|].
  destruct name as [d|n|x]; try (rewrite add_category_run; intros [= <- <-]; auto).
  intros [= <- <-]. split; [reflexivity|].
  cbn. rewrite dom_insert_L. set_solver.
Qed.

Lemma learn_rows_names df edited rows changed st r st' :
  learn_rows df edited rows changed st = (r, st') ->
  db st' = db st /\ dom (name_to_category st) ⊆ dom (name_to_category st').
Proof.
  revert changed st. induction rows as [|i rows IH]; intros changed st; simpl.
  - intros [= <- <-]. auto.
  - unfold bind. destruct (learn_row df edited i st) as [[b|e] s] eqn:E.
    + intros H. apply learn_row_names in E as [E1 E2]. destruct (IH _ _ H) as [H1 H2].
      split; [congruence | etrans; [exact E2 | exact H2]].
    + intros [= <- <-]. eapply learn_row_names, E.
Qed.

Lemma union_covered (m1 m2 : gmap string string) : dom m2 ⊆ dom m1 -> m1 ∪ m2 = m1.
Proof.
  intros Hd. apply map_eq. intros k. rewrite lookup_union.
  destruct (m1 !! k) as [v|] eqn:E1; [destruct (m2 !! k); reflexivity|].
  destruct (m2 !! k) as [w|] eqn:E2; [|reflexivity].
  exfalso. apply not_elem_of_dom in E1. apply E1, Hd. apply elem_of_dom. eauto.
Qed.

(** One step through a run that returned, keeping track of the session:
    the first computation of the [bind] returned [a] in store [s]. *)
Ltac kept_step H Hacc a s :=
  let E := fresh "E" in
  bind_step H a s E;
  let Hnew := fresh "Hs" in
  assert (Hnew := fun K => run_session _ _ _ _ _ K Hacc E);
  specialize (Hnew ltac:(solve [auto with session]));
  clear Hacc E; rename Hnew into Hacc.

(** X20.  A run that completes on a session whose name map is what the
    database holds leaves them equal again: every name learned in the
    run has been saved, so the next session loads ([load_name_category_map],
    line 206) exactly the name map this one ended with. *)
Theorem completed_run_is_persisted
    (data_editor : DataFrame -> DataFrame) (df : DataFrame)
    (st st' : Store) (res : option Shown) :
  synced st ->
  main_loaded data_editor df st = (Ok res, st') ->
  synced st' /\
  name_to_category (session_start (db st')) = name_to_category st'.
Proof.
  intros Hsync H. enough (Hs : synced st') by (split; [exact Hs | symmetry; exact Hs]).
  pose proof (same_session_refl st) as Hacc.
  unfold main_loaded in H. destruct (df_empty df); [injection H as _ <-; exact Hsync|].
  kept_step H Hacc direction s1. kept_step H Hacc debits s2.
  kept_step H Hacc d s3. kept_step H Hacc m s4. kept_step H Hacc a s5.
  kept_step H Hacc shown s6. kept_step H Hacc e0 s7. kept_step H Hacc e1 s8.
  kept_step H Hacc edited s9.
  destruct Hacc as (_ & Hnm9 & Hdb9).
  assert (Hsync9 : synced s9) by (unfold synced in *; congruence).
  clear Hnm9 Hdb9 Hsync st.
  bind_step H changed s10 E10. bind_step H e2 s11 E11.
  assert (Hsync11 : synced s11).
  { destruct changed.
    - apply learn_rows_names in E10 as [Hdb Hdom].
      bind_step E11 m' s12 E12. injection E12 as <- <-.
      bind_step E11 u s13 E13. unfold save_name_category_map, put_db in E13.
      injection E13 as _ <-.
      bind_step E11 d' s14 E14. injection E14 as <- <-.
      match type of E11 with _ ?s = _ => pose proof (same_session_refl s) as Hacc end.
      kept_step E11 Hacc a' s15. kept_step E11 Hacc again s16.
      assert (Hfin := fun K => run_session _ _ _ _ _ K Hacc E11).
      specialize (Hfin ltac:(solve [auto with session])).
      destruct Hfin as (_ & Hnm & Hd). unfold synced. rewrite Hnm, Hd. cbn.
      symmetry. apply union_covered. rewrite Hdb, <- Hsync9. exact Hdom.
    - apply learn_rows_false in E10 as ->. injection E11 as _ <-. exact Hsync9. }
  pose proof (same_session_refl s11) as Hacc.
  kept_step H Hacc final s12.
  injection H as _ <-. destruct Hacc as (_ & Hnm & Hd). unfold synced in *. congruence.
Qed.

Lemma completed_run_is_persisted_witness :
  exists res st',
    main_loaded rent_editor (parse_phonepe_pdf example_statement) empty_store
    = (Ok res, st') /\
    synced st' /\
    db st' !! "zomato online" = Some "Rent".
Proof.
  destruct (main_loaded rent_editor (parse_phonepe_pdf example_statement) empty_store)
    as [[res|e] st'] eqn:E; [|vm_compute in E; discriminate].
  destruct (completed_run_is_persisted rent_editor (parse_phonepe_pdf example_statement)
              empty_store st' res) as [Hs _].
  - reflexivity.
  - exact E.
  - exists res, st'. split; [reflexivity|]. split; [exact Hs|].
    vm_compute in E. injection E as _ <-. vm_compute. reflexivity.
Defined.

(** ** A run on a parsed statement *)

Lemma bind_run {A B} (m : M A) (k : A -> M B) st a s :
  m st = (Ok a, s) -> bind m k st = k a s.
Proof. intros H. unfold bind. rewrite H. reflexivity. Qed.

Lemma bind_assoc {A B C} (m : M A) (f : A -> M B) (g : B -> M C) st :
  bind (bind m f) g st = bind m (fun x => bind (f x) g) st.
Proof. unfold bind. destruct (m st) as [[a|e] s]; reflexivity. Qed.

Lemma select_filter {A} (p : A -> bool) (l : list A) :
  select (map p l) l = List.filter p l.
Proof. induction l as [|x l IH]; simpl; [reflexivity|]. destruct (p x); rewrite IH; reflexivity. Qed.

Lemma learn_row_returns df edited i o n nm st :
  iloc df i "Category" = Ok (CStr o) ->
  iloc edited i "Category" = Ok (CStr n) ->
  iloc edited i "Name" = Ok (CStr nm) ->
  exists b st', learn_row df edited i st = (Ok b, st').
Proof.
  intros Ho Hn Hnm. rewrite learn_row_run, Ho, Hn, Hnm.
  destruct (cell_eqb _ _); [eauto|]. destruct (strip n); eauto.
Qed.

Lemma learn_rows_returns df edited rows changed st :
  (forall i, i ∈ rows -> exists o n nm,
      iloc df i "Category" = Ok (CStr o) /\
      iloc edited i "Category" = Ok (CStr n) /\
      iloc edited i "Name" = Ok (CStr nm)) ->
  exists changed' st', learn_rows df edited rows changed st = (Ok changed', st').
Proof.
  revert changed st. induction rows as [|i rows IH]; intros changed st Hrows; simpl; [eauto|].
  destruct (Hrows i) as (o & n & nm & Ho & Hn & Hnm); [left|].
  destruct (learn_row_returns df edited i o n nm st Ho Hn Hnm) as (b & s & Hrow).
  unfold bind. rewrite Hrow. apply IH. intros j Hj. apply Hrows. right. exact Hj.
Qed.

Lemma iloc_categorized_table rows categories i :
  (i < length rows)%nat -> length categories = length rows ->
  exists c n,
    iloc (categorized_table rows categories) i "Category" = Ok (CStr c) /\
    iloc (categorized_table rows categories) i "Name" = Ok (CStr n).
Proof.
  intros Hi Hlen. unfold iloc. cbn [nrows categorized_table]. rewrite length_map.
  destruct (Nat.ltb_spec i (length rows)) as [_|]; [|lia].
  destruct (lookup_lt_is_Some_2 categories i) as [c Hc]; [lia|].
  destruct (lookup_lt_is_Some_2 rows i) as [r Hr]; [lia|].
  exists c, (row_Name r). cbn. unfold py_index.
  rewrite !list_lookup_fmap, Hc, Hr. split; reflexivity.
Qed.

Lemma categorized_table_set rows cs cs' :
  set_column "Category" (map CStr cs') (categorized_table rows cs)
  = categorized_table rows cs'.
Proof. reflexivity. Qed.

(** What a run does on the table of a parsed statement when the editor
    only retypes categories. *)
Lemma main_loaded_on_statement
    (data_editor : DataFrame -> DataFrame) (pages : list (option string)) (st : Store) :
  edits_every_category data_editor ->
  let rows := parse_rows (transaction_lines pages) in
  (rows = [] /\
   main_loaded data_editor (parse_phonepe_pdf pages) st = (Ok None, st)) \/
  (rows <> [] /\
   exists out st' categories,
     main_loaded data_editor (parse_phonepe_pdf pages) st = (Ok (Some out), st') /\
     length categories = length (List.filter is_debit rows) /\
     summarised out = categorized_table (List.filter is_debit rows) categories /\
     download out = to_csv (summarised out)).
Proof.
  intros Hed. unfold parse_phonepe_pdf.
  destruct (parse_rows (transaction_lines pages)) as [|r0 rows0] eqn:Hrows.
  { left. split; reflexivity. }
  right. split; [discriminate|].
  set (all := r0 :: rows0). set (kept := List.filter is_debit all).
  set (df := DataFrame_of_rows all).
  assert (Hempty : df_empty df = false) by reflexivity.
  assert (Hdf : df = [ ("Date", map (fun r => CDate (row_Date r)) all);
                       ("Name", map (fun r => CStr (row_Name r)) all);
                       ("Debit/Credit", map (fun r => CStr (row_DebitCredit r)) all);
                       ("Amount", map (fun r => CFloat (row_Amount r)) all) ])
    by reflexivity.
  clearbody df all. clear Hrows r0 rows0.
  assert (Hdir : get_column "Debit/Credit" df
                 = Ok (map (fun r => CStr (row_DebitCredit r)) all))
    by (rewrite Hdf; reflexivity).
  assert (Hfilter : forall cs,
             set_column "Category" (map CStr cs)
               (filter_rows (map (cell_is_str "Debit")
                               (map (fun r => CStr (row_DebitCredit r)) all)) df)
             = categorized_table kept cs).
  { intros cs. rewrite Hdf. unfold filter_rows. cbn [map]. rewrite map_map.
    change (map (fun r => cell_is_str "Debit" (CStr (row_DebitCredit r))) all)
      with (map is_debit all).
    rewrite !select_map, select_filter. reflexivity. }
  set (F0 := filter_rows _ df) in Hfilter.
  assert (Hnames : get_column "Name" F0 = Ok (map (fun r => CStr (row_Name r)) kept)).
  { rewrite <- (get_column_set_column_ne "Category" "Name" (map CStr [])) by discriminate.
    rewrite Hfilter. reflexivity. }
  assert (Hstr : Forall (fun c => is_str c = true) (map (fun r => CStr (row_Name r)) kept)).
  { apply Forall_map. apply Forall_true. reflexivity. }
  unfold main_loaded. rewrite Hempty.
  erewrite bind_run; [|unfold lift; rewrite Hdir; reflexivity].
  erewrite bind_run; [|reflexivity]. fold F0.
  erewrite bind_run; [|reflexivity]. erewrite bind_run; [|reflexivity].
  cbn [keyword_dict name_to_category].
  set (s2 := mkStore (<[next_addr st := F0]> (frames st)) _ _ _ _).
  destruct (categorize_transactions_rows (keyword_dict st) (name_to_category st)
              (next_addr st) s2 F0 _ (lookup_insert_eq _ _ _) Hnames Hstr)
    as (cs1 & Hrun1 & Hlen1 & _).
  rewrite length_map in Hlen1.
  erewrite bind_run; [|exact Hrun1].
  erewrite bind_run; [|unfold read_frame; rewrite with_category_frame; reflexivity].
  rewrite Hfilter.
  erewrite bind_run; [|reflexivity]. erewrite bind_run; [|reflexivity].
  erewrite bind_run;
    [|unfold read_frame; cbn [frames]; rewrite lookup_insert_eq; reflexivity].
  destruct (Hed (categorized_table kept cs1)) as (cats & Heq & Hcats).
  cbn [nrows categorized_table] in Hcats. rewrite length_map in Hcats.
  rewrite Heq, categorized_table_set.
  match goal with |- context [bind (learn_rows ?a ?b ?c ?d) ?k ?s] =>
    set (s9 := s);
    destruct (learn_rows_returns a b c d s9) as (changed & s10 & Hlearn);
    [ | rewrite (bind_run _ k s9 changed s10 Hlearn);
        pose proof (keeps_frames_learn_rows a b c d s9) as Hk;
        rewrite Hlearn in Hk; destruct Hk as [Hfr Hna] ]
  end.
  { intros i Hi. cbn [nrows categorized_table] in Hi.
    rewrite length_map in Hi. apply elem_of_seq in Hi.
    destruct (iloc_categorized_table kept cs1 i) as (o & _ & Ho & _); [lia | exact Hlen1|].
    destruct (iloc_categorized_table kept cats i) as (n & nm & Hn & Hnm); [lia | exact Hcats|].
    eauto 8. }
  cbn [snd] in Hfr, Hna.
  assert (Ha0 : frames s10 !! next_addr st = Some (categorized_table kept cs1)).
  { rewrite Hfr. unfold s9, with_category, s2. cbn [frames next_addr].
    rewrite !lookup_insert_ne by lia. rewrite <- (Hfilter cs1). apply lookup_insert_eq. }
  assert (Ha2 : frames s10 !! S (S (next_addr st)) = Some (categorized_table kept cats)).
  { rewrite Hfr. unfold s9, with_category, s2. cbn [frames next_addr]. apply lookup_insert_eq. }
  destruct changed.
  - rewrite bind_assoc. erewrite bind_run; [|reflexivity].
    rewrite bind_assoc. erewrite bind_run; [|reflexivity].
    rewrite bind_assoc. erewrite bind_run; [|reflexivity].
    cbn [keyword_dict name_to_category]. rewrite bind_assoc.
    match goal with |- context [bind (categorize_transactions ?a ?d ?m) ?k ?s] =>
      set (s13 := s);
      destruct (categorize_transactions_rows d m a s13 (categorized_table kept cs1)
                  (map (fun r => CStr (row_Name r)) kept))
        as (cs2 & Hrun2 & Hlen2 & _); [exact Ha0 | reflexivity | exact Hstr|];
      rewrite (bind_run _ k s13 _ _ Hrun2)
    end.
    rewrite length_map in Hlen2.
    rewrite bind_assoc.
    erewrite bind_run; [|unfold read_frame; rewrite with_category_frame; reflexivity].
    rewrite categorized_table_set.
    erewrite bind_run; [|reflexivity].
    erewrite bind_run;
      [|unfold read_frame; cbn [frames]; rewrite lookup_insert_eq; reflexivity].
    eexists _, _, cs2. split; [reflexivity|]. split; [exact Hlen2|]. split; reflexivity.
  - erewrite bind_run; [|reflexivity].
    erewrite bind_run; [|unfold read_frame;
       match goal with |- context [frames s10 !! ?a] =>
         change a with (S (S (next_addr st))) end;
       rewrite Ha2; reflexivity].
    eexists _, _, cats. split; [reflexivity|]. split; [exact Hcats|]. split; reflexivity.
Qed.

(** ** The download of a statement *)

Lemma rows_of_zip {A} (f1 f2 f3 f4 : A -> string) (l : list A) (cs : list string) :
  length cs = length l ->
  rows_of (length l) [map f1 l; map f2 l; map f3 l; map f4 l; cs]
  = zip_with (fun r c => [f1 r; f2 r; f3 r; f4 r; c]) l cs.
Proof.
  revert cs. induction l as [|r l IH]; intros [|c cs] Hlen; try discriminate; [reflexivity|].
  simpl. f_equal. apply IH. simpl in Hlen. lia.
Qed.

Lemma to_csv_categorized_table (rows : list parsed_row) (categories : list string) :
  length categories = length rows ->
  to_csv (categorized_table rows categories)
  = csv_header :: zip_with csv_record rows categories.
Proof.
  intros Hlen. unfold to_csv. cbn [map fst nrows categorized_table].
  rewrite !map_map, length_map. cbn [cell_text]. rewrite map_id.
  f_equal. apply (rows_of_zip (fun r => isoformat (row_Date r)) row_Name row_DebitCredit
                    (fun r => float_repr (row_Amount r))), Hlen.
Qed.

Lemma Forall_zip_with {A B C} (P : C -> Prop) (f : A -> B -> C) (l : list A) (k : list B) :
  (forall x y, x ∈ l -> P (f x y)) -> Forall P (zip_with f l k).
Proof.
  revert k. induction l as [|x l IH]; intros k H; [constructor|].
  destruct k as [|y k]; [constructor|]. simpl. constructor.
  - apply H. left.
  - apply IH. intros x' y' Hx. apply H. right. exact Hx.
Qed.

(** C8, as amended.  The download of a parsed statement, when the editor
    hands the table back with nothing but its categories rewritten, has
    the columns Date, Name, Debit/Credit, Amount, Category in that order
    and one record per Debit row of the statement, in statement order:
    the date of the row written YYYY-MM-DD, its name, "Debit", its
    amount written as [repr] prints the float, and the category.  The
    amount text is digits, a point, and one or two fractional digits
    without a trailing zero, never padded to two.  (Amounts below 10^13,
    where a float is exactly its number of hundredths.) *)
Theorem download_layout
    (data_editor : DataFrame -> DataFrame) (pages : list (option string))
    (st st' : Store) (out : Shown) :
  edits_every_category data_editor ->
  forallb (fun r => row_Amount r <? 10 ^ 15) (parse_rows (transaction_lines pages)) = true ->
  main_loaded data_editor (parse_phonepe_pdf pages) st = (Ok (Some out), st') ->
  exists categories,
    length categories
    = length (List.filter is_debit (parse_rows (transaction_lines pages))) /\
    download out
    = csv_header
        :: zip_with csv_record
             (List.filter is_debit (parse_rows (transaction_lines pages))) categories /\
    Forall (fun r => row_DebitCredit r = "Debit" /\ row_Amount r < 10 ^ 15 /\
                     iso_date_text (isoformat (row_Date r)) /\
                     repr_amount_text (float_repr (row_Amount r)))
           (List.filter is_debit (parse_rows (transaction_lines pages))) /\
    written_download (download out).
Proof.
  intros Hed Hrange H.
  destruct (main_loaded_on_statement data_editor pages st Hed)
    as [[_ Hnone] | (_ & out0 & st0 & cs & Hrun & Hlen & Hs & Hd)];
    rewrite H in *; [discriminate|].
  injection Hrun as <- <-. exists cs.
  set (rows := parse_rows (transaction_lines pages)) in *.
  assert (Hkept : forall r, r ∈ List.filter is_debit rows ->
            row_DebitCredit r = "Debit" /\ row_Amount r < 10 ^ 15 /\
            iso_date_text (isoformat (row_Date r)) /\
            repr_amount_text (float_repr (row_Amount r))).
  { intros r [Hr Hdeb]%list_elem_of_In%filter_In. split; [apply String.eqb_eq, Hdeb|].
    rewrite forallb_forall in Hrange. split; [apply N.ltb_lt, Hrange, Hr|].
    split; [|apply float_repr_shape].
    apply list_elem_of_In, parse_rows_elem in Hr as [line Hl].
    eapply isoformat_shape, parse_line_date, Hl. }
  assert (Hcsv : download out
                 = csv_header :: zip_with csv_record (List.filter is_debit rows) cs).
  { rewrite Hd, Hs. apply to_csv_categorized_table, Hlen. }
  split; [exact Hlen|]. split; [exact Hcsv|].
  split; [apply Forall_forall; exact Hkept|].
  rewrite Hcsv. eexists. split; [reflexivity|].
  apply Forall_zip_with. intros r c Hr. destruct (Hkept r Hr) as (Hdeb & _ & Hiso & Hrepr).
  eexists _, _, _, _, _. split; [reflexivity|]. auto.
Qed.

Lemma download_layout_witness :
  exists out st' categories,
    main_loaded rent_all_editor (parse_phonepe_pdf mixed_statement) empty_store
    = (Ok (Some out), st') /\
    download out
    = csv_header
        :: zip_with csv_record
             (List.filter is_debit (parse_rows (transaction_lines mixed_statement)))
             categories /\
    written_download (download out).
Proof.
  destruct (main_loaded rent_all_editor (parse_phonepe_pdf mixed_statement) empty_store)
    as [[[out|]|e] st'] eqn:E; try (vm_compute in E; discriminate).
  destruct (download_layout rent_all_editor mixed_statement empty_store st' out)
    as (cs & _ & Hcsv & _ & Hw).
  - intros shown. exists (repeat "Rent" (nrows shown)).
    split; [reflexivity | apply repeat_length].
  - vm_compute. reflexivity.
  - exact E.
  - exists out, st', cs. auto.
Defined.

(** ** A run to the end *)

Lemma main_summarised_returns data_editor summary_and_charts df st out st' :
  main_loaded data_editor df st = (Ok (Some out), st') ->
  expense_summary summary_and_charts (summarised out) = Ok tt ->
  main_summarised data_editor summary_and_charts df st = (Ok (Some out), st').
Proof.
  intros Hrun Hsum. unfold main_summarised, bind at 1. rewrite Hrun.
  unfold bind, lift. rewrite Hsum. reflexivity.
Qed.

(** The summary writes nothing: with it or without it a run leaves the
    same store. *)
Lemma main_summarised_store data_editor summary_and_charts df st :
  (main_summarised data_editor summary_and_charts df st).2
  = (main_loaded data_editor df st).2.
Proof.
  unfold main_summarised, bind.
  destruct (main_loaded data_editor df st) as [[[out|]|e] s]; try reflexivity.
  unfold lift. destruct (expense_summary summary_and_charts (summarised out)); reflexivity.
Qed.

(** X21.  On the table of a parsed statement a run of [main] completes
    whenever the editor only retypes categories (a string for every
    row) and the summary and the charts return on string categories and
    float amounts: nothing after the upload raises.  When no line was
    parsed it stops at the warning; otherwise it offers a download with
    a header and one line per Debit row of the statement. *)
Theorem run_on_a_statement_completes
    (data_editor : DataFrame -> DataFrame)
    (summary_and_charts : list cell -> list cell -> result unit)
    (pages : list (option string)) (st : Store) :
  edits_every_category data_editor ->
  summarises_amounts summary_and_charts ->
  exists res st',
    main_summarised data_editor summary_and_charts (parse_phonepe_pdf pages) st
    = (Ok res, st') /\
    (parse_rows (transaction_lines pages) = [] -> res = None) /\
    (parse_rows (transaction_lines pages) <> [] ->
     exists out,
       res = Some out /\
       length (download out)
       = S (length (List.filter is_debit (parse_rows (transaction_lines pages))))).
Proof.
  intros Hed Hsum.
  destruct (main_loaded_on_statement data_editor pages st Hed)
    as [[Hrows Hnone] | (Hrows & out & st' & cs & Hrun & Hlen & Hs & Hd)].
  - exists None, st. split; [|split; [reflexivity | contradiction]].
    unfold main_summarised, bind. rewrite Hnone. reflexivity.
  - exists (Some out), st'. split; [|split; [contradiction|]].
    + apply main_summarised_returns; [exact Hrun|].
      rewrite Hs. unfold expense_summary. cbn [categorized_table get_column String.eqb
        Ascii.eqb Bool.eqb rbind].
      apply Hsum.
      * rewrite !length_map. exact Hlen.
      * apply Forall_map, Forall_true. reflexivity.
      * apply Forall_map, Forall_true. reflexivity.
    + intros _. exists out. split; [reflexivity|].
      rewrite Hd, Hs, to_csv_categorized_table by exact Hlen.
      cbn [length]. rewrite length_zip_with. lia.
Qed.

Lemma summarises_amounts_plain : summarises_amounts plain_summary.
Proof.
  intros categories amounts _ _ Hf. unfold plain_summary.
  replace (forallb is_float amounts) with true; [reflexivity|].
  symmetry. apply forallb_forall. intros c Hc%list_elem_of_In.
  rewrite Forall_forall in Hf. apply Hf, Hc.
Qed.

Lemma run_on_a_statement_completes_witness :
  exists out st',
    main_summarised rent_all_editor plain_summary (parse_phonepe_pdf mixed_statement)
      empty_store
    = (Ok (Some out), st') /\
    length (download out) = 2%nat.
Proof.
  destruct (run_on_a_statement_completes rent_all_editor plain_summary mixed_statement
              empty_store) as (res & st' & Hrun & _ & Hsome).
  - intros shown. exists (repeat "Rent" (nrows shown)).
    split; [reflexivity | apply repeat_length].
  - apply summarises_amounts_plain.
  - destruct Hsome as (out & -> & Hlen); [vm_compute; discriminate|].
    exists out, st'. split; [exact Hrun | exact Hlen].
Defined.

(** ** A run that raises *)

Lemma rmap_list_names_str ruleset name_map (names : list cell) categories :
  rmap_list (categorize_name ruleset name_map) names = Ok categories ->
  Forall (fun c => is_str c = true) names.
Proof.
  intros H%rmap_list_inv. induction H as [|c y names ys Hc _ IH]; constructor; [|exact IH].
  destruct c; [discriminate | reflexivity | discriminate].
Qed.

(** One step through a run that raised: either the first computation of
    the [bind] raised, and the goal is closed by the session it kept, or
    it returned [a] in store [s]. *)
Ltac raised_step H Hacc a s E :=
  apply bind_cases in H as [(? & E & _) | (a & s & E & H)];
  [ refine (proj2 (proj2 (run_session _ _ _ _ _ _ Hacc E))); solve [auto with session]
  | let Hnew := fresh "Hs" in
    assert (Hnew := fun K => run_session _ _ _ _ _ K Hacc E);
    specialize (Hnew ltac:(solve [auto with session]));
    clear Hacc; rename Hnew into Hacc ].

(** Up to the summary every exception comes before
    [save_name_category_map], and nothing after the save can raise. *)
Lemma main_loaded_raises
    (data_editor : DataFrame -> DataFrame) (df : DataFrame)
    (st st' : Store) (e : exn) :
  main_loaded data_editor df st = (Raise e, st') -> db st' = db st.
Proof.
  intros H. pose proof (same_session_refl st) as Hacc.
  unfold main_loaded in H. destruct (df_empty df); [discriminate|].
  raised_step H Hacc direction s1 E1.
  raised_step H Hacc debits s2 E2.
  raised_step H Hacc d s3 E3.
  raised_step H Hacc m s4 E4.
  raised_step H Hacc a s5 E5.
  raised_step H Hacc shown s6 E6.
  raised_step H Hacc e0 s7 E7.
  raised_step H Hacc e1 s8 E8.
  raised_step H Hacc edited s9 E9.
  pose proof (proj2 (proj2 Hacc)) as Hdb9.
  apply bind_cases in H as [(x & E & _) | (changed & s10 & E10 & H)].
  { apply learn_rows_names in E as [Hdb _]. congruence. }
  destruct changed.
  2:{ apply learn_rows_false in E10 as ->.
      raised_step H Hacc e2 s11 E11.
      raised_step H Hacc final s12 E12.
      discriminate. }
  exfalso.
  (* the frame of the debits, as the first categorization left it *)
  destruct (categorize_transactions_cases d m debits s4)
    as [[x Hx] | (frame & names & cs & Hf & Hn & Hc & Hx)]; rewrite Hx in E5; [discriminate|].
  injection E5 as <- <-.
  assert (Hf10 : frames s10 !! debits
                 = Some (set_column "Category" (map CStr cs) frame)).
  { destruct (keeps_frames_learn_rows shown edited (seq 0 (nrows edited)) false s9) as [Hfr _].
    rewrite E10 in Hfr. cbn [snd] in Hfr. rewrite Hfr.
    unfold read_frame in E9. destruct (frames s8 !! e1); [|discriminate]. injection E9 as _ <-.
    unfold new_frame in E8. injection E8 as _ <-.
    unfold new_frame in E7. injection E7 as _ <-.
    unfold read_frame in E6.
    destruct (frames (with_category debits cs frame s4) !! debits); [|discriminate].
    injection E6 as _ <-. cbn [frames next_addr with_category].
    assert (Hlt : (debits < next_addr s4)%nat).
    { injection E4 as _ <-. injection E3 as _ <-. unfold new_frame in E2.
      injection E2 as <- <-. cbn. lia. }
    rewrite !lookup_insert_ne by lia. apply lookup_insert_eq. }
  assert (Hn10 : get_column "Name" (set_column "Category" (map CStr cs) frame) = Ok names).
  { rewrite get_column_set_column_ne by discriminate. exact Hn. }
  apply rmap_list_names_str in Hc.
  clear -H Hf10 Hn10 Hc.
  apply bind_cases in H as [(x & E & _) | (e2 & s11 & E11 & H)].
  - apply bind_cases in E as [(? & E & _) | (m' & s12 & E12 & E)]; [discriminate|].
    injection E12 as <- <-.
    apply bind_cases in E as [(? & E & _) | (u & s13 & E13 & E)]; [discriminate|].
    unfold save_name_category_map, put_db in E13. injection E13 as _ <-.
    apply bind_cases in E as [(? & E & _) | (d' & s14 & E14 & E)]; [discriminate|].
    injection E14 as <- <-.
    match type of E with
    | bind (categorize_transactions debits ?d ?m) _ ?s = _ =>
        destruct (categorize_transactions_rows d m debits s _ names Hf10 Hn10 Hc)
          as (cs' & Hrun & _)
    end.
    apply bind_cases in E as [(? & E & _) | (a' & s15 & E15 & E)]; [congruence|].
    rewrite Hrun in E15. injection E15 as <- <-.
    apply bind_cases in E as [(? & E & _) | (again & s16 & E16 & E)]; [|discriminate].
    unfold read_frame in E. rewrite with_category_frame in E. discriminate.
  - apply bind_cases in E11 as [(? & _ & [=]) | (m' & s12 & E12 & E)].
    apply bind_cases in E as [(? & _ & [=]) | (u & s13 & E13 & E)].
    apply bind_cases in E as [(? & _ & [=]) | (d' & s14 & E14 & E)].
    apply bind_cases in E as [(? & _ & [=]) | (a' & s15 & E15 & E)].
    apply bind_cases in E as [(? & _ & [=]) | (again & s16 & E16 & E)].
    unfold new_frame in E. injection E as <- <-.
    apply bind_cases in H as [(? & E & _) | (final & s17 & E17 & H)]; [|discriminate].
    unfold read_frame in E. cbn [frames] in E. rewrite lookup_insert_eq in E. discriminate.
Qed.

(** X22.  A run of [main] that raises has not written the database,
    unless it is the summary or a chart that raised: every other
    exception comes before [save_name_category_map].  When the summary
    raises, the categorization, the learning loop and the save have run
    as they do in a run that completes. *)
Theorem failed_run_and_the_database
    (data_editor : DataFrame -> DataFrame)
    (summary_and_charts : list cell -> list cell -> result unit)
    (df : DataFrame) (st st' : Store) (e : exn) :
  main_summarised data_editor summary_and_charts df st = (Raise e, st') ->
  db st' = db st \/
  exists out,
    main_loaded data_editor df st = (Ok (Some out), st') /\
    expense_summary summary_and_charts (summarised out) = Raise e.
Proof.
  unfold main_summarised. intros H.
  apply bind_cases in H as [(x & E & [= <-]) | ([out|] & s & E & H)].
  - left. eapply main_loaded_raises, E.
  - right. exists out. unfold bind, lift in H.
    destruct (expense_summary summary_and_charts (summarised out)) as [u|x];
      [discriminate|].
    injection H as <- <-. split; [exact E | reflexivity].
  - discriminate.
Qed.

Lemma failed_run_and_the_database_witness :
  (exists e st',
     main_summarised number_editor plain_summary (parse_phonepe_pdf example_statement)
       empty_store
     = (Raise e, st') /\
     db st' = db empty_store) /\
  (exists st' out,
     main_summarised rent_editor plain_summary no_amount_frame empty_store
     = (Raise KeyError, st') /\
     main_loaded rent_editor no_amount_frame empty_store = (Ok (Some out), st') /\
     db st' !! "shop" = Some "Rent").
Proof.
  split.
  - destruct (main_summarised number_editor plain_summary
                (parse_phonepe_pdf example_statement) empty_store)
      as [[res|e] st'] eqn:E; [vm_compute in E; discriminate|].
    exists e, st'. split; [reflexivity|].
    destruct (failed_run_and_the_database number_editor plain_summary
                (parse_phonepe_pdf example_statement) empty_store st' e E)
      as [Hdb | (out & Hrun & _)]; [exact Hdb|].
    vm_compute in Hrun. discriminate.
  - destruct (main_summarised rent_editor plain_summary no_amount_frame empty_store)
      as [[res|e] st'] eqn:E; [vm_compute in E; discriminate|].
    destruct (failed_run_and_the_database rent_editor plain_summary no_amount_frame
                empty_store st' e E)
      as [Hdb | (out & Hrun & _)].
    + exfalso. vm_compute in E. injection E as _ <-. vm_compute in Hdb. discriminate.
    + exists st', out. vm_compute in E. injection E as <- <-.
      split; [reflexivity|]. split; [exact Hrun|]. vm_compute. reflexivity.
Defined.
